(** * sibackup: a one-way directory mirroring engine

    Shallow embedding of [sibackup.py] and the properties of its traversal.

    Conventions of the embedding.
    - Python integers are [Z]; the [st_mtime] floats returned by [os.stat]
      are only compared with [==] and [>], so they are kept as [Z] ticks.
    - Paths are strings and [os.path.join] is the POSIX one
      ([posixpath.join]).
    - The operating system is an interface ([OS]): every call the program
      makes into [os], [os.path] and [shutil] is a field of it.  Calls that
      read take the file-system state, calls that write also return the new
      state.  Every call may raise; the program catches [PermissionError]
      and [FileNotFoundError] at some places and lets the rest escape.
    - [shutil.rmtree] calls back into the program: its field gives the
      removal step by step ([removal]), and the handler
      [remove_read_only] of the program runs between the steps, its
      [os.chmod] calls recorded like any other call.
    - The global [info_data] dictionary, the file system and the list of
      OS calls issued so far form the state ([world]) threaded through the
      program by a state-and-exception monad [M].
    - [copy_folder] recurses on the file system, which Python bounds only
      by the interpreter's stack; the embedding recurses on a fuel counter
      and reports [NoFuel] when it is exhausted ([more_fuel_same_run]: the
      bound has no other effect).
    - Logging and the [time_spent] durations (differences of wall-clock
      readings) are left out: no branch of the program reads them.  Of the
      summary printed by [sibackup()] only the divisions are kept, which
      can raise.

    Layout: the embedding of the program; a concrete file system
    ([TreeFS]) on which it runs; the trees and configurations of the
    example runs ([Fixtures]); the properties, proved for every [OS]; the
    runs on explicit trees ([Runs]).                                      *)

From Stdlib Require Import ZArith List String Ascii Bool Lia DecimalString.
Import ListNotations.
Local Open Scope string_scope.
Local Open Scope Z_scope.

(* ===================================================================== *)
(** ** Exceptions and results of OS calls                                 *)
(* ===================================================================== *)

Inductive exn : Type :=
| PermissionError
| FileNotFoundError
| AttributeError
| ZeroDivisionError
| OSError (detail : string).   (* every other exception of the OS layer *)

Inductive result (A : Type) : Type :=
| Ok (a : A)
| Raise (e : exn).
Arguments Ok {A} a.
Arguments Raise {A} e.

(* ===================================================================== *)
(** ** Paths: [posixpath.join]                                            *)
(* ===================================================================== *)

Module Path.

Definition sep : ascii := "/"%char.

Definition startswith_sep (p : string) : bool :=
  match p with
  | String c _ => Ascii.eqb c sep
  | EmptyString => false
  end.

Fixpoint endswith_sep (p : string) : bool :=
  match p with
  | EmptyString => false
  | String c EmptyString => Ascii.eqb c sep
  | String _ rest => endswith_sep rest
  end.

(** [os.path.join(a, b)] for two components. *)
Definition join (a b : string) : string :=
  if startswith_sep b then b
  else if (String.eqb a "" || endswith_sep a)%bool then a ++ b
  else a ++ "/" ++ b.

End Path.

(* ===================================================================== *)
(** ** [os.stat] results and the [StatHelper] class                       *)
(* ===================================================================== *)

Record stat_result : Type := mk_stat {
  st_mode  : Z;
  st_ino   : Z;
  st_dev   : Z;
  st_size  : Z;
  st_mtime : Z;
  st_atime : Z;
  st_ctime : Z
}.

Module Stat.
(** Constants of Python's [stat] module. *)
Definition S_IFMT   : Z := 61440.  (* 0o170000 *)
Definition S_IFDIR  : Z := 16384.  (* 0o040000 *)
Definition S_IFREG  : Z := 32768.  (* 0o100000 *)
Definition S_IREAD  : Z := 256.    (* 0o400 *)
Definition S_IWRITE : Z := 128.    (* 0o200 *)
Definition S_IEXEC  : Z := 64.     (* 0o100 *)

Definition S_ISDIR (mode : Z) : bool := Z.land mode S_IFMT =? S_IFDIR.
Definition S_ISREG (mode : Z) : bool := Z.land mode S_IFMT =? S_IFREG.
End Stat.

(** An instance of [StatHelper].  An attribute that [__init__] has not
    assigned is [None]; reading it raises [AttributeError]. *)
Record StatHelper : Type := mk_helper {
  path_name       : string;
  stats           : option stat_result;
  _exists         : option bool;
  _has_permission : option bool
}.

Definition attr {A : Type} (field : option A) : result A :=
  match field with
  | Some v => Ok v
  | None => Raise AttributeError
  end.

Definition rmap {A B : Type} (f : A -> B) (r : result A) : result B :=
  match r with
  | Ok a => Ok (f a)
  | Raise e => Raise e
  end.

Module SH.
(** [StatHelper.__init__], given what [os.stat(path_name)] did. *)
Definition init (path : string) (probe : result stat_result)
  : result StatHelper :=
  match probe with
  | Ok s => Ok (mk_helper path (Some s) (Some true) (Some true))
  | Raise FileNotFoundError => Ok (mk_helper path None (Some false) (Some true))
  | Raise PermissionError => Ok (mk_helper path None None (Some false))
  | Raise e => Raise e
  end.

Definition has_permission (self : StatHelper) : result bool :=
  attr (_has_permission self).
Definition exists_ (self : StatHelper) : result bool :=
  attr (_exists self).
Definition isfile (self : StatHelper) : result bool :=
  rmap (fun s => Stat.S_ISREG (st_mode s)) (attr (stats self)).
Definition isdir (self : StatHelper) : result bool :=
  rmap (fun s => Stat.S_ISDIR (st_mode s)) (attr (stats self)).
Definition getsize (self : StatHelper) : result Z :=
  rmap st_size (attr (stats self)).
Definition getmtime (self : StatHelper) : result Z :=
  rmap st_mtime (attr (stats self)).
Definition getmode (self : StatHelper) : result Z :=
  rmap st_mode (attr (stats self)).
Definition haswrite (self : StatHelper) : result Z :=
  rmap (fun s => Z.land (st_mode s) Stat.S_IWRITE) (attr (stats self)).
Definition samestat (self other : StatHelper) : result bool :=
  match attr (stats self), attr (stats other) with
  | Ok a, Ok b => Ok ((st_ino a =? st_ino b) && (st_dev a =? st_dev b))%bool
  | Raise e, _ => Raise e
  | _, Raise e => Raise e
  end.
End SH.

(* ===================================================================== *)
(** ** Configuration and counters                                         *)
(* ===================================================================== *)

(** The parsed command line ([args]). *)
Record Args : Type := mk_args {
  source       : string;
  destination  : string;
  depth        : option Z;
  copymode     : Z;
  conflictmode : Z;
  archivepath  : string;
  simulate     : bool
}.

(** The integer counters of [info_data] that the program writes. *)
Record info_data : Type := mk_info {
  num_processed      : Z;
  num_copied         : Z;
  size_copied        : Z;
  num_skipped        : Z;
  size_skipped       : Z;
  not_copied         : Z;
  num_created        : Z;
  conflicts_resolved : Z
}.

Definition info_zero : info_data := mk_info 0 0 0 0 0 0 0 0.

Definition add_num_processed (n : Z) (i : info_data) : info_data :=
  mk_info (num_processed i + n) (num_copied i) (size_copied i) (num_skipped i)
          (size_skipped i) (not_copied i) (num_created i) (conflicts_resolved i).
Definition add_num_copied (n : Z) (i : info_data) : info_data :=
  mk_info (num_processed i) (num_copied i + n) (size_copied i) (num_skipped i)
          (size_skipped i) (not_copied i) (num_created i) (conflicts_resolved i).
Definition add_size_copied (n : Z) (i : info_data) : info_data :=
  mk_info (num_processed i) (num_copied i) (size_copied i + n) (num_skipped i)
          (size_skipped i) (not_copied i) (num_created i) (conflicts_resolved i).
Definition add_num_skipped (n : Z) (i : info_data) : info_data :=
  mk_info (num_processed i) (num_copied i) (size_copied i) (num_skipped i + n)
          (size_skipped i) (not_copied i) (num_created i) (conflicts_resolved i).
Definition add_size_skipped (n : Z) (i : info_data) : info_data :=
  mk_info (num_processed i) (num_copied i) (size_copied i) (num_skipped i)
          (size_skipped i + n) (not_copied i) (num_created i) (conflicts_resolved i).
Definition add_not_copied (n : Z) (i : info_data) : info_data :=
  mk_info (num_processed i) (num_copied i) (size_copied i) (num_skipped i)
          (size_skipped i) (not_copied i + n) (num_created i) (conflicts_resolved i).
Definition add_num_created (n : Z) (i : info_data) : info_data :=
  mk_info (num_processed i) (num_copied i) (size_copied i) (num_skipped i)
          (size_skipped i) (not_copied i) (num_created i + n) (conflicts_resolved i).
Definition add_conflicts_resolved (n : Z) (i : info_data) : info_data :=
  mk_info (num_processed i) (num_copied i) (size_copied i) (num_skipped i)
          (size_skipped i) (not_copied i) (num_created i) (conflicts_resolved i + n).

(* ===================================================================== *)
(** ** The operating system interface                                     *)
(* ===================================================================== *)

(** The calls the program issues, in the order it issues them. *)
Inductive syscall : Type :=
| CStat (p : string)
| CExists (p : string)
| CIsdir (p : string)
| CListdir (p : string)
| CMkdir (p : string)
| CMakedirs (p : string)
| CChmod (p : string) (mode : Z)
| CCopy2 (src dst : string)
| CMove (src dst : string)
| CRmtree (p : string)
| CRemove (p : string).

Definition is_mutation (c : syscall) : bool :=
  match c with
  | CStat _ | CExists _ | CIsdir _ | CListdir _ => false
  | _ => true
  end.

(** [shutil.rmtree(path, onerror=handler)] seen from its caller: the
    removal works on the file system until it is finished, or until one of
    its steps fails on some path; it then calls the handler with that path
    and goes on from the file system the handler leaves. *)
Inductive removal (fs : Type) : Type :=
| Finished (r : result unit) (left : fs)
| OnError (name : string) (left : fs) (resume : fs -> removal fs).
Arguments Finished {fs} r left.
Arguments OnError {fs} name left resume.

Record OS : Type := mk_os {
  fs : Type;
  (* reading *)
  os_path_abspath : string -> string;
  os_stat         : fs -> string -> result stat_result;
  os_path_exists  : fs -> string -> bool;
  os_path_isdir   : fs -> string -> bool;
  os_listdir      : fs -> string -> result (list string);
  (* writing *)
  os_mkdir        : fs -> string -> result unit * fs;
  os_makedirs     : fs -> string -> result unit * fs;
  os_chmod        : fs -> string -> Z -> result unit * fs;
  os_remove       : fs -> string -> result unit * fs;
  shutil_copy2    : fs -> string -> string -> result unit * fs;
  shutil_move     : fs -> string -> string -> result unit * fs;
  shutil_rmtree   : fs -> string -> removal fs
}.
Existing Class OS.

(* ===================================================================== *)
(** ** The program's state and its monad                                  *)
(* ===================================================================== *)

Record world (os : OS) : Type := mk_world {
  info  : info_data;
  disk  : fs os;
  calls : list syscall      (* most recent call first *)
}.
Arguments mk_world {os} info disk calls.
Arguments info {os} w.
Arguments disk {os} w.
Arguments calls {os} w.

Inductive outcome (A : Type) : Type :=
| Done (a : A)              (* the computation returned [a] *)
| Uncaught (e : exn)        (* an exception escaped it *)
| NoFuel.                   (* the recursion bound was reached *)
Arguments Done {A} a.
Arguments Uncaught {A} e.
Arguments NoFuel {A}.

Definition M (os : OS) (A : Type) : Type := world os -> outcome A * world os.

Definition ret {os : OS} {A : Type} (a : A) : M os A := fun w => (Done a, w).

Definition raise {os : OS} {A : Type} (e : exn) : M os A :=
  fun w => (Uncaught e, w).

Definition out_of_fuel {os : OS} {A : Type} : M os A := fun w => (NoFuel, w).

Definition bind {os : OS} {A B : Type} (m : M os A) (k : A -> M os B) : M os B :=
  fun w =>
    match m w with
    | (Done a, w') => k a w'
    | (Uncaught e, w') => (Uncaught e, w')
    | (NoFuel, w') => (NoFuel, w')
    end.

Declare Scope prog_scope.
Delimit Scope prog_scope with prog.
Notation "x <- m ;; k" := (bind m (fun x => k))
  (at level 61, m at next level, right associativity) : prog_scope.
Notation "m ;; k" := (bind m (fun _ => k))
  (at level 61, right associativity) : prog_scope.
Local Open Scope prog_scope.

(** An accessor of [StatHelper] evaluated inside the program. *)
Definition lift {os : OS} {A : Type} (r : result A) : M os A :=
  match r with
  | Ok a => ret a
  | Raise e => raise e
  end.

(** [info_data[...] += n] *)
Definition bump {os : OS} (f : info_data -> info_data) : M os unit :=
  fun w => (Done tt, mk_world (f (info w)) (disk w) (calls w)).

(** A reading call: the file system is unchanged, the call is recorded. *)
Definition reading {os : OS} {A : Type} (c : syscall) (f : fs os -> A) : M os A :=
  fun w => (Done (f (disk w)), mk_world (info w) (disk w) (c :: calls w)).

(** A writing call: the file system is replaced by the one the call leaves. *)
Definition writing {os : OS} {A : Type} (c : syscall) (f : fs os -> A * fs os)
  : M os A :=
  fun w => let (r, d) := f (disk w) in
           (Done r, mk_world (info w) d (c :: calls w)).

Section Calls.
Context {os : OS}.

Definition path_exists (p : string) : M os bool :=
  reading (CExists p) (fun d => os_path_exists os d p).
Definition path_isdir (p : string) : M os bool :=
  reading (CIsdir p) (fun d => os_path_isdir os d p).
Definition listdir (p : string) : M os (result (list string)) :=
  reading (CListdir p) (fun d => os_listdir os d p).
Definition stat (p : string) : M os (result stat_result) :=
  reading (CStat p) (fun d => os_stat os d p).

Definition mkdir (p : string) : M os (result unit) :=
  writing (CMkdir p) (fun d => os_mkdir os d p).
Definition makedirs (p : string) : M os (result unit) :=
  writing (CMakedirs p) (fun d => os_makedirs os d p).
Definition chmod (p : string) (mode : Z) : M os (result unit) :=
  writing (CChmod p mode) (fun d => os_chmod os d p mode).
Definition remove (p : string) : M os (result unit) :=
  writing (CRemove p) (fun d => os_remove os d p).
Definition copy2 (src dst : string) : M os (result unit) :=
  writing (CCopy2 src dst) (fun d => shutil_copy2 os d src dst).
Definition move (src dst : string) : M os (result unit) :=
  writing (CMove src dst) (fun d => shutil_move os d src dst).

(** [shutil.rmtree(p, onerror=onerror)]: the handler runs inside the
    call, each time the removal fails on a path; an exception of the
    handler leaves [shutil.rmtree], which has no [try] around it. *)
Fixpoint handling (onerror : string -> M os (result unit))
    (k : removal (fs os)) : M os (result unit) :=
  match k with
  | Finished r d => fun w => (Done r, mk_world (info w) d (calls w))
  | OnError name d resume =>
      fun w =>
        (handled <- onerror name ;;
         match handled with
         | Ok _ => fun w' => handling onerror (resume (disk w')) w'
         | Raise e => ret (Raise e)
         end) (mk_world (info w) d (calls w))
  end.

Definition rmtree (onerror : string -> M os (result unit)) (p : string)
  : M os (result unit) :=
  fun w =>
    handling onerror (shutil_rmtree os (disk w) p)
      (mk_world (info w) (disk w) (CRmtree p :: calls w)).

(** [StatHelper(path)] *)
Definition new_StatHelper (p : string) : M os StatHelper :=
  probe <- stat p ;;
  lift (SH.init p probe).

(** A [for] loop whose body may [return] from the enclosing function:
    the body yields [Some status] for [return status] and [None] when
    it falls through to the next element (also on [continue]). *)
Fixpoint for_each {A : Type} (xs : list A) (body : A -> M os (option Z))
  : M os (option Z) :=
  match xs with
  | [] => ret None
  | x :: rest =>
      r <- body x ;;
      match r with
      | Some status => ret (Some status)
      | None => for_each rest body
      end
  end.

(** Run [m]; if it asked to return, return, otherwise go on with [k]. *)
Definition unless_returned (m : M os (option Z)) (k : M os Z) : M os Z :=
  r <- m ;;
  match r with
  | Some status => ret status
  | None => k
  end.

(** The same inside a loop body, which itself may ask to return. *)
Definition then_in_body (m : M os (option Z)) (k : M os (option Z))
  : M os (option Z) :=
  r <- m ;;
  match r with
  | Some status => ret (Some status)
  | None => k
  end.

End Calls.

Notation "'returning' m ;; k" := (unless_returned m k)
  (at level 61, m at next level, right associativity) : prog_scope.

(* ===================================================================== *)
(** ** The engine                                                         *)
(* ===================================================================== *)

Section Engine.
Context {os : OS}.
Variable args : Args.

(** [copy_file(source_file_stats, dest_file_stats)] *)
Definition copy_file (source_file_stats dest_file_stats : StatHelper)
  : M os unit :=
  if negb (simulate args) then
    r <- copy2 (path_name source_file_stats) (path_name dest_file_stats) ;;
    match r with
    | Ok _ =>
        bump (add_num_copied 1) ;;
        size <- lift (SH.getsize source_file_stats) ;;
        bump (add_size_copied size)
    | Raise PermissionError => bump (add_not_copied 1)
    | Raise FileNotFoundError => bump (add_not_copied 1)
    | Raise e => raise e
    end
  else
    bump (add_num_copied 1) ;;
    size <- lift (SH.getsize source_file_stats) ;;
    bump (add_size_copied size).

(** [if args.depth is not None and depth > args.depth] *)
Definition too_deep (current_depth : Z) : bool :=
  match depth args with
  | Some limit => current_depth >? limit
  | None => false
  end.

(** "Create destination folder if it doesn't exist" (lines 221-231). *)
Definition ensure_dest_folder (current_dest_path : string) : M os (option Z) :=
  present <- path_exists current_dest_path ;;
  if negb present then
    if negb (simulate args) then
      r <- mkdir current_dest_path ;;
      match r with
      | Ok _ => bump (add_num_created 1) ;; ret None
      | Raise PermissionError => ret (Some 0)
      | Raise e => raise e
      end
    else ret None
  else ret None.

(** The two [os.listdir] calls (lines 233-253): the lists, or the status
    the function returns with. *)
Definition list_children (current_source_path current_dest_path : string)
  : M os (list string * list string + Z) :=
  ls <- listdir current_source_path ;;
  match ls with
  | Raise PermissionError => ret (inr 0)
  | Raise e => raise e
  | Ok source_list =>
      ld <- listdir current_dest_path ;;
      match ld with
      | Ok dest_list => ret (inl (source_list, dest_list))
      | Raise FileNotFoundError =>
          if simulate args then ret (inl (source_list, []))
          else ret (inr 1)
      | Raise e => raise e
      end
  end.

(** [list(set(dest_list) - set(source_list))].  Python leaves the order
    of a set unspecified; the order of [dest_list] is taken. *)
Definition conflicts (dest_list source_list : list string) : list string :=
  nodup string_dec
    (filter (fun name => negb (existsb (String.eqb name) source_list))
            dest_list).

(** [remove_read_only(action, name, exc)] (lines 314-315), the handler
    given to [shutil.rmtree]: the result is the exception, if any, that
    its [os.chmod] raises. *)
Definition remove_read_only (name : string) : M os (result unit) :=
  chmod name Stat.S_IWRITE.

(** The body of the loop over [conflict_list] (lines 259-325). *)
Definition resolve_conflict
    (archive_path current_dest_path current_archive_path : string)
    (conflict_item : string) : M os (option Z) :=
  let conflict_item_path := Path.join current_dest_path conflict_item in
  conflict_item_stats <- new_StatHelper conflict_item_path ;;
  if conflictmode args =? 0 then
    bump (add_conflicts_resolved 1) ;; ret None
  else
    writable <- lift (SH.haswrite conflict_item_stats) ;;
    (if writable =? 0 then
       r <- chmod conflict_item_path Stat.S_IWRITE ;; lift r
     else ret tt) ;;
    if conflictmode args =? 1 then
      if negb (String.eqb conflict_item_path archive_path) then
        present <- path_exists current_archive_path ;;
        then_in_body
          (if negb present then
             if negb (simulate args) then
               r <- makedirs current_archive_path ;;
               match r with
               | Ok _ => bump (add_num_created 1) ;; ret None
               | Raise PermissionError => ret (Some 0)
               | Raise e => raise e
               end
             else bump (add_num_created 1) ;; ret None
           else ret None)
          (if negb (simulate args) then
             r <- move conflict_item_path current_archive_path ;;
             match r with
             | Ok _ => bump (add_conflicts_resolved 1) ;; ret None
             | Raise PermissionError => ret None      (* continue *)
             | Raise e => raise e
             end
           else bump (add_conflicts_resolved 1) ;; ret None)
      else ret None
    else
      if negb (simulate args) then
        is_dir <- path_isdir conflict_item_path ;;
        r <- (if is_dir then rmtree remove_read_only conflict_item_path
              else remove conflict_item_path) ;;
        match r with
        | Ok _ => bump (add_conflicts_resolved 1) ;; ret None
        | Raise PermissionError => ret None      (* continue *)
        | Raise e => raise e
        end
      else bump (add_conflicts_resolved 1) ;; ret None.

(** Which branch of the chain at lines 360-387 is taken for a file. *)
Inductive verdict : Type :=
| CopyIt       (* one of the three [copy_file] branches *)
| HashTodo     (* [elif args.copymode == 3: pass] *)
| SkipIt.      (* the final [else] *)

Definition rbind {A B : Type} (r : result A) (k : A -> result B) : result B :=
  match r with
  | Ok a => k a
  | Raise e => Raise e
  end.

(** The conditions are evaluated left to right and [and]/[or] cut short,
    as in Python: an accessor is only called where the chain reaches it. *)
Definition copy_verdict (source_item_stats dest_item_stats : StatHelper)
  : result verdict :=
  rbind (SH.exists_ dest_item_stats) (fun present =>
  if (negb present || (copymode args =? 0))%bool then Ok CopyIt
  else
    rbind (if copymode args >=? 1 then
             rbind (SH.getmtime source_item_stats) (fun ms =>
             rbind (SH.getmtime dest_item_stats) (fun md =>
             Ok (negb (ms =? md))))
           else Ok false) (fun mtime_differs =>
    if mtime_differs then Ok CopyIt
    else
      rbind (if copymode args >=? 2 then
               rbind (SH.getsize source_item_stats) (fun ss =>
               rbind (SH.getsize dest_item_stats) (fun ds =>
               Ok (negb (ss =? ds))))
             else Ok false) (fun size_differs =>
      if size_differs then Ok CopyIt
      else if copymode args =? 3 then Ok HashTodo
      else Ok SkipIt))).

(** The [else] branch of lines 350-388: a source entry that is not a
    directory. *)
Definition process_file (current_dest_path source_item : string)
    (source_item_stats : StatHelper) : M os unit :=
  let dest_item_path := Path.join current_dest_path source_item in
  dest_item_stats <- new_StatHelper dest_item_path ;;
  v <- lift (copy_verdict source_item_stats dest_item_stats) ;;
  match v with
  | CopyIt => copy_file source_item_stats dest_item_stats
  | HashTodo => ret tt
  | SkipIt =>
      bump (add_num_skipped 1) ;;
      size <- lift (SH.getsize source_item_stats) ;;
      bump (add_size_skipped size)
  end ;;
  bump (add_num_processed 1).

(** The body of the loop over [source_list] (lines 328-388); [recurse]
    is the recursive call of [copy_folder] on a sub-folder. *)
Definition process_source_item
    (recurse : string -> M os Z)
    (current_source_path current_dest_path current_folder : string)
    (source_item : string) : M os (option Z) :=
  let source_item_path := Path.join current_source_path source_item in
  source_item_stats <- new_StatHelper source_item_path ;;
  readable <- lift (SH.has_permission source_item_stats) ;;
  if negb readable then ret (Some 0)
  else
    is_dir <- lift (SH.isdir source_item_stats) ;;
    if is_dir then
      res <- recurse (Path.join current_folder source_item) ;;
      if negb (res =? 0) then ret (Some res) else ret None
    else
      process_file current_dest_path source_item source_item_stats ;;
      ret None.

(** Lines 216-325 of [copy_folder]: the destination folder is ensured,
    both folders are listed and the conflicts are resolved.  The result is
    the list of source entries still to be processed, or the status the
    function has returned with. *)
Definition enter_folder
    (archive_path current_source_path current_dest_path
     current_archive_path : string) : M os (list string + Z) :=
  created <- ensure_dest_folder current_dest_path ;;
  match created with
  | Some status => ret (inr status)
  | None =>
      listed <- list_children current_source_path current_dest_path ;;
      match listed with
      | inr status => ret (inr status)
      | inl (source_list, dest_list) =>
          resolved <- for_each (conflicts dest_list source_list)
                        (resolve_conflict archive_path current_dest_path
                                          current_archive_path) ;;
          match resolved with
          | Some status => ret (inr status)
          | None => ret (inl source_list)
          end
      end
  end.

(** [copy_folder(source_path, dest_path, archive_path, current_folder,
    depth)] *)
Fixpoint copy_folder (fuel : nat)
    (source_path dest_path archive_path current_folder : string)
    (current_depth : Z) : M os Z :=
  match fuel with
  | O => out_of_fuel
  | S fuel' =>
      if too_deep current_depth then ret 0
      else
        let current_source_path := Path.join source_path current_folder in
        let current_dest_path := Path.join dest_path current_folder in
        let current_archive_path := Path.join archive_path current_folder in
        entered <- enter_folder archive_path current_source_path
                     current_dest_path current_archive_path ;;
        match entered with
        | inr status => ret status
        | inl source_list =>
            returning
              for_each source_list
                (process_source_item
                   (fun sub => copy_folder fuel' source_path dest_path
                                 archive_path sub (current_depth + 1))
                   current_source_path current_dest_path current_folder) ;;
            ret 0
        end
  end.

(** The divisions of the summary (lines 463-485): with files counted
    as copied or skipped and no byte among them, Python divides by
    zero.  Nothing else of the summary can raise. *)
Definition report : M os unit :=
  fun w =>
    let i := info w in
    let total_data := size_copied i + size_skipped i in
    if (negb (num_copied i =? 0) && (total_data =? 0))%bool
    then (Uncaught ZeroDivisionError, w)
    else if (negb (num_skipped i =? 0) && (total_data =? 0))%bool
    then (Uncaught ZeroDivisionError, w)
    else (Done tt, w).

(** The creation of a missing root folder, written twice in [sibackup()]
    (destination, lines 406-417; archive, lines 435-445): the run is
    aborted when access is denied. *)
Definition create_root (p : string) : M os (option Z) :=
  if negb (simulate args) then
    r <- makedirs p ;;
    match r with
    | Ok _ => bump (add_num_created 1) ;; ret None
    | Raise PermissionError => ret (Some 1)
    | Raise e => raise e
    end
  else bump (add_num_created 1) ;; ret None.

Definition valid_copymode : bool :=
  existsb (Z.eqb (copymode args)) [0; 1; 2; 3].
Definition valid_conflictmode : bool :=
  existsb (Z.eqb (conflictmode args)) [0; 1; 2].
Definition negative_depth : bool :=
  match depth args with
  | Some d => d <? 0
  | None => false
  end.

(** [sibackup()] *)
Definition sibackup (fuel : nat) : M os Z :=
  let source_path := os_path_abspath os (source args) in
  source_present <- path_exists source_path ;;
  if negb source_present then ret 1
  else
    let dest_path := os_path_abspath os (destination args) in
    dest_present <- path_exists dest_path ;;
    returning (if negb dest_present then create_root dest_path
               else ret None) ;;
    if negative_depth then ret 1
    else if negb valid_copymode then ret 1
    else if negb valid_conflictmode then ret 1
    else
      let archive_path := Path.join dest_path (archivepath args) in
      returning
        (if conflictmode args =? 1 then
           archive_present <- path_exists archive_path ;;
           if negb archive_present then create_root archive_path
           else ret None
         else ret None) ;;
      status <- copy_folder fuel source_path dest_path archive_path "" 0 ;;
      report ;;
      ret status.

End Engine.

(* ===================================================================== *)
(** ** The functions around the engine                                    *)
(* ===================================================================== *)

(** [str(n)] for a Python integer. *)
Definition str_int (n : Z) : string := NilZero.string_of_int (Z.to_int n).

Fixpoint repeat_char (c : ascii) (n : nat) : string :=
  match n with
  | O => ""
  | S n' => String c (repeat_char c n')
  end.

(** The format specification [{:0>Wd}]: the decimal text of [n], filled
    on the left with ["0"] up to [width] characters. *)
Definition zero_filled (width : nat) (n : Z) : string :=
  (repeat_char "0"%char (width - String.length (str_int n)) ++ str_int n)%string.

Module Timer.

(** The fields [Timer.format_time] computes, from [temp =
    int(elapsed_time * 1000)] on (lines 86-92); the product of the
    floating-point duration is left to the caller. *)
Record fields : Type := mk_fields {
  hours : Z;
  minutes : Z;
  seconds : Z;
  millis : Z
}.

Definition split_time (temp : Z) : fields :=
  let millis := temp mod 1000 in
  let temp := temp / 1000 in
  let seconds := temp mod 60 in
  let temp := temp / 60 in
  let minutes := temp mod 60 in
  let temp := temp / 60 in
  mk_fields temp minutes seconds millis.

(** ["{}:{:0>2d}:{:0>2d}.{:0>4d}".format(hours, minutes, seconds, millis)] *)
Definition format_time (temp : Z) : string :=
  let f := split_time temp in
  (str_int (hours f) ++ ":" ++ zero_filled 2 (minutes f) ++ ":"
   ++ zero_filled 2 (seconds f) ++ "." ++ zero_filled 4 (millis f))%string.

End Timer.

(** What [format_data_size] returns: a literal, or the text
    ["{:.3f}{}".format(data_size / value, name)], kept as the quotient to
    print and the unit; the rounding to three decimals is Python's. *)
Inductive size_text : Type :=
| Literal (text : string)
| Scaled (data_size value : Z) (name : string).

Definition data_size_values : list Z :=
  [1; 1024; 1048576; 1073741824; 1099511627776].
Definition data_size_names : list string := ["B"; "KB"; "MB"; "GB"; "TB"].

(** [range(start, stop, -1)] *)
Definition range_down (start stop : nat) : list nat :=
  rev (seq (S stop) (start - stop)).

(** The loop of lines 159-165 over the indices still to try; [None] is
    the [None] a Python function returns when it falls off its end. *)
Fixpoint first_tier (indices : list nat) (data_size : Z) : option size_text :=
  match indices with
  | [] => None
  | i :: rest =>
      let data_size_value := nth i data_size_values 0 in
      if data_size >=? data_size_value
      then Some (Scaled data_size data_size_value (nth i data_size_names ""))
      else first_tier rest data_size
  end.

(** [format_data_size(data_size)], for an integer size. *)
Definition format_data_size (data_size : Z) : option size_text :=
  if data_size =? 0 then Some (Literal "0B")
  else first_tier (range_down (List.length data_size_values - 1) 0) data_size.

Module Logging.

(** The levels of Python's [logging] module. *)
Definition DEBUG : Z := 10.
Definition INFO : Z := 20.
Definition WARNING : Z := 30.
Definition ERROR : Z := 40.
Definition CRITICAL : Z := 50.

(** The dictionary [LOG_LEVELS] (lines 113-114). *)
Definition LOG_LEVELS : list (string * Z) :=
  [("DEBUG", DEBUG); ("INFO", INFO); ("WARNING", WARNING); ("ERROR", ERROR);
   ("CRITICAL", CRITICAL)].

(** [LOG_LEVELS[key]]: the value, or [None] for [KeyError]. *)
Fixpoint getitem (d : list (string * Z)) (key : string) : option Z :=
  match d with
  | [] => None
  | (k, v) :: rest => if String.eqb k key then Some v else getitem rest key
  end.

(** [str.upper] on ASCII text. *)
Definition upper_char (c : ascii) : ascii :=
  let n := nat_of_ascii c in
  if ((97 <=? n) && (n <=? 122))%bool%nat then ascii_of_nat (n - 32) else c.

Fixpoint upper (s : string) : string :=
  match s with
  | EmptyString => EmptyString
  | String c rest => String (upper_char c) (upper rest)
  end.

(** Text that [upper] treats as Python's [str.upper] does. *)
Definition is_ascii (s : string) : bool :=
  forallb (fun c => Nat.ltb (nat_of_ascii c) 128) (list_ascii_of_string s).

(** The level chosen at lines 589-593: the level named by
    [args.loglevel], or [LOG_LEVELS['INFO']] after the [KeyError]; [None]
    stands for a [KeyError] that nothing catches. *)
Definition log_level (loglevel : string) : option Z :=
  match getitem LOG_LEVELS (upper loglevel) with
  | Some level => Some level
  | None => getitem LOG_LEVELS "INFO"
  end.

End Logging.

(** [sim_text()] *)
Definition sim_text (args : Args) : string :=
  if simulate args then "<Simulate>: " else "".

(** [conflict_text(present_tense)] *)
Definition conflict_text (args : Args) (present_tense : bool) : string :=
  if conflictmode args =? 0 then
    if present_tense then "ignoring" else "ignored"
  else if conflictmode args =? 1 then
    if present_tense then "archiving" else "archived"
  else
    if present_tense then "deleting" else "deleted".

(* ===================================================================== *)
(** ** A file system to run the engine on                                 *)
(* ===================================================================== *)

(** A POSIX-like tree of directories and regular files with owner
    permission bits, one device, no links.  It instantiates [OS] so that
    the engine can be evaluated on explicit trees.  Path resolution splits
    at ["/"] and ignores empty and ["."] components, so that ["/d/x"],
    ["/d/x/"] and ["/d/./x"] name one entry. *)
Module TreeFS.

#[local] Set Warnings "-register-all".

Inductive node : Type :=
| File (st : stat_result) (content : string)
| Dir (st : stat_result) (entries : list (string * node)).

Record t : Type := mk { root : node; next_ino : Z }.

Definition node_stat (n : node) : stat_result :=
  match n with
  | File st _ => st
  | Dir st _ => st
  end.

Definition has_bit (st : stat_result) (bit : Z) : bool :=
  negb (Z.land (st_mode st) bit =? 0).

Definition with_mode (st : stat_result) (mode : Z) : stat_result :=
  mk_stat mode (st_ino st) (st_dev st) (st_size st)
          (st_mtime st) (st_atime st) (st_ctime st).

Definition with_ino (st : stat_result) (ino : Z) : stat_result :=
  mk_stat (st_mode st) ino (st_dev st) (st_size st)
          (st_mtime st) (st_atime st) (st_ctime st).

(** *** Paths *)

Fixpoint split (p : string) (current : string) : list string :=
  match p with
  | EmptyString => [current]
  | String c rest =>
      if Ascii.eqb c Path.sep then current :: split rest ""
      else split rest (current ++ String c "")
  end.

Definition components (p : string) : list string :=
  filter (fun c => negb (String.eqb c "" || String.eqb c "."))%bool
         (split p "").

Fixpoint is_prefix (a b : list string) : bool :=
  match a, b with
  | [], _ => true
  | x :: a', y :: b' => (String.eqb x y && is_prefix a' b')%bool
  | _ :: _, [] => false
  end.

Fixpoint same_path (a b : list string) : bool :=
  match a, b with
  | [], [] => true
  | x :: a', y :: b' => (String.eqb x y && same_path a' b')%bool
  | _, _ => false
  end.

Definition basename (cs : list string) : string := last cs "".

(** *** Directory entries *)

Fixpoint find_entry (name : string) (es : list (string * node)) : option node :=
  match es with
  | [] => None
  | (k, n) :: rest => if String.eqb k name then Some n else find_entry name rest
  end.

Fixpoint set_entry (name : string) (n : node) (es : list (string * node))
  : list (string * node) :=
  match es with
  | [] => [(name, n)]
  | (k, m) :: rest =>
      if String.eqb k name then (k, n) :: rest
      else (k, m) :: set_entry name n rest
  end.

Fixpoint del_entry (name : string) (es : list (string * node))
  : list (string * node) :=
  match es with
  | [] => []
  | (k, m) :: rest =>
      if String.eqb k name then rest else (k, m) :: del_entry name rest
  end.

(** *** Resolution *)

Definition not_a_directory {A : Type} : result A :=
  Raise (OSError "NotADirectoryError").

(** Walking down needs search permission on every directory crossed. *)
Fixpoint lookup (n : node) (cs : list string) : result node :=
  match cs with
  | [] => Ok n
  | c :: cs' =>
      match n with
      | File _ _ => not_a_directory
      | Dir st es =>
          if negb (has_bit st Stat.S_IEXEC) then Raise PermissionError
          else match find_entry c es with
               | Some child => lookup child cs'
               | None => Raise FileNotFoundError
               end
      end
  end.

(** Rewrite the entries of the directory that holds the last component. *)
Fixpoint at_parent (n : node) (cs : list string)
    (f : stat_result -> list (string * node) -> string ->
         result (list (string * node)))
  : result node :=
  match cs with
  | [] => Raise (OSError "the root has no parent")
  | c :: cs' =>
      match n with
      | File _ _ => not_a_directory
      | Dir st es =>
          if negb (has_bit st Stat.S_IEXEC) then Raise PermissionError
          else
            match cs' with
            | [] => rmap (Dir st) (f st es c)
            | _ :: _ =>
                match find_entry c es with
                | Some child =>
                    rmap (fun child' => Dir st (set_entry c child' es))
                         (at_parent child cs' f)
                | None => Raise FileNotFoundError
                end
            end
      end
  end.

Definition commit (d : t) (fresh : Z) (r : result node) : result unit * t :=
  match r with
  | Ok root' => (Ok tt, mk root' (next_ino d + fresh))
  | Raise e => (Raise e, d)
  end.

(** *** Reading *)

Definition stat (d : t) (p : string) : result stat_result :=
  rmap node_stat (lookup (root d) (components p)).

Definition exists_ (d : t) (p : string) : bool :=
  match stat d p with
  | Ok _ => true
  | Raise _ => false
  end.

Definition isdir (d : t) (p : string) : bool :=
  match lookup (root d) (components p) with
  | Ok (Dir _ _) => true
  | _ => false
  end.

Definition listdir (d : t) (p : string) : result (list string) :=
  match lookup (root d) (components p) with
  | Ok (Dir st es) =>
      if has_bit st Stat.S_IREAD then Ok (map fst es) else Raise PermissionError
  | Ok (File _ _) => not_a_directory
  | Raise e => Raise e
  end.

(** [normpath] of an absolute path (the working directory is ["/"]). *)
Definition abspath (p : string) : string :=
  match components p with
  | [] => "/"
  | cs => fold_left (fun acc c => acc ++ "/" ++ c)%string cs ""
  end.

(** *** Writing *)

Definition new_dir_stat (ino : Z) : stat_result :=
  mk_stat (Z.lor Stat.S_IFDIR 493) ino 1 0 0 0 0.       (* drwxr-xr-x *)

Definition mkdir_at (d : t) (cs : list string) : result unit * t :=
  commit d 1
    (at_parent (root d) cs (fun st es c =>
       match find_entry c es with
       | Some _ => Raise (OSError "FileExistsError")
       | None =>
           if has_bit st Stat.S_IWRITE
           then Ok (es ++ [(c, Dir (new_dir_stat (next_ino d)) [])])%list
           else Raise PermissionError
       end)).

Definition mkdir (d : t) (p : string) : result unit * t :=
  mkdir_at d (components p).

(** [os.makedirs]: the missing ancestors are created from the top, then
    the leaf, which must not exist. *)
Fixpoint makedirs_from (d : t) (done todo : list string) : result unit * t :=
  match todo with
  | [] => (Raise FileNotFoundError, d)
  | c :: rest =>
      let here := (done ++ [c])%list in
      match rest with
      | [] => mkdir_at d here
      | _ :: _ =>
          match lookup (root d) here with
          | Ok _ => makedirs_from d here rest
          | Raise _ =>
              match mkdir_at d here with
              | (Ok _, d') => makedirs_from d' here rest
              | failed => failed
              end
          end
      end
  end.

Definition makedirs (d : t) (p : string) : result unit * t :=
  makedirs_from d [] (components p).

Definition chmod_node (n : node) (mode : Z) : node :=
  let keep st := with_mode st (Z.lor (Z.land (st_mode st) Stat.S_IFMT)
                                     (Z.land mode 4095)) in
  match n with
  | File st c => File (keep st) c
  | Dir st es => Dir (keep st) es
  end.

Definition chmod (d : t) (p : string) (mode : Z) : result unit * t :=
  match components p with
  | [] => (Ok tt, mk (chmod_node (root d) mode) (next_ino d))
  | cs =>
      commit d 0
        (at_parent (root d) cs (fun _ es c =>
           match find_entry c es with
           | Some n => Ok (set_entry c (chmod_node n mode) es)
           | None => Raise FileNotFoundError
           end))
  end.

Definition remove (d : t) (p : string) : result unit * t :=
  commit d 0
    (at_parent (root d) (components p) (fun st es c =>
       match find_entry c es with
       | Some (File _ _) =>
           if has_bit st Stat.S_IWRITE then Ok (del_entry c es)
           else Raise PermissionError
       | Some (Dir _ _) => Raise (OSError "IsADirectoryError")
       | None => Raise FileNotFoundError
       end)).

(** [shutil.copy2]: content, mode bits and times of the source; a
    directory as destination receives the file under its own name. *)
Definition copy2 (d : t) (src dst : string) : result unit * t :=
  match lookup (root d) (components src) with
  | Raise e => (Raise e, d)
  | Ok (Dir _ _) => (Raise (OSError "IsADirectoryError"), d)
  | Ok (File sst content) =>
      if negb (has_bit sst Stat.S_IREAD) then (Raise PermissionError, d)
      else
        let target :=
          if isdir d dst
          then (components dst ++ [basename (components src)])%list
          else components dst in
        commit d 1
          (at_parent (root d) target (fun st es c =>
             match find_entry c es with
             | Some (File dst_st _) =>
                 if has_bit dst_st Stat.S_IWRITE
                 then Ok (set_entry c (File (with_ino sst (st_ino dst_st)) content) es)
                 else Raise PermissionError
             | Some (Dir _ _) => Raise (OSError "IsADirectoryError")
             | None =>
                 if has_bit st Stat.S_IWRITE
                 then Ok (es ++ [(c, File (with_ino sst (next_ino d)) content)])%list
                 else Raise PermissionError
             end))
  end.

Definition shutil_error {A : Type} (d : t) (msg : string) : result A * t :=
  (Raise (OSError msg), d).

(** [shutil.move]: into [dst] when it is a directory, onto [dst]
    otherwise; renaming an entry onto itself does nothing. *)
Definition move (d : t) (src dst : string) : result unit * t :=
  let sc := components src in
  let dc := components dst in
  if (isdir d dst && same_path sc dc)%bool then
    (if exists_ d src then (Ok tt, d) else (Raise FileNotFoundError, d))
  else
    let target := if isdir d dst then (dc ++ [basename sc])%list else dc in
    if (isdir d dst && match lookup (root d) target with Ok _ => true | _ => false end)%bool
    then shutil_error d "shutil.Error: destination path already exists"
    else
      match lookup (root d) sc with
      | Raise e => (Raise e, d)
      | Ok moved =>
          if is_prefix sc target
          then shutil_error d "shutil.Error: cannot move a directory into itself"
          else
            let taken :=
              at_parent (root d) sc (fun st es c =>
                if has_bit st Stat.S_IWRITE then Ok (del_entry c es)
                else Raise PermissionError) in
            match taken with
            | Raise e => (Raise e, d)
            | Ok without =>
                commit d 0
                  (at_parent without target (fun st es c =>
                     if has_bit st Stat.S_IWRITE then Ok (set_entry c moved es)
                     else Raise PermissionError))
            end
      end.

(** *** [shutil.rmtree]

    The removal of Python 3 on Linux ([_rmtree_safe_fd]): a directory is
    opened, its entries are removed one after the other, sub-directories
    first emptied in the same way, and the directory is removed last.
    Each step that fails calls the handler with the path of the entry and
    is not tried again.  An open directory is worked on through its
    descriptor: what the handler does to the modes on the way to it does
    not matter to the steps that follow. *)

(** The tree seen through open descriptors: no permission is asked. *)
Fixpoint find_node (n : node) (cs : list string) : option node :=
  match cs with
  | [] => Some n
  | c :: cs' =>
      match n with
      | File _ _ => None
      | Dir _ es =>
          match find_entry c es with
          | Some child => find_node child cs'
          | None => None
          end
      end
  end.

Fixpoint prune (n : node) (cs : list string) : node :=
  match cs, n with
  | c :: cs', Dir st es =>
      match cs' with
      | [] => Dir st (del_entry c es)
      | _ :: _ =>
          match find_entry c es with
          | Some child => Dir st (set_entry c (prune child cs') es)
          | None => n
          end
      end
  | _, _ => n
  end.

Definition drop (d : t) (p : string) : t :=
  mk (prune (root d) (components p)) (next_ino d).

Definition is_empty (d : t) (p : string) : bool :=
  match find_node (root d) (components p) with
  | Some (Dir _ []) => true
  | _ => false
  end.

(** [os.unlink] and [os.rmdir] of an entry need write and search
    permission on the directory that holds it. *)
Definition can_unlink (holder : stat_result) : bool :=
  (has_bit holder Stat.S_IWRITE && has_bit holder Stat.S_IEXEC)%bool.

(** The removal of the entry [n], named [fullname], of a directory with
    the metadata [holder]; [k] is what remains to be done after it. *)
Fixpoint discard (holder : stat_result) (fullname : string) (n : node)
    (k : t -> removal t) (d : t) : removal t :=
  match n with
  | File _ _ =>
      if can_unlink holder then k (drop d fullname)
      else OnError fullname d k                        (* os.unlink *)
  | Dir st es =>
      if negb (has_bit holder Stat.S_IEXEC && has_bit st Stat.S_IREAD)
      then OnError fullname d k                        (* os.open *)
      else
        (fix sweep (l : list (string * node)) (k' : t -> removal t) (d : t)
           : removal t :=
           match l with
           | [] => k' d
           | (name, child) :: rest =>
               discard st (Path.join fullname name) child (sweep rest k') d
           end) es
          (fun d1 =>
             if (can_unlink holder && is_empty d1 fullname)%bool
             then k (drop d1 fullname)
             else OnError fullname d1 k)               (* os.rmdir *)
          d
  end.

(** The metadata of the directory that holds the entry [cs]. *)
Definition holder_of (d : t) (cs : list string) : stat_result :=
  match lookup (root d) (removelast cs) with
  | Ok (Dir st _) => st
  | _ => mk_stat 0 0 0 0 0 0 0
  end.

(** [shutil.rmtree(p, onerror=...)] *)
Definition rmtree (d : t) (p : string) : removal t :=
  let finished := Finished (Ok tt) in
  let cs := components p in
  match lookup (root d) cs with
  | Raise _ => OnError p d finished                    (* os.lstat *)
  | Ok (File st _) =>
      if has_bit st Stat.S_IREAD
      then OnError p d (fun d1 => OnError p d1 finished)
                                                       (* os.scandir, os.rmdir *)
      else OnError p d finished                        (* os.open *)
  | Ok (Dir st es) =>
      match cs with
      | [] => OnError p d finished                     (* the root *)
      | _ :: _ => discard (holder_of d cs) p (Dir st es) finished d
      end
  end.

(** *** Identities

    The inode numbers of a tree.  In a tree without links an entry has an
    identity of its own when no number occurs twice. *)
Fixpoint inodes (n : node) : list Z :=
  match n with
  | File st _ => [st_ino st]
  | Dir st es =>
      st_ino st
      :: (fix below (l : list (string * node)) : list Z :=
            match l with
            | [] => []
            | (_, child) :: l' => (inodes child ++ below l')%list
            end) es
  end.

Definition entries_inodes (es : list (string * node)) : list Z :=
  flat_map (fun e => inodes (snd e)) es.

Fixpoint distinct (l : list Z) : bool :=
  match l with
  | [] => true
  | x :: l' => (negb (existsb (Z.eqb x) l') && distinct l')%bool
  end.

Definition distinct_inodes (d : t) : bool := distinct (inodes (root d)).

(** The components that [components] keeps. *)
Definition kept (c : string) : bool :=
  negb (String.eqb c "" || String.eqb c ".").

Definition os : OS :=
  mk_os t abspath stat exists_ isdir listdir
        mkdir makedirs chmod remove copy2 move rmtree.

(** *** Building trees *)

Definition file (name : string) (ino mode size mtime : Z) : string * node :=
  (name, File (mk_stat (Z.lor Stat.S_IFREG mode) ino 1 size mtime mtime mtime) "").

Definition dir (name : string) (ino mode : Z) (entries : list (string * node))
  : string * node :=
  (name, Dir (mk_stat (Z.lor Stat.S_IFDIR mode) ino 1 0 0 0 0) entries).

(** A file system whose root directory holds [entries]. *)
Definition make (entries : list (string * node)) (next : Z) : t :=
  mk (Dir (new_dir_stat 2) entries) next.

(** The state of a run that starts on [d]: counters at zero, no call yet. *)
Definition start (d : t) : world os := @mk_world os info_zero d [].

End TreeFS.

(** The same file system seen while another process removes directories:
    listing a path of [vanished] finds nothing there any more, although
    the existence test that came before succeeded.  This is the situation
    of the [except FileNotFoundError] at line 246. *)
Module RacyFS.

Definition listdir (vanished : list string) (d : TreeFS.t) (p : string)
  : result (list string) :=
  if existsb (String.eqb p) vanished then Raise FileNotFoundError
  else TreeFS.listdir d p.

Definition os (vanished : list string) : OS :=
  mk_os TreeFS.t TreeFS.abspath TreeFS.stat TreeFS.exists_ TreeFS.isdir
        (listdir vanished)
        TreeFS.mkdir TreeFS.makedirs TreeFS.chmod TreeFS.remove
        TreeFS.copy2 TreeFS.move TreeFS.rmtree.

Definition start (vanished : list string) (d : TreeFS.t) : world (os vanished) :=
  @mk_world (os vanished) info_zero d [].

End RacyFS.

(** The same file system with two things that a tree of owner bits does
    not show: names that [os.listdir] gives and [os.stat] does not find
    (links whose target is gone), and entries of another owner, whose
    mode [os.chmod] refuses to change. *)
Module ForeignFS.

Definition stat (dangling : list string) (d : TreeFS.t) (p : string)
  : result stat_result :=
  if existsb (String.eqb p) dangling then Raise FileNotFoundError
  else TreeFS.stat d p.

Definition exists_ (dangling : list string) (d : TreeFS.t) (p : string)
  : bool :=
  match stat dangling d p with
  | Ok _ => true
  | Raise _ => false
  end.

Definition chmod (foreign : list string) (d : TreeFS.t) (p : string)
    (mode : Z) : result unit * TreeFS.t :=
  if existsb (String.eqb p) foreign then (Raise PermissionError, d)
  else TreeFS.chmod d p mode.

Definition os (dangling foreign : list string) : OS :=
  mk_os TreeFS.t TreeFS.abspath (stat dangling) (exists_ dangling)
        TreeFS.isdir TreeFS.listdir
        TreeFS.mkdir TreeFS.makedirs (chmod foreign) TreeFS.remove
        TreeFS.copy2 TreeFS.move TreeFS.rmtree.

Definition start (dangling foreign : list string) (d : TreeFS.t)
  : world (os dangling foreign) :=
  @mk_world (os dangling foreign) info_zero d [].

End ForeignFS.

(* ===================================================================== *)
(** ** Specification-side definitions                                     *)
(* ===================================================================== *)

(** The copy decision in the words of the specification (section 4.2):
    destination missing, then mode [always], then the modification times
    under mode [by-mtime] or higher, then the sizes under mode
    [by-mtime-then-size] or higher; otherwise no copy. *)
Definition spec_should_copy (mode : Z) (src : stat_result)
    (dst : option stat_result) : bool :=
  match dst with
  | None => true
  | Some d =>
      if mode =? 0 then true
      else if ((1 <=? mode) && negb (st_mtime src =? st_mtime d))%bool then true
      else if ((2 <=? mode) && negb (st_size src =? st_size d))%bool then true
      else false
  end.

(** What [os.stat] answers for a destination with metadata [dst]. *)
Definition probe_of (dst : option stat_result) : result stat_result :=
  match dst with
  | Some d => Ok d
  | None => Raise FileNotFoundError
  end.

(** The [StatHelper] built from that answer. *)
Definition helper_of (p : string) (dst : option stat_result) : StatHelper :=
  match dst with
  | Some d => mk_helper p (Some d) (Some true) (Some true)
  | None => mk_helper p None (Some false) (Some true)
  end.

(** The [StatHelper] of an entry whose probe returned [s]. *)
Definition probed (p : string) (s : stat_result) : StatHelper :=
  mk_helper p (Some s) (Some true) (Some true).

(** A configuration that [sibackup()] rejects. *)
Definition invalid_configuration (args : Args) : bool :=
  (negative_depth args || negb (valid_copymode args)
   || negb (valid_conflictmode args))%bool.

(** The state after a reading call [c]. *)
Definition after_call {os : OS} (c : syscall) (w : world os) : world os :=
  mk_world (info w) (disk w) (c :: calls w).

(** The state with the counters rewritten by [f]. *)
Definition with_info {os : OS} (f : info_data -> info_data) (w : world os)
  : world os :=
  mk_world (f (info w)) (disk w) (calls w).

(** [w'] was reached from [w] by issuing calls. *)
Definition extends_calls {os : OS} (w w' : world os) : Prop :=
  exists issued, calls w' = (issued ++ calls w)%list.

(** A computation that only ever adds to the record of calls. *)
Definition logs_only {os : OS} {A : Type} (m : M os A) : Prop :=
  forall w, extends_calls w (snd (m w)).

(** [m'] does what [m] does whenever [m] does not run out of fuel. *)
Definition within_fuel {os : OS} {A : Type} (m m' : M os A) : Prop :=
  forall w r w', m w = (r, w') -> r <> NoFuel -> m' w = (r, w').

(** A computation whose calls all satisfy [P]; when none of them writes,
    it leaves the file system as it found it. *)
Definition issues {os : OS} {A : Type} (P : syscall -> Prop) (m : M os A)
  : Prop :=
  forall w, exists issued,
    calls (snd (m w)) = (issued ++ calls w)%list /\
    Forall P issued /\
    (Forall (fun c => is_mutation c = false) issued ->
     disk (snd (m w)) = disk w).

(** Calls that read, and calls that reset permission bits to [S_IWRITE]. *)
Definition reads_or_chmods (c : syscall) : Prop :=
  is_mutation c = false \/ exists p, c = CChmod p Stat.S_IWRITE.

(** Every value a computation returns satisfies [Q]. *)
Definition returns {os : OS} {A : Type} (Q : A -> Prop) (m : M os A) : Prop :=
  forall w a w', m w = (Done a, w') -> Q a.

(** The statuses of the program: 0 (success) and 1 (abort). *)
Definition is_status (status : Z) : Prop := status = 0 \/ status = 1.

(** The same for what a loop body hands back. *)
Definition is_status_or_none (r : option Z) : Prop :=
  match r with
  | Some status => is_status status
  | None => True
  end.

(** The processed files that are in none of the three counters of the
    summary (copied, skipped, not copied). *)
Definition unaccounted (i : info_data) : Z :=
  num_processed i - (num_copied i + num_skipped i + not_copied i).

(** A computation after which no processed file has left the counters;
    outside copy mode 3 none has been added to the unaccounted either. *)
Definition accounts {os : OS} {A : Type} (args : Args) (m : M os A) : Prop :=
  forall w a w', m w = (Done a, w') ->
    unaccounted (info w) <= unaccounted (info w') /\
    (copymode args <> 3 -> unaccounted (info w') = unaccounted (info w)).

(** The calls [resolve_conflict] may issue for the conflict [name] of the
    folder [cdp] under the configured mode: it probes; under a mode
    other than 0 it may reset the mode of the item; under mode 1 it may
    create the archive folder [cap] and move the item there; under any
    other mode it may delete the item, and [remove_read_only] may reset
    the mode of each path that [shutil.rmtree] hands to it. *)
Definition conflict_call (args : Args) (cdp cap name : string) (c : syscall)
  : Prop :=
  let item := Path.join cdp name in
  is_mutation c = false \/
  (conflictmode args <> 0 /\ c = CChmod item Stat.S_IWRITE) \/
  (conflictmode args = 1 /\ (c = CMakedirs cap \/ c = CMove item cap)) \/
  (conflictmode args <> 0 /\ conflictmode args <> 1 /\
   (c = CRmtree item \/ c = CRemove item \/
    exists failed, c = CChmod failed Stat.S_IWRITE)).

(** The part of [sibackup()] that comes before the traversal (lines
    398-445): [Some status] when it returns, [None] when it goes on. *)
Definition before_traversal {os : OS} (args : Args) : M os (option Z) :=
  (let source_path := os_path_abspath os (source args) in
   source_present <- path_exists source_path ;;
   if negb source_present then ret (Some 1)
   else
     let dest_path := os_path_abspath os (destination args) in
     dest_present <- path_exists dest_path ;;
     then_in_body
       (if negb dest_present then create_root args dest_path else ret None)
       (if negative_depth args then ret (Some 1)
        else if negb (valid_copymode args) then ret (Some 1)
        else if negb (valid_conflictmode args) then ret (Some 1)
        else if conflictmode args =? 1 then
          archive_present <-
            path_exists (Path.join dest_path (archivepath args)) ;;
          if negb archive_present
          then create_root args (Path.join dest_path (archivepath args))
          else ret None
        else ret None))%prog.

(** The counters with which the percentages of the summary (lines 472
    and 482) divide by zero: files counted, no byte among them. *)
Definition summary_divides_by_zero (i : info_data) : bool :=
  ((negb (num_copied i =? 0) || negb (num_skipped i =? 0))
   && (size_copied i + size_skipped i =? 0))%bool.

(** The call of [copy_folder] on the folder [cf], at depth [d] and from
    the world [w], comes to a destination folder that has just been
    ensured and whose listing finds no such folder; this happens in the
    call itself or in one of the calls nested in it, and [w'] is the world
    right after that listing. *)
Inductive destination_vanishes {os : OS} (args : Args) (sp dp ap : string)
  : nat -> string -> Z -> world os -> world os -> Prop :=
| vanishes_here fuel cf d w w1 source_list :
    too_deep args d = false ->
    ensure_dest_folder args (Path.join dp cf) w = (Done None, w1) ->
    os_listdir os (disk w1) (Path.join sp cf) = Ok source_list ->
    os_listdir os (disk w1) (Path.join dp cf) = Raise FileNotFoundError ->
    destination_vanishes args sp dp ap (S fuel) cf d w
      (after_call (CListdir (Path.join dp cf))
         (after_call (CListdir (Path.join sp cf)) w1))
| vanishes_below fuel cf d w w1 w2 w' pre item rest s :
    too_deep args d = false ->
    enter_folder args ap (Path.join sp cf) (Path.join dp cf) (Path.join ap cf) w
      = (Done (inl (pre ++ item :: rest)%list), w1) ->
    for_each pre
      (process_source_item args
         (fun sub => copy_folder args fuel sp dp ap sub (d + 1))
         (Path.join sp cf) (Path.join dp cf) cf) w1 = (Done None, w2) ->
    os_stat os (disk w2) (Path.join (Path.join sp cf) item) = Ok s ->
    Stat.S_ISDIR (st_mode s) = true ->
    destination_vanishes args sp dp ap fuel (Path.join cf item) (d + 1)
      (after_call (CStat (Path.join (Path.join sp cf) item)) w2) w' ->
    destination_vanishes args sp dp ap (S fuel) cf d w w'.

(** [check] holds of every number from 0 up to [below], excluded. *)
Definition fills_with_zero (below : nat) (check : Z -> bool) : bool :=
  forallb (fun k => check (Z.of_nat k)) (seq 0 below).

(** No file is counted as copied or skipped. *)
Definition no_file_counted (i : info_data) : Prop :=
  num_copied i = 0 /\ num_skipped i = 0.

(* ===================================================================== *)
(** ** Example runs: configurations and trees                             *)
(* ===================================================================== *)

Module Fixtures.

(** The defaults of the command line, on the roots ["/src"] and ["/dst"]:
    no depth limit, copy mode 2, conflict mode 2 (delete), archive folder
    ["!!archive"], no simulation. *)
Definition defaults : Args :=
  mk_args "/src" "/dst" None 2 2 "!!archive" false.

Definition with_simulate (a : Args) : Args :=
  mk_args (source a) (destination a) (depth a) (copymode a)
          (conflictmode a) (archivepath a) true.
Definition with_depth (limit : Z) (a : Args) : Args :=
  mk_args (source a) (destination a) (Some limit) (copymode a)
          (conflictmode a) (archivepath a) (simulate a).
Definition with_copymode (mode : Z) (a : Args) : Args :=
  mk_args (source a) (destination a) (depth a) mode
          (conflictmode a) (archivepath a) (simulate a).
Definition with_conflictmode (mode : Z) (a : Args) : Args :=
  mk_args (source a) (destination a) (depth a) (copymode a)
          mode (archivepath a) (simulate a).
Definition with_archivepath (p : string) (a : Args) : Args :=
  mk_args (source a) (destination a) (depth a) (copymode a)
          (conflictmode a) p (simulate a).

(** Permission bits. *)
Definition rwx_r_x_r_x : Z := 493.   (* 0o755 *)
Definition rw_r__r__   : Z := 420.   (* 0o644 *)
Definition r__r__r__   : Z := 292.   (* 0o444 *)
Definition rw_______   : Z := 384.   (* 0o600: a folder that can be listed
                                        but not searched *)

(** [/src/a] can be listed but its entries cannot be probed; [b.txt]
    comes after it in [/src]. *)
Definition tree_unreadable : TreeFS.t :=
  TreeFS.make
    [ TreeFS.dir "src" 10 rwx_r_x_r_x
        [ TreeFS.dir "a" 11 rw_______
            [ TreeFS.file "x" 12 rw_r__r__ 3 10;
              TreeFS.file "y" 13 rw_r__r__ 4 10 ];
          TreeFS.file "b.txt" 14 rw_r__r__ 5 10 ];
      TreeFS.dir "dst" 20 rwx_r_x_r_x [] ] 100.

(** A read-only file that exists in the destination only. *)
Definition tree_readonly_conflict : TreeFS.t :=
  TreeFS.make
    [ TreeFS.dir "src" 10 rwx_r_x_r_x [];
      TreeFS.dir "dst" 20 rwx_r_x_r_x
        [ TreeFS.file "b.txt" 21 r__r__r__ 1 1 ] ] 100.

(** A source sub-folder that the destination does not have yet. *)
Definition tree_new_subfolder : TreeFS.t :=
  TreeFS.make
    [ TreeFS.dir "src" 10 rwx_r_x_r_x [ TreeFS.dir "d" 11 rwx_r_x_r_x [] ];
      TreeFS.dir "dst" 20 rwx_r_x_r_x [] ] 100.

(** The archive folder is already in the destination. *)
Definition tree_archive : TreeFS.t :=
  TreeFS.make
    [ TreeFS.dir "src" 10 rwx_r_x_r_x [];
      TreeFS.dir "dst" 20 rwx_r_x_r_x
        [ TreeFS.dir "!!archive" 21 rwx_r_x_r_x [] ] ] 100.

(** The archive folder is [sub/arch] under the destination. *)
Definition tree_archive_nested : TreeFS.t :=
  TreeFS.make
    [ TreeFS.dir "src" 10 rwx_r_x_r_x [ TreeFS.dir "sub" 11 rwx_r_x_r_x [] ];
      TreeFS.dir "dst" 20 rwx_r_x_r_x
        [ TreeFS.dir "sub" 21 rwx_r_x_r_x
            [ TreeFS.dir "arch" 22 rwx_r_x_r_x [] ] ] ] 100.

(** [a.txt] on both sides with the same size and modification time. *)
Definition tree_same : TreeFS.t :=
  TreeFS.make
    [ TreeFS.dir "src" 10 rwx_r_x_r_x [ TreeFS.file "a.txt" 11 rw_r__r__ 5 100 ];
      TreeFS.dir "dst" 20 rwx_r_x_r_x [ TreeFS.file "a.txt" 21 rw_r__r__ 5 100 ] ]
    100.

(** [a.txt] on both sides, the destination modified later. *)
Definition tree_newer_dest : TreeFS.t :=
  TreeFS.make
    [ TreeFS.dir "src" 10 rwx_r_x_r_x [ TreeFS.file "a.txt" 11 rw_r__r__ 5 100 ];
      TreeFS.dir "dst" 20 rwx_r_x_r_x [ TreeFS.file "a.txt" 21 rw_r__r__ 5 200 ] ]
    100.

(** No destination root yet. *)
Definition tree_no_dest : TreeFS.t :=
  TreeFS.make [ TreeFS.dir "src" 10 rwx_r_x_r_x [] ] 100.

(** A file at depth 0 and one at depth 1. *)
Definition tree_depth : TreeFS.t :=
  TreeFS.make
    [ TreeFS.dir "src" 10 rwx_r_x_r_x
        [ TreeFS.file "f.txt" 11 rw_r__r__ 5 100;
          TreeFS.dir "d" 12 rwx_r_x_r_x
            [ TreeFS.file "g.txt" 13 rw_r__r__ 6 100 ] ];
      TreeFS.dir "dst" 20 rwx_r_x_r_x [] ] 100.

(** The destination root can be listed but not searched, so that its
    entry [f] cannot be probed. *)
Definition tree_denied_dest : TreeFS.t :=
  TreeFS.make
    [ TreeFS.dir "src" 10 rwx_r_x_r_x [ TreeFS.file "f" 11 rw_r__r__ 5 100 ];
      TreeFS.dir "dst" 20 rw_______ [ TreeFS.file "f" 21 rw_r__r__ 5 100 ] ]
    100.

(** The destination root cannot be written to; the source has a
    sub-folder [d] and, after it, a file [f.txt]. *)
Definition r_x______ : Z := 320.     (* 0o500 *)
Definition tree_locked_dest : TreeFS.t :=
  TreeFS.make
    [ TreeFS.dir "src" 10 rwx_r_x_r_x
        [ TreeFS.dir "d" 11 rwx_r_x_r_x [];
          TreeFS.file "f.txt" 12 rw_r__r__ 5 100 ];
      TreeFS.dir "dst" 20 r_x______ [] ] 100.

(** A file of the destination only. *)
Definition tree_conflict : TreeFS.t :=
  TreeFS.make
    [ TreeFS.dir "src" 10 rwx_r_x_r_x [];
      TreeFS.dir "dst" 20 rwx_r_x_r_x
        [ TreeFS.file "b.txt" 21 rw_r__r__ 1 1 ] ] 100.
Definition b_txt : stat_result :=
  mk_stat (Z.lor Stat.S_IFREG rw_r__r__) 21 1 1 1 1 1.
Definition archive_dir : stat_result :=
  mk_stat (Z.lor Stat.S_IFDIR rwx_r_x_r_x) 21 1 0 0 0 0.

(** The metadata of the two [a.txt]. *)
Definition a_txt_source : stat_result :=
  mk_stat (Z.lor Stat.S_IFREG rw_r__r__) 11 1 5 100 100 100.
Definition a_txt_same : stat_result :=
  mk_stat (Z.lor Stat.S_IFREG rw_r__r__) 21 1 5 100 100 100.
Definition a_txt_newer : stat_result :=
  mk_stat (Z.lor Stat.S_IFREG rw_r__r__) 21 1 5 200 200 200.

(** The world in which the loop over the entries of the source root
    starts, for a run of [copy_folder] on [d]. *)
Definition at_root_loop {os : OS} (a : Args) (w : world os) : world os :=
  snd (enter_folder a "/dst/!!archive" "/src/" "/dst/" "/dst/!!archive/" w).

(** The calls of a run that write, oldest last. *)
Definition mutations {os : OS} (r : outcome Z * world os) : list syscall :=
  filter is_mutation (calls (snd r)).

(** The probe of [p] on [d], as a [StatHelper]. *)
Definition helper_on (d : TreeFS.t) (p : string) : result StatHelper :=
  SH.init p (TreeFS.stat d p).

(** A source folder with a sub-folder and a file after it. *)
Definition tree_abort : TreeFS.t :=
  TreeFS.make
    [ TreeFS.dir "src" 10 rwx_r_x_r_x
        [ TreeFS.dir "d" 11 rwx_r_x_r_x [];
          TreeFS.file "z" 12 rw_r__r__ 5 100 ];
      TreeFS.dir "dst" 20 rwx_r_x_r_x [] ] 100.

Definition d_dir : stat_result :=
  mk_stat (Z.lor Stat.S_IFDIR rwx_r_x_r_x) 11 1 0 0 0 0.

(** No source folder. *)
Definition tree_no_source : TreeFS.t :=
  TreeFS.make [ TreeFS.dir "dst" 20 rwx_r_x_r_x [] ] 100.

(** Folders that can be searched and written to, but not listed. *)
Definition wx_only : Z := 192.       (* 0o300 *)
Definition tree_unlistable_source : TreeFS.t :=
  TreeFS.make
    [ TreeFS.dir "src" 10 wx_only [ TreeFS.file "a.txt" 11 rw_r__r__ 5 100 ];
      TreeFS.dir "dst" 20 rwx_r_x_r_x
        [ TreeFS.file "b.txt" 21 rw_r__r__ 1 1 ] ] 100.
Definition tree_unlistable_dest : TreeFS.t :=
  TreeFS.make
    [ TreeFS.dir "src" 10 rwx_r_x_r_x [ TreeFS.file "a.txt" 11 rw_r__r__ 5 100 ];
      TreeFS.dir "dst" 20 wx_only [] ] 100.

(** [link] is listed in the source; the runs on this tree take it for a
    link to nowhere. *)
Definition tree_link : TreeFS.t :=
  TreeFS.make
    [ TreeFS.dir "src" 10 rwx_r_x_r_x
        [ TreeFS.file "link" 11 rw_r__r__ 0 100;
          TreeFS.file "z" 12 rw_r__r__ 5 100 ];
      TreeFS.dir "dst" 20 rwx_r_x_r_x [] ] 100.

(** A source file that its owner may not read. *)
Definition write_only : Z := 128.    (* 0o200 *)
Definition tree_secret : TreeFS.t :=
  TreeFS.make
    [ TreeFS.dir "src" 10 rwx_r_x_r_x
        [ TreeFS.file "secret" 11 write_only 5 100;
          TreeFS.file "z" 12 rw_r__r__ 5 100 ];
      TreeFS.dir "dst" 20 rwx_r_x_r_x [] ] 100.
Definition secret : stat_result :=
  mk_stat (Z.lor Stat.S_IFREG write_only) 11 1 5 100 100 100.

(** The file [a] of the source meets a folder [a] in the destination
    that holds a folder [a] itself. *)
Definition tree_folder_in_the_way : TreeFS.t :=
  TreeFS.make
    [ TreeFS.dir "src" 10 rwx_r_x_r_x [ TreeFS.file "a" 11 rw_r__r__ 5 100 ];
      TreeFS.dir "dst" 20 rwx_r_x_r_x
        [ TreeFS.dir "a" 21 rwx_r_x_r_x
            [ TreeFS.dir "a" 22 rwx_r_x_r_x [] ] ] ] 100.
Definition a_file : stat_result :=
  mk_stat (Z.lor Stat.S_IFREG rw_r__r__) 11 1 5 100 100 100.
Definition a_folder : stat_result :=
  mk_stat (Z.lor Stat.S_IFDIR rwx_r_x_r_x) 21 1 0 0 0 0.

(** A destination that cannot be written to, with two files that the
    source does not have; the source has a file of its own. *)
Definition tree_locked_conflicts : TreeFS.t :=
  TreeFS.make
    [ TreeFS.dir "src" 10 rwx_r_x_r_x [ TreeFS.file "a.txt" 11 rw_r__r__ 5 100 ];
      TreeFS.dir "dst" 20 r_x______
        [ TreeFS.file "b.txt" 21 rw_r__r__ 1 1;
          TreeFS.file "c.txt" 22 rw_r__r__ 1 1 ] ] 100.

(** The archive folder is in the destination, without the write bit. *)
Definition tree_archive_read_only : TreeFS.t :=
  TreeFS.make
    [ TreeFS.dir "src" 10 rwx_r_x_r_x [];
      TreeFS.dir "dst" 20 rwx_r_x_r_x
        [ TreeFS.dir "!!archive" 21 r_x______ [] ] ] 100.
Definition archive_dir_read_only : stat_result :=
  mk_stat (Z.lor Stat.S_IFDIR r_x______) 21 1 0 0 0 0.

(** The metadata of [f.txt] in [tree_depth]. *)
Definition f_txt : stat_result :=
  mk_stat (Z.lor Stat.S_IFREG rw_r__r__) 11 1 5 100 100 100.

(** As [tree_abort], with an empty file before the sub-folder. *)
Definition tree_abort_empty : TreeFS.t :=
  TreeFS.make
    [ TreeFS.dir "src" 10 rwx_r_x_r_x
        [ TreeFS.file "e" 11 rw_r__r__ 0 100;
          TreeFS.dir "d" 12 rwx_r_x_r_x [] ];
      TreeFS.dir "dst" 20 rwx_r_x_r_x [] ] 100.

(** The metadata of [arch] in [tree_archive_nested]. *)
Definition arch_dir : stat_result :=
  mk_stat (Z.lor Stat.S_IFDIR rwx_r_x_r_x) 22 1 0 0 0 0.

(** The folder [old] of the destination only; its sub-folder [sub] cannot
    be written to. *)
Definition r_xr_xr_x : Z := 365.     (* 0o555 *)
Definition tree_read_only_subfolder : TreeFS.t :=
  TreeFS.make
    [ TreeFS.dir "src" 10 rwx_r_x_r_x [];
      TreeFS.dir "dst" 20 rwx_r_x_r_x
        [ TreeFS.dir "old" 21 rwx_r_x_r_x
            [ TreeFS.file "a" 22 rw_r__r__ 1 1;
              TreeFS.dir "sub" 23 r_xr_xr_x
                [ TreeFS.file "b" 24 rw_r__r__ 1 1 ] ] ] ] 100.

Definition b_txt_read_only : stat_result :=
  mk_stat (Z.lor Stat.S_IFREG r__r__r__) 21 1 1 1 1 1.

End Fixtures.

(* ===================================================================== *)
(** ** Properties of the engine                                           *)
(* ===================================================================== *)

Section Properties.
Context {os : OS}.
Variable args : Args.

(** A run is known by its outcome and its final world. *)
Lemma run_eq {A : Type} (r : outcome A * world os) a w :
  fst r = a -> snd r = w -> r = (a, w).
Proof. destruct r. cbn. now intros -> ->. Qed.

Lemma bind_done {A B : Type} (m : M os A) (k : A -> M os B) w a w' :
  m w = (Done a, w') -> bind m k w = k a w'.
Proof. intros H. unfold bind. now rewrite H. Qed.

Lemma bind_uncaught {A B : Type} (m : M os A) (k : A -> M os B) w e w' :
  m w = (Uncaught e, w') -> bind m k w = (Uncaught e, w').
Proof. intros H. unfold bind. now rewrite H. Qed.

Lemma new_StatHelper_run (p : string) (w : world os) :
  new_StatHelper p w =
  lift (SH.init p (os_stat os (disk w) p)) (after_call (CStat p) w).
Proof. reflexivity. Qed.

Lemma for_each_cons {A : Type} (x : A) rest (body : A -> M os (option Z)) w :
  for_each (x :: rest) body w =
  match body x w with
  | (Done (Some status), w') => (Done (Some status), w')
  | (Done None, w') => for_each rest body w'
  | (Uncaught e, w') => (Uncaught e, w')
  | (NoFuel, w') => (NoFuel, w')
  end.
Proof.
  cbn [for_each]. unfold bind.
  destruct (body x w) as [[[status|]| |] w']; reflexivity.
Qed.

(** The entries before one that the loop reaches have all fallen through. *)
Lemma for_each_app {A : Type} (pre post : list A)
    (body : A -> M os (option Z)) w w' :
  for_each pre body w = (Done None, w') ->
  for_each (pre ++ post) body w = for_each post body w'.
Proof.
  revert w. induction pre as [|x pre IH]; intros w H.
  - cbn in H. unfold ret in H. now inversion H.
  - rewrite <- app_comm_cons. rewrite for_each_cons in *.
    destruct (body x w) as [[[status|]| |] w1]; try discriminate.
    now apply IH.
Qed.

Lemma copy_folder_S fuel sp dp ap cf d :
  copy_folder args (S fuel) sp dp ap cf d =
  if too_deep args d then ret 0
  else
    (entered <- enter_folder args ap (Path.join sp cf) (Path.join dp cf)
                  (Path.join ap cf) ;;
     match entered with
     | inr status => ret status
     | inl source_list =>
         returning
           for_each source_list
             (process_source_item args
                (fun sub => copy_folder args fuel sp dp ap sub (d + 1))
                (Path.join sp cf) (Path.join dp cf) cf) ;;
         ret 0
     end)%prog.
Proof. reflexivity. Qed.

(** A call of [copy_folder] that has entered its folder and worked through
    the entries [pre] continues with the loop body on the next entry. *)
Lemma copy_folder_at_entry fuel sp dp ap cf d w w1 w2 pre item rest :
  too_deep args d = false ->
  enter_folder args ap (Path.join sp cf) (Path.join dp cf) (Path.join ap cf) w
    = (Done (inl (pre ++ item :: rest)%list), w1) ->
  for_each pre
    (process_source_item args
       (fun sub => copy_folder args fuel sp dp ap sub (d + 1))
       (Path.join sp cf) (Path.join dp cf) cf) w1 = (Done None, w2) ->
  copy_folder args (S fuel) sp dp ap cf d w =
  (returning
     for_each (item :: rest)
       (process_source_item args
          (fun sub => copy_folder args fuel sp dp ap sub (d + 1))
          (Path.join sp cf) (Path.join dp cf) cf) ;;
   ret 0)%prog w2.
Proof.
  intros Hdeep Henter Hpre.
  rewrite copy_folder_S, Hdeep.
  rewrite (bind_done _ _ _ _ _ Henter).
  unfold unless_returned, bind at 1.
  rewrite (for_each_app _ _ _ _ _ Hpre).
  reflexivity.
Qed.

(** *** The loop over the source entries *)

Lemma unreadable_item_returns fuel sp dp ap cf d item w :
  os_stat os (disk w) (Path.join (Path.join sp cf) item) = Raise PermissionError ->
  process_source_item args
    (fun sub => copy_folder args fuel sp dp ap sub (d + 1))
    (Path.join sp cf) (Path.join dp cf) cf item w
  = (Done (Some 0), after_call (CStat (Path.join (Path.join sp cf) item)) w).
Proof.
  intros Hstat. unfold process_source_item.
  unfold bind at 1. rewrite new_StatHelper_run, Hstat. reflexivity.
Qed.

Lemma directory_item_recurses recurse csp cdp cf item s w :
  os_stat os (disk w) (Path.join csp item) = Ok s ->
  Stat.S_ISDIR (st_mode s) = true ->
  process_source_item args recurse csp cdp cf item w =
  (res <- recurse (Path.join cf item) ;;
   if negb (res =? 0) then ret (Some res) else ret None)%prog
    (after_call (CStat (Path.join csp item)) w).
Proof.
  intros Hstat Hdir. unfold process_source_item.
  unfold bind at 1. rewrite new_StatHelper_run, Hstat. cbn.
  unfold SH.isdir. cbn. now rewrite Hdir.
Qed.

Lemma file_item_is_processed recurse csp cdp cf item s w :
  os_stat os (disk w) (Path.join csp item) = Ok s ->
  Stat.S_ISDIR (st_mode s) = false ->
  process_source_item args recurse csp cdp cf item w =
  (process_file args cdp item
     (mk_helper (Path.join csp item) (Some s) (Some true) (Some true)) ;;
   ret None)%prog
    (after_call (CStat (Path.join csp item)) w).
Proof.
  intros Hstat Hdir. unfold process_source_item.
  unfold bind at 1. rewrite new_StatHelper_run, Hstat. cbn.
  unfold SH.isdir. cbn. now rewrite Hdir.
Qed.

(** C1, as the code has it.  When the metadata probe of a source entry
    reports no read permission, the call of [copy_folder] working on the
    folder of that entry returns status 0 at once: the entries after it in
    that folder are not processed, and the world is the one left by the
    entries before it plus the probe.  The status is not the fatal 1, so
    nothing propagates upward: a parent loop that made this call for its
    entry [name] goes on with its remaining entries [siblings]. *)
Theorem unreadable_source_entry_returns_zero
    fuel sp dp ap cf d w w1 w2 pre item rest :
  too_deep args d = false ->
  enter_folder args ap (Path.join sp cf) (Path.join dp cf) (Path.join ap cf) w
    = (Done (inl (pre ++ item :: rest)%list), w1) ->
  for_each pre
    (process_source_item args
       (fun sub => copy_folder args fuel sp dp ap sub (d + 1))
       (Path.join sp cf) (Path.join dp cf) cf) w1 = (Done None, w2) ->
  os_stat os (disk w2) (Path.join (Path.join sp cf) item) = Raise PermissionError ->
  let w3 := after_call (CStat (Path.join (Path.join sp cf) item)) w2 in
  copy_folder args (S fuel) sp dp ap cf d w = (Done 0, w3)
  /\
  forall parent name siblings s wp,
    cf = Path.join parent name ->
    os_stat os (disk wp) (Path.join (Path.join sp parent) name) = Ok s ->
    Stat.S_ISDIR (st_mode s) = true ->
    w = after_call (CStat (Path.join (Path.join sp parent) name)) wp ->
    for_each (name :: siblings)
      (process_source_item args
         (fun sub => copy_folder args (S fuel) sp dp ap sub (d - 1 + 1))
         (Path.join sp parent) (Path.join dp parent) parent) wp
    = for_each siblings
        (process_source_item args
           (fun sub => copy_folder args (S fuel) sp dp ap sub (d - 1 + 1))
           (Path.join sp parent) (Path.join dp parent) parent) w3.
Proof.
  intros Hdeep Henter Hpre Hstat w3.
  assert (Hrun : copy_folder args (S fuel) sp dp ap cf d w = (Done 0, w3)).
  { rewrite (copy_folder_at_entry _ _ _ _ _ _ _ _ _ _ _ _ Hdeep Henter Hpre).
    unfold unless_returned, bind. rewrite for_each_cons.
    now rewrite (unreadable_item_returns _ _ _ _ _ _ _ _ Hstat). }
  split; [exact Hrun|].
  intros parent name siblings s wp Hcf Hs Hdir Hw.
  rewrite for_each_cons.
  rewrite (directory_item_recurses _ _ _ _ _ _ _ Hs Hdir).
  rewrite <- Hw, <- Hcf. replace (d - 1 + 1) with d by lia.
  unfold bind. now rewrite Hrun.
Qed.

(** *** The two listings *)

(** When listing the destination folder raises [FileNotFoundError] (the
    folder is ensured, the source is listed): in simulate mode the
    destination list is taken as empty and the call goes on with the
    source entries; otherwise the call returns status 1. *)
Lemma missing_destination_listing fuel sp dp ap cf d w w1 source_list :
  too_deep args d = false ->
  ensure_dest_folder args (Path.join dp cf) w = (Done None, w1) ->
  os_listdir os (disk w1) (Path.join sp cf) = Ok source_list ->
  os_listdir os (disk w1) (Path.join dp cf) = Raise FileNotFoundError ->
  let w2 := after_call (CListdir (Path.join dp cf))
              (after_call (CListdir (Path.join sp cf)) w1) in
  list_children args (Path.join sp cf) (Path.join dp cf) w1
    = (Done (if simulate args then inl (source_list, []) else inr 1), w2)
  /\
  copy_folder args (S fuel) sp dp ap cf d w =
    if simulate args then
      (returning
         for_each source_list
           (process_source_item args
              (fun sub => copy_folder args fuel sp dp ap sub (d + 1))
              (Path.join sp cf) (Path.join dp cf) cf) ;;
       ret 0)%prog w2
    else (Done 1, w2).
Proof.
  intros Hdeep Hensure Hsrc Hdst w2.
  assert (Hlist : list_children args (Path.join sp cf) (Path.join dp cf) w1
            = (Done (if simulate args then inl (source_list, []) else inr 1), w2)).
  { unfold list_children, listdir, reading, bind. cbn.
    rewrite Hsrc. cbn. rewrite Hdst.
    destruct (simulate args); reflexivity. }
  split; [exact Hlist|].
  rewrite copy_folder_S, Hdeep.
  unfold enter_folder.
  unfold bind at 1. unfold bind at 1. rewrite Hensure.
  unfold bind at 1. rewrite Hlist.
  destruct (simulate args); reflexivity.
Qed.

(** *** The probe of the destination file *)

(** C10.  A source entry that is a readable non-directory whose
    destination path cannot be probed ([os.stat] raises
    [PermissionError]): [StatHelper.__init__] leaves [_exists] unassigned,
    the [exists()] query of line 361 raises [AttributeError], and the
    exception leaves [copy_folder] uncaught. *)
Theorem denied_destination_probe_is_uncaught
    fuel sp dp ap cf d w w1 w2 pre item rest s :
  too_deep args d = false ->
  enter_folder args ap (Path.join sp cf) (Path.join dp cf) (Path.join ap cf) w
    = (Done (inl (pre ++ item :: rest)%list), w1) ->
  for_each pre
    (process_source_item args
       (fun sub => copy_folder args fuel sp dp ap sub (d + 1))
       (Path.join sp cf) (Path.join dp cf) cf) w1 = (Done None, w2) ->
  os_stat os (disk w2) (Path.join (Path.join sp cf) item) = Ok s ->
  Stat.S_ISDIR (st_mode s) = false ->
  os_stat os (disk w2) (Path.join (Path.join dp cf) item) = Raise PermissionError ->
  (exists dest_item_stats,
     SH.init (Path.join (Path.join dp cf) item) (Raise PermissionError)
       = Ok dest_item_stats /\
     _exists dest_item_stats = None /\
     SH.exists_ dest_item_stats = Raise AttributeError)
  /\
  copy_folder args (S fuel) sp dp ap cf d w =
    (Uncaught AttributeError,
     after_call (CStat (Path.join (Path.join dp cf) item))
       (after_call (CStat (Path.join (Path.join sp cf) item)) w2)).
Proof.
  intros Hdeep Henter Hpre Hsrc Hfile Hdst.
  split; [eexists; repeat split|].
  rewrite (copy_folder_at_entry _ _ _ _ _ _ _ _ _ _ _ _ Hdeep Henter Hpre).
  unfold unless_returned, bind at 1. rewrite for_each_cons.
  rewrite (file_item_is_processed _ _ _ _ _ _ _ Hsrc Hfile).
  unfold bind at 1. unfold process_file.
  unfold bind at 1. rewrite new_StatHelper_run. cbn [disk after_call].
  rewrite Hdst. reflexivity.
Qed.

(** *** The record of calls only grows *)

Lemma extends_calls_refl (w : world os) : extends_calls w w.
Proof. now exists []. Qed.

Lemma extends_calls_trans (w1 w2 w3 : world os) :
  extends_calls w1 w2 -> extends_calls w2 w3 -> extends_calls w1 w3.
Proof.
  intros [l1 H1] [l2 H2]. exists (l2 ++ l1)%list.
  now rewrite H2, H1, app_assoc.
Qed.

Lemma extends_calls_in (w w' : world os) c :
  extends_calls w w' -> In c (calls w) -> In c (calls w').
Proof. intros [l H] Hin. rewrite H. apply in_or_app. now right. Qed.

Lemma logs_ret {A : Type} (a : A) : logs_only (os := os) (ret a).
Proof. intros w. apply extends_calls_refl. Qed.

Lemma logs_raise {A : Type} e : logs_only (os := os) (A := A) (raise e).
Proof. intros w. apply extends_calls_refl. Qed.

Lemma logs_out_of_fuel {A : Type} : logs_only (os := os) (A := A) out_of_fuel.
Proof. intros w. apply extends_calls_refl. Qed.

Lemma logs_lift {A : Type} (r : result A) : logs_only (os := os) (lift r).
Proof. destruct r; [apply logs_ret | apply logs_raise]. Qed.

Lemma logs_bump f : logs_only (os := os) (bump f).
Proof. intros w. now exists []. Qed.

Lemma logs_reading {A : Type} c (f : fs os -> A) : logs_only (reading c f).
Proof. intros w. now exists [c]. Qed.

Lemma logs_writing {A : Type} c (f : fs os -> A * fs os) : logs_only (writing c f).
Proof.
  intros w. unfold writing. destruct (f (disk w)). now exists [c].
Qed.

Lemma logs_bind {A B : Type} (m : M os A) (k : A -> M os B) :
  logs_only m -> (forall a, logs_only (k a)) -> logs_only (bind m k).
Proof.
  intros Hm Hk w. unfold bind.
  specialize (Hm w). destruct (m w) as [[a| |] w']; cbn in *; auto.
  eapply extends_calls_trans; [exact Hm | apply Hk].
Qed.

Lemma logs_handling onerror (k : removal (fs os)) :
  (forall name, logs_only (onerror name)) -> logs_only (handling onerror k).
Proof.
  intros Hhandler. induction k as [r d|name d resume IH]; intros w.
  - now exists [].
  - cbn [handling]. unfold bind.
    specialize (Hhandler name (mk_world (info w) d (calls w))).
    destruct (onerror name (mk_world (info w) d (calls w)))
      as [[[u|e]| |] w1]; cbn in *; try exact Hhandler.
    eapply extends_calls_trans; [exact Hhandler | apply IH].
Qed.

Lemma logs_rmtree p : logs_only (os := os) (rmtree remove_read_only p).
Proof.
  intros w. unfold rmtree.
  eapply extends_calls_trans; [|apply logs_handling].
  - now exists [CRmtree p].
  - intros name. apply logs_writing.
Qed.

Lemma logs_report : logs_only (os := os) report.
Proof.
  intros w. unfold report.
  repeat match goal with |- context [if ?b then _ else _] => destruct b end;
    apply extends_calls_refl.
Qed.

Create HintDb logs_db discriminated.
#[local] Hint Resolve logs_ret logs_raise logs_out_of_fuel logs_lift logs_bump
  logs_reading logs_writing logs_rmtree logs_report : logs_db.

(** Breaks a program down to the calls and sub-programs already known to
    keep the record. *)
Ltac logs :=
  repeat first
    [ solve [auto 5 with logs_db nocore]
    | apply logs_bind; [ | intros ? ]
    | match goal with
      | |- logs_only (if ?b then _ else _) => destruct b
      | |- logs_only (match ?x with _ => _ end) => destruct x
      end ].

Lemma logs_for_each {A : Type} (xs : list A) (body : A -> M os (option Z)) :
  (forall x, logs_only (body x)) -> logs_only (for_each xs body).
Proof.
  intros Hbody. induction xs as [|x xs IH]; cbn [for_each]; logs.
Qed.
#[local] Hint Resolve logs_for_each : logs_db.

Lemma logs_copy_file src dst : logs_only (copy_file args src dst).
Proof. unfold copy_file, copy2. logs. Qed.

Lemma logs_new_StatHelper p : logs_only (os := os) (new_StatHelper p).
Proof. unfold new_StatHelper, stat. logs. Qed.
#[local] Hint Resolve logs_copy_file logs_new_StatHelper : logs_db.

Lemma logs_resolve_conflict ap cdp cap item :
  logs_only (resolve_conflict args ap cdp cap item).
Proof.
  unfold resolve_conflict, then_in_body, path_exists, path_isdir,
    chmod, makedirs, move, remove.
  logs.
Qed.
#[local] Hint Resolve logs_resolve_conflict : logs_db.

Lemma logs_process_file cdp item src : logs_only (process_file args cdp item src).
Proof. unfold process_file. logs. Qed.
#[local] Hint Resolve logs_process_file : logs_db.

Lemma logs_process_source_item recurse csp cdp cf item :
  (forall sub, logs_only (recurse sub)) ->
  logs_only (process_source_item args recurse csp cdp cf item).
Proof. intros Hrec. unfold process_source_item. logs. Qed.
#[local] Hint Resolve logs_process_source_item : logs_db.

Lemma logs_enter_folder ap csp cdp cap :
  logs_only (enter_folder args ap csp cdp cap).
Proof.
  unfold enter_folder, ensure_dest_folder, list_children,
    path_exists, mkdir, listdir.
  logs.
Qed.
#[local] Hint Resolve logs_enter_folder : logs_db.

Lemma logs_copy_folder fuel : forall sp dp ap cf d,
  logs_only (copy_folder args fuel sp dp ap cf d).
Proof.
  induction fuel as [|fuel IH]; intros sp dp ap cf d.
  - apply logs_out_of_fuel.
  - rewrite copy_folder_S. unfold unless_returned. logs.
Qed.
#[local] Hint Resolve logs_copy_folder : logs_db.

Lemma in_calls_bind {A B : Type} (m : M os A) (k : A -> M os B) c w :
  In c (calls (snd (m w))) ->
  (forall a, logs_only (k a)) ->
  In c (calls (snd (bind m k w))).
Proof.
  intros Hin Hk. unfold bind.
  destruct (m w) as [[a| |] w']; cbn in *; auto.
  eapply extends_calls_in; [apply Hk | exact Hin].
Qed.

(** Whatever happens to an entry the loop reaches, it has been probed. *)
Lemma reached_item_is_probed recurse csp cdp cf item w :
  (forall sub, logs_only (recurse sub)) ->
  In (CStat (Path.join csp item))
     (calls (snd (process_source_item args recurse csp cdp cf item w))).
Proof.
  intros Hrec. unfold process_source_item.
  apply in_calls_bind.
  - rewrite new_StatHelper_run.
    eapply extends_calls_in; [apply logs_lift | now left].
  - intros h. logs.
Qed.

(** *** The depth limit *)

(** C9.  With a depth limit [limit]: a call at a depth above the limit
    returns status 0 with the world untouched, so no folder is created,
    nothing is listed, resolved or copied (not even a call is issued); a
    call at a depth up to the limit is not cut short, and every entry its
    loop reaches is visited in full: a file goes through [process_file]
    (the probe of the destination, the copy decision and the counters),
    a directory is entered by the call at the next depth, and the loop
    goes on with the entries that remain. *)
Theorem depth_limit fuel sp dp ap cf d limit w :
  depth args = Some limit ->
  (limit < d ->
     copy_folder args (S fuel) sp dp ap cf d w = (Done 0, w))
  /\
  (d <= limit ->
     forall w1 w2 pre item rest s,
       enter_folder args ap (Path.join sp cf) (Path.join dp cf)
         (Path.join ap cf) w = (Done (inl (pre ++ item :: rest)%list), w1) ->
       for_each pre
         (process_source_item args
            (fun sub => copy_folder args fuel sp dp ap sub (d + 1))
            (Path.join sp cf) (Path.join dp cf) cf) w1 = (Done None, w2) ->
       os_stat os (disk w2) (Path.join (Path.join sp cf) item) = Ok s ->
       let remaining :=
         (returning
            for_each rest
              (process_source_item args
                 (fun sub => copy_folder args fuel sp dp ap sub (d + 1))
                 (Path.join sp cf) (Path.join dp cf) cf) ;;
          ret 0)%prog in
       copy_folder args (S fuel) sp dp ap cf d w =
       (if Stat.S_ISDIR (st_mode s) then
          res <- copy_folder args fuel sp dp ap (Path.join cf item) (d + 1) ;;
          if negb (res =? 0) then ret res else remaining
        else
          process_file args (Path.join dp cf) item
            (probed (Path.join (Path.join sp cf) item) s) ;;
          remaining)%prog
         (after_call (CStat (Path.join (Path.join sp cf) item)) w2)).
Proof.
  intros Hlimit. split.
  - intros Hgt. rewrite copy_folder_S. unfold too_deep. rewrite Hlimit.
    replace (d >? limit) with true by (symmetry; apply Z.gtb_lt; lia).
    reflexivity.
  - intros Hle w1 w2 pre item rest s Henter Hpre Hstat remaining.
    assert (Hdeep : too_deep args d = false).
    { unfold too_deep. rewrite Hlimit.
      destruct (d >? limit) eqn:E; [apply Z.gtb_lt in E; lia | reflexivity]. }
    rewrite (copy_folder_at_entry _ _ _ _ _ _ _ _ _ _ _ _ Hdeep Henter Hpre).
    unfold unless_returned at 1. unfold bind at 1. rewrite for_each_cons.
    destruct (Stat.S_ISDIR (st_mode s)) eqn:Hdir.
    + rewrite (directory_item_recurses _ _ _ _ _ _ _ Hstat Hdir).
      unfold bind.
      destruct (copy_folder args fuel sp dp ap (Path.join cf item) (d + 1)
                  (after_call (CStat (Path.join (Path.join sp cf) item)) w2))
        as [[res| |] w3]; [|reflexivity|reflexivity].
      destruct (res =? 0); reflexivity.
    + rewrite (file_item_is_processed _ _ _ _ _ _ _ Hstat Hdir).
      unfold bind.
      destruct (process_file args (Path.join dp cf) item _ _)
        as [[[]| |] w3]; reflexivity.
Qed.

(** *** The copy decision *)

Lemma init_probe_of p dst : SH.init p (probe_of dst) = Ok (helper_of p dst).
Proof. destruct dst; reflexivity. Qed.

(** The branch taken by lines 360-387, in terms of the specification's
    chain. *)
Lemma copy_verdict_spec ps pd s dst :
  copy_verdict args (probed ps s) (helper_of pd dst) =
  Ok (if spec_should_copy (copymode args) s dst then CopyIt
      else if copymode args =? 3 then HashTodo else SkipIt).
Proof.
  unfold copy_verdict, spec_should_copy.
  destruct dst as [d|]; cbn; [|reflexivity].
  destruct (copymode args =? 0) eqn:E0; cbn; [reflexivity|].
  rewrite !Z.geb_leb.
  destruct (1 <=? copymode args); cbn;
    [destruct (st_mtime s =? st_mtime d); cbn; [|reflexivity]|];
    (destruct (2 <=? copymode args); cbn;
     [destruct (st_size s =? st_size d); cbn; [|reflexivity]|];
     destruct (copymode args =? 3); reflexivity).
Qed.

Lemma process_file_run cdp item ps s dst w :
  os_stat os (disk w) (Path.join cdp item) = probe_of dst ->
  process_file args cdp item (probed ps s) w =
  ((if spec_should_copy (copymode args) s dst
    then copy_file args (probed ps s) (helper_of (Path.join cdp item) dst)
    else if copymode args =? 3 then ret tt
    else (bump (add_num_skipped 1) ;; bump (add_size_skipped (st_size s)))) ;;
   bump (add_num_processed 1))%prog
    (after_call (CStat (Path.join cdp item)) w).
Proof.
  intros Hprobe. unfold process_file.
  unfold bind at 1. rewrite new_StatHelper_run, Hprobe, init_probe_of.
  cbn [lift ret]. unfold bind at 1.
  rewrite copy_verdict_spec. cbn [lift ret].
  destruct (spec_should_copy (copymode args) s dst); [reflexivity|].
  destruct (copymode args =? 3); reflexivity.
Qed.

(** C5.  For a source file with metadata [s] whose destination probe
    answers [dst] (metadata, or [None] for a missing destination), the
    engine copies exactly when the chain of the specification says so:
    destination missing; else mode [always]; else mode at least [by-mtime]
    and the modification times differ, whichever is the newer; else mode
    at least [by-mtime-then-size] and the sizes differ.  Otherwise
    [copy_file] is not called: no call but the probe is issued and the
    copy counters stay. *)
Theorem copy_decision_follows_chain cdp item ps s dst w :
  os_stat os (disk w) (Path.join cdp item) = probe_of dst ->
  let w1 := after_call (CStat (Path.join cdp item)) w in
  (spec_should_copy (copymode args) s dst = true ->
     process_file args cdp item (probed ps s) w =
     (copy_file args (probed ps s) (helper_of (Path.join cdp item) dst) ;;
      bump (add_num_processed 1))%prog w1)
  /\
  (spec_should_copy (copymode args) s dst = false ->
     exists w',
       process_file args cdp item (probed ps s) w = (Done tt, w') /\
       disk w' = disk w /\ calls w' = calls w1 /\
       num_copied (info w') = num_copied (info w) /\
       size_copied (info w') = size_copied (info w) /\
       not_copied (info w') = not_copied (info w))
  /\
  (forall d, dst = Some d -> 1 <= copymode args -> st_mtime s < st_mtime d ->
     process_file args cdp item (probed ps s) w =
     (copy_file args (probed ps s) (helper_of (Path.join cdp item) dst) ;;
      bump (add_num_processed 1))%prog w1).
Proof.
  intros Hprobe w1.
  assert (Hcopies : spec_should_copy (copymode args) s dst = true ->
            process_file args cdp item (probed ps s) w =
            (copy_file args (probed ps s) (helper_of (Path.join cdp item) dst) ;;
             bump (add_num_processed 1))%prog w1).
  { intros Hcopy. rewrite (process_file_run _ _ _ _ _ _ Hprobe), Hcopy.
    reflexivity. }
  split; [exact Hcopies|]. split.
  - intros Hskip. rewrite (process_file_run _ _ _ _ _ _ Hprobe), Hskip.
    destruct (copymode args =? 3); eexists; (split; [reflexivity|]);
      cbn; auto.
  - intros d -> Hmode Hnewer. apply Hcopies. unfold spec_should_copy.
    destruct (copymode args =? 0); [reflexivity|].
    replace (1 <=? copymode args) with true by (symmetry; apply Z.leb_le; lia).
    replace (st_mtime s =? st_mtime d) with false
      by (symmetry; apply Z.eqb_neq; lia).
    reflexivity.
Qed.

(** C6, as the code has it.  A source file whose processing completes
    adds exactly one to [num_processed].  When the decision is not to
    copy, [num_skipped] and [size_skipped] are increased in modes other
    than 3; in mode 3 (the [pass] left for the hash comparison) the file
    is neither copied nor counted as skipped. *)
Theorem processed_and_skipped_counters cdp item ps s dst w :
  os_stat os (disk w) (Path.join cdp item) = probe_of dst ->
  let w1 := after_call (CStat (Path.join cdp item)) w in
  (spec_should_copy (copymode args) s dst = false ->
     process_file args cdp item (probed ps s) w =
     (Done tt,
      with_info (fun i =>
        add_num_processed 1
          (if copymode args =? 3 then i
           else add_size_skipped (st_size s) (add_num_skipped 1 i))) w1))
  /\
  (spec_should_copy (copymode args) s dst = true ->
     (simulate args = true \/
      forall e, fst (shutil_copy2 os (disk w) ps (Path.join cdp item)) = Raise e ->
                e = PermissionError \/ e = FileNotFoundError) ->
     exists w',
       process_file args cdp item (probed ps s) w = (Done tt, w') /\
       num_processed (info w') = num_processed (info w) + 1 /\
       num_skipped (info w') = num_skipped (info w) /\
       size_skipped (info w') = size_skipped (info w)).
Proof.
  intros Hprobe w1. split.
  - intros Hskip. rewrite (process_file_run _ _ _ _ _ _ Hprobe), Hskip.
    destruct (copymode args =? 3); reflexivity.
  - intros Hcopy Hok. rewrite (process_file_run _ _ _ _ _ _ Hprobe), Hcopy.
    unfold copy_file.
    assert (Hpath : path_name (helper_of (Path.join cdp item) dst)
                    = Path.join cdp item) by (destruct dst; reflexivity).
    rewrite Hpath. cbn [path_name probed].
    destruct (simulate args) eqn:Hsim; cbn [negb].
    + eexists. split; [reflexivity|]. cbn. auto.
    + destruct Hok as [Hok|Hok]; [discriminate|].
      unfold bind, copy2, writing. cbn [disk after_call w1].
      destruct (shutil_copy2 os (disk w) ps (Path.join cdp item))
        as [[u|e] d'] eqn:Hcp; cbn [fst] in Hok.
      * eexists. split; [reflexivity|]. cbn. auto.
      * destruct (Hok e eq_refl) as [-> | ->];
          (eexists; split; [reflexivity|]; cbn; auto).
Qed.

(** *** The validation of the configuration *)

(** Under a rejected configuration [sibackup()] is over once the roots
    are tested. *)
Lemma invalid_configuration_stops fuel w :
  invalid_configuration args = true ->
  sibackup args fuel w =
  (source_present <- path_exists (os_path_abspath os (source args)) ;;
   if negb source_present then ret 1
   else
     dest_present <- path_exists (os_path_abspath os (destination args)) ;;
     created <- (if negb dest_present
                 then create_root args (os_path_abspath os (destination args))
                 else ret None) ;;
     match created with
     | Some status => ret status
     | None => ret 1
     end)%prog w.
Proof.
  unfold invalid_configuration, sibackup, unless_returned. intros H.
  destruct (negative_depth args); [reflexivity|].
  destruct (valid_copymode args); [|reflexivity].
  destruct (valid_conflictmode args); [discriminate|reflexivity].
Qed.

(** C7, as the code has it.  With a depth limit below 0, a copy mode
    outside 0..3 or a conflict mode outside 0..2 the run returns status 1
    before the traversal starts and before the archive folder is looked
    at.  The roots are tested first: a missing destination root has been
    created by then (outside simulate mode), which is the only call that
    can have changed the file system. *)
Theorem invalid_configuration_aborts fuel w :
  invalid_configuration args = true ->
  let src := os_path_abspath os (source args) in
  let dst := os_path_abspath os (destination args) in
  (forall e, fst (os_makedirs os (disk w) dst) = Raise e -> e = PermissionError) ->
  exists w',
    sibackup args fuel w = (Done 1, w') /\
    (exists issued,
       calls w' = (issued ++ calls w)%list /\
       forall c, In c issued ->
         c = CExists src \/ c = CExists dst \/
         (c = CMakedirs dst /\ simulate args = false /\
          os_path_exists os (disk w) dst = false)) /\
    (simulate args = true -> disk w' = disk w) /\
    (os_path_exists os (disk w) dst = true -> disk w' = disk w).
Proof.
  intros Hinvalid src dst Hmk.
  rewrite (invalid_configuration_stops _ _ Hinvalid). fold src. fold dst.
  unfold bind at 1. unfold path_exists at 1, reading. cbn [disk calls info].
  destruct (os_path_exists os (disk w) src) eqn:Hsrc; cbn [negb].
  2:{ eexists. split; [reflexivity|]. split; [|split; reflexivity].
      exists [CExists src]. split; [reflexivity|].
      intros c [<-|[]]. now left. }
  unfold bind at 1. unfold path_exists, reading. cbn [disk calls info].
  destruct (os_path_exists os (disk w) dst) eqn:Hdst; cbn [negb].
  - eexists. split; [reflexivity|]. split; [|split; reflexivity].
    exists [CExists dst; CExists src]. split; [reflexivity|].
    intros c [<-|[<-|[]]]; auto.
  - unfold create_root.
    destruct (simulate args) eqn:Hsim; cbn [negb].
    + eexists. split; [reflexivity|]. split; [|split; [reflexivity|discriminate]].
      exists [CExists dst; CExists src]. split; [reflexivity|].
      intros c [<-|[<-|[]]]; auto.
    + unfold bind, makedirs, writing. cbn [disk calls info].
      destruct (os_makedirs os (disk w) dst) as [[u|e] d'] eqn:Hmake;
        cbn [fst] in Hmk; [|rewrite (Hmk e eq_refl)];
        (eexists; split; [reflexivity|]; split; [|split; discriminate];
         exists [CMakedirs dst; CExists dst; CExists src];
         split; [reflexivity|];
         intros c [<-|[<-|[<-|[]]]]; auto).
Qed.

End Properties.

(* ===================================================================== *)
(** ** The policies on single entries                                     *)
(* ===================================================================== *)

Section Policies.
Context {os : OS}.
Variable args : Args.

(** Copy mode 0 ([always]): a source file is copied whatever the
    destination is (missing, older, newer, of any size). *)
Theorem always_mode_copies cdp item ps s dst w :
  copymode args = 0 ->
  os_stat os (disk w) (Path.join cdp item) = probe_of dst ->
  process_file args cdp item (probed ps s) w =
  (copy_file args (probed ps s) (helper_of (Path.join cdp item) dst) ;;
   bump (add_num_processed 1))%prog
    (after_call (CStat (Path.join cdp item)) w).
Proof.
  intros Hmode Hprobe.
  rewrite (process_file_run args _ _ _ _ _ _ Hprobe).
  unfold spec_should_copy. rewrite Hmode. now destruct dst.
Qed.

(** Copy mode 2 ([by-mtime-then-size]) on an existing destination: the
    chain of lines 360-387 copies the file exactly when the modification
    times or the sizes differ, and skips it otherwise. *)
Theorem size_mode_decision ps pd s d :
  copymode args = 2 ->
  copy_verdict args (probed ps s) (helper_of pd (Some d))
  = Ok (if ((st_mtime s =? st_mtime d) && (st_size s =? st_size d))%bool
        then SkipIt else CopyIt).
Proof.
  intros Hmode. rewrite copy_verdict_spec.
  unfold spec_should_copy. rewrite Hmode. cbn.
  destruct (st_mtime s =? st_mtime d), (st_size s =? st_size d); reflexivity.
Qed.

(** Conflict mode 0 ([ignore]): the conflict is probed and counted as
    resolved, and nothing else happens to it. *)
Theorem ignored_conflict_is_counted ap cdp cap item w :
  conflictmode args = 0 ->
  (forall e, os_stat os (disk w) (Path.join cdp item) = Raise e ->
             e = FileNotFoundError \/ e = PermissionError) ->
  resolve_conflict args ap cdp cap item w =
  (Done None,
   with_info (add_conflicts_resolved 1)
     (after_call (CStat (Path.join cdp item)) w)).
Proof.
  intros Hmode Hprobe. unfold resolve_conflict. rewrite Hmode. cbn [Z.eqb].
  unfold bind at 1. rewrite new_StatHelper_run.
  destruct (os_stat os (disk w) (Path.join cdp item)) as [s|e] eqn:Hstat.
  - reflexivity.
  - destruct (Hprobe e eq_refl) as [-> | ->]; reflexivity.
Qed.

(** Conflict mode 2 ([delete]) outside simulate mode: a writable file of
    the destination only is removed with [os.remove], and one resolved
    conflict is counted. *)
Theorem deleted_file_is_counted ap cdp cap item s w :
  conflictmode args = 2 ->
  simulate args = false ->
  os_stat os (disk w) (Path.join cdp item) = Ok s ->
  Z.land (st_mode s) Stat.S_IWRITE <> 0 ->
  os_path_isdir os (disk w) (Path.join cdp item) = false ->
  fst (os_remove os (disk w) (Path.join cdp item)) = Ok tt ->
  resolve_conflict args ap cdp cap item w =
  (Done None,
   mk_world (add_conflicts_resolved 1 (info w))
     (snd (os_remove os (disk w) (Path.join cdp item)))
     (CRemove (Path.join cdp item) :: CIsdir (Path.join cdp item)
      :: CStat (Path.join cdp item) :: calls w)).
Proof.
  intros Hmode Hsim Hstat Hwritable Hfile Hremove.
  apply Z.eqb_neq in Hwritable.
  unfold resolve_conflict. rewrite Hmode, Hsim.
  unfold new_StatHelper, stat, path_isdir, remove, reading, writing,
    bind, bump, ret.
  simpl. rewrite Hstat. simpl. rewrite Hwritable. simpl. rewrite Hfile.
  simpl.
  destruct (os_remove os (disk w) (Path.join cdp item)) as [r d'] eqn:Hrm.
  simpl in *. subst r. reflexivity.
Qed.

(** Conflict mode 1 ([archive]): a conflict item whose path is spelled
    exactly like the archive path is left where it is; neither the
    archive folder is created under it nor [shutil.move] called, and no
    conflict is counted.  The guard of line 280 comes after the mode
    reset of lines 274-276: an item without the owner's write bit is given
    [os.chmod(path, S_IWRITE)] first, and this is the only call that can
    write; its exception, if any, is not caught. *)
Theorem archive_path_is_not_archived cdp cap item s w :
  conflictmode args = 1 ->
  os_stat os (disk w) (Path.join cdp item) = Ok s ->
  resolve_conflict args (Path.join cdp item) cdp cap item w =
  if Z.land (st_mode s) Stat.S_IWRITE =? 0 then
    let (r, d') := os_chmod os (disk w) (Path.join cdp item) Stat.S_IWRITE in
    (match r with
     | Ok _ => Done None
     | Raise e => Uncaught e
     end,
     mk_world (info w) d'
       (CChmod (Path.join cdp item) Stat.S_IWRITE
          :: CStat (Path.join cdp item) :: calls w))
  else (Done None, after_call (CStat (Path.join cdp item)) w).
Proof.
  intros Hmode Hstat.
  unfold resolve_conflict. rewrite Hmode, String.eqb_refl.
  unfold new_StatHelper, stat, chmod, reading, writing, bind, ret.
  simpl. rewrite Hstat. simpl.
  destruct (Z.land (st_mode s) Stat.S_IWRITE =? 0); [|reflexivity].
  simpl.
  destruct (os_chmod os (disk w) (Path.join cdp item) Stat.S_IWRITE)
    as [[u|e] d']; reflexivity.
Qed.

(** A destination folder that cannot be created for lack of permission
    ends the call on that folder with status 0: the run goes on with the
    siblings (lines 228-231). *)
Theorem refused_folder_creation_is_local fuel sp dp ap cf d w :
  too_deep args d = false ->
  simulate args = false ->
  os_path_exists os (disk w) (Path.join dp cf) = false ->
  fst (os_mkdir os (disk w) (Path.join dp cf)) = Raise PermissionError ->
  copy_folder args (S fuel) sp dp ap cf d w =
  (Done 0,
   mk_world (info w) (snd (os_mkdir os (disk w) (Path.join dp cf)))
     (CMkdir (Path.join dp cf) :: CExists (Path.join dp cf) :: calls w)).
Proof.
  intros Hdeep Hsim Habsent Hmkdir.
  rewrite copy_folder_S, Hdeep.
  unfold enter_folder, ensure_dest_folder.
  unfold bind at 1. unfold bind at 1. unfold bind at 1.
  unfold path_exists, reading. cbn [disk info calls].
  rewrite Habsent, Hsim. cbn [negb].
  unfold bind at 1. unfold mkdir, writing. cbn [disk info calls].
  destruct (os_mkdir os (disk w) (Path.join dp cf)) as [r d'] eqn:Hmk.
  cbn [fst snd] in *. subst r. reflexivity.
Qed.

(** In simulate mode [copy_file] issues no call and counts the file as
    the real one does when [shutil.copy2] succeeds (section 4.3 of the
    specification). *)
Theorem simulated_copy_counts_like_success
    (real sim : Args) src dst (w : world os) :
  simulate real = false ->
  simulate sim = true ->
  fst (shutil_copy2 os (disk w) (path_name src) (path_name dst)) = Ok tt ->
  fst (copy_file sim src dst w) = fst (copy_file real src dst w) /\
  info (snd (copy_file sim src dst w)) = info (snd (copy_file real src dst w)) /\
  calls (snd (copy_file sim src dst w)) = calls w /\
  disk (snd (copy_file sim src dst w)) = disk w.
Proof.
  intros Hreal Hsim Hcopy. unfold copy_file. rewrite Hreal, Hsim.
  unfold copy2, writing, bind, bump, ret. simpl.
  destruct (shutil_copy2 os (disk w) (path_name src) (path_name dst))
    as [r d'] eqn:Hcp.
  simpl in *. subst r.
  destruct (SH.getsize src) as [size|e]; simpl; auto.
Qed.

(** In simulate mode a writable conflict under conflict mode 2 is
    counted as resolved and nothing is deleted (section 4.4 of the
    specification). *)
Theorem simulated_delete_is_counted ap cdp cap item s w :
  simulate args = true ->
  conflictmode args = 2 ->
  os_stat os (disk w) (Path.join cdp item) = Ok s ->
  Z.land (st_mode s) Stat.S_IWRITE <> 0 ->
  resolve_conflict args ap cdp cap item w =
  (Done None,
   with_info (add_conflicts_resolved 1)
     (after_call (CStat (Path.join cdp item)) w)).
Proof.
  intros Hsim Hmode Hstat Hwritable.
  apply Z.eqb_neq in Hwritable.
  unfold resolve_conflict. rewrite Hmode, Hsim.
  unfold new_StatHelper, stat, reading, bind, bump, ret.
  simpl. rewrite Hstat. simpl. rewrite Hwritable. reflexivity.
Qed.

End Policies.

(* ===================================================================== *)
(** ** The recursion bound                                                *)
(* ===================================================================== *)

Section Fuel.
Context {os : OS}.
Variable args : Args.

Lemma within_fuel_refl {A : Type} (m : M os A) : within_fuel m m.
Proof. intros w r w' H _. exact H. Qed.

Lemma within_fuel_bind {A B : Type} (m m' : M os A) (k k' : A -> M os B) :
  within_fuel m m' -> (forall a, within_fuel (k a) (k' a)) ->
  within_fuel (bind m k) (bind m' k').
Proof.
  intros Hm Hk w r w' Hrun Hfuel. unfold bind in *.
  destruct (m w) as [[a| |] w1] eqn:Hmw.
  - rewrite (Hm w (Done a) w1 Hmw) by discriminate. now apply Hk.
  - rewrite (Hm w (Uncaught e) w1 Hmw) by discriminate. exact Hrun.
  - inversion Hrun. subst. contradiction.
Qed.

Lemma within_fuel_for_each {A : Type} (xs : list A)
    (body body' : A -> M os (option Z)) :
  (forall x, within_fuel (body x) (body' x)) ->
  within_fuel (for_each xs body) (for_each xs body').
Proof.
  intros Hbody. induction xs as [|x xs IH]; cbn [for_each].
  - apply within_fuel_refl.
  - apply within_fuel_bind; [apply Hbody|].
    intros [status|]; [apply within_fuel_refl | exact IH].
Qed.

Lemma within_fuel_process_source_item recurse recurse' csp cdp cf item :
  (forall sub, within_fuel (recurse sub) (recurse' sub)) ->
  within_fuel (process_source_item args recurse csp cdp cf item)
              (process_source_item args recurse' csp cdp cf item).
Proof.
  intros Hrec. unfold process_source_item.
  apply within_fuel_bind; [apply within_fuel_refl|]. intros stats.
  apply within_fuel_bind; [apply within_fuel_refl|]. intros readable.
  destruct (negb readable); [apply within_fuel_refl|].
  apply within_fuel_bind; [apply within_fuel_refl|]. intros is_dir.
  destruct is_dir; [|apply within_fuel_refl].
  apply within_fuel_bind; [apply Hrec|]. intros res. apply within_fuel_refl.
Qed.

Lemma within_fuel_copy_folder fuel : forall fuel' sp dp ap cf d,
  (fuel <= fuel')%nat ->
  within_fuel (copy_folder args fuel sp dp ap cf d)
              (copy_folder args fuel' sp dp ap cf d).
Proof.
  induction fuel as [|fuel IH]; intros fuel' sp dp ap cf d Hle.
  - intros w r w' Hrun Hfuel. cbn in Hrun. inversion Hrun. subst.
    contradiction.
  - destruct fuel' as [|fuel']; [lia|].
    rewrite !copy_folder_S.
    destruct (too_deep args d); [apply within_fuel_refl|].
    apply within_fuel_bind; [apply within_fuel_refl|].
    intros [source_list|status]; [|apply within_fuel_refl].
    unfold unless_returned.
    apply within_fuel_bind; [|intros ?; apply within_fuel_refl].
    apply within_fuel_for_each. intros item.
    apply within_fuel_process_source_item. intros sub.
    apply IH. lia.
Qed.

(** The outcome of a run does not depend on the recursion bound: a run
    that ends (with a status or an uncaught exception) within [fuel] calls
    of [copy_folder] ends in the same way, in the same world, under every
    larger bound. *)
Theorem more_fuel_same_run fuel fuel' w r w' :
  (fuel <= fuel')%nat ->
  sibackup args fuel w = (r, w') ->
  r <> NoFuel ->
  sibackup args fuel' w = (r, w').
Proof.
  intros Hle. revert w r w'. change (within_fuel (sibackup args fuel)
                                                 (sibackup args fuel')).
  unfold sibackup, unless_returned.
  apply within_fuel_bind; [apply within_fuel_refl|]. intros source_present.
  destruct (negb source_present); [apply within_fuel_refl|].
  apply within_fuel_bind; [apply within_fuel_refl|]. intros dest_present.
  apply within_fuel_bind; [apply within_fuel_refl|]. intros created.
  destruct created; [apply within_fuel_refl|].
  destruct (negative_depth args); [apply within_fuel_refl|].
  destruct (negb (valid_copymode args)); [apply within_fuel_refl|].
  destruct (negb (valid_conflictmode args)); [apply within_fuel_refl|].
  apply within_fuel_bind; [apply within_fuel_refl|]. intros archived.
  destruct archived; [apply within_fuel_refl|].
  apply within_fuel_bind; [now apply within_fuel_copy_folder|].
  intros status. apply within_fuel_refl.
Qed.

End Fuel.

(* ===================================================================== *)
(** ** What a simulated run can do to the file system                     *)
(* ===================================================================== *)

Section Simulation.
Context {os : OS}.
Variable args : Args.
Variable P : syscall -> Prop.
Hypothesis P_reads : forall c, is_mutation c = false -> P c.
Hypothesis simulating : simulate args = true.
Hypothesis P_chmod :
  (conflictmode args =? 0) = false -> forall p, P (CChmod p Stat.S_IWRITE).

Lemma issues_ret {A : Type} (a : A) : issues (os := os) P (ret a).
Proof. intros w. exists []. repeat split; auto. Qed.

Lemma issues_raise {A : Type} e : issues (os := os) (A := A) P (raise e).
Proof. intros w. exists []. repeat split; auto. Qed.

Lemma issues_out_of_fuel {A : Type} : issues (os := os) (A := A) P out_of_fuel.
Proof. intros w. exists []. repeat split; auto. Qed.

Lemma issues_lift {A : Type} (r : result A) : issues (os := os) P (lift r).
Proof. destruct r; [apply issues_ret | apply issues_raise]. Qed.

Lemma issues_bump f : issues (os := os) P (bump f).
Proof. intros w. exists []. repeat split; auto. Qed.

Lemma issues_report : issues (os := os) P report.
Proof.
  intros w. exists []. unfold report.
  repeat match goal with |- context [if ?b then _ else _] => destruct b end;
    repeat split; auto.
Qed.

Lemma issues_reading {A : Type} c (f : fs os -> A) :
  is_mutation c = false -> issues P (reading c f).
Proof.
  intros Hc w. exists [c]. repeat split; auto.
Qed.

Lemma issues_writing {A : Type} c (f : fs os -> A * fs os) :
  P c -> is_mutation c = true -> issues P (writing c f).
Proof.
  intros HP Hc w. exists [c]. unfold writing.
  destruct (f (disk w)) as [r d]. cbn. repeat split; auto.
  intros Hall. inversion Hall as [|? ? Hhead]. congruence.
Qed.

Lemma issues_bind {A B : Type} (m : M os A) (k : A -> M os B) :
  issues P m -> (forall a, issues P (k a)) -> issues P (bind m k).
Proof.
  intros Hm Hk w. unfold bind.
  destruct (Hm w) as (l1 & Hcalls1 & HP1 & Hdisk1).
  destruct (m w) as [[a| |] w1]; cbn in *.
  - destruct (Hk a w1) as (l2 & Hcalls2 & HP2 & Hdisk2).
    exists (l2 ++ l1)%list. rewrite Hcalls2, Hcalls1, app_assoc.
    repeat split.
    + apply Forall_app. now split.
    + intros Hall. apply Forall_app in Hall as [Hall2 Hall1].
      now rewrite (Hdisk2 Hall2), (Hdisk1 Hall1).
  - exists l1. auto.
  - exists l1. auto.
Qed.

Create HintDb issues_db discriminated.
#[local] Hint Resolve issues_ret issues_raise issues_out_of_fuel issues_lift
  issues_bump issues_report : issues_db.

Lemma issues_path_exists p : issues (os := os) P (path_exists p).
Proof. now apply issues_reading. Qed.
Lemma issues_path_isdir p : issues (os := os) P (path_isdir p).
Proof. now apply issues_reading. Qed.
Lemma issues_listdir p : issues (os := os) P (listdir p).
Proof. now apply issues_reading. Qed.
Lemma issues_stat p : issues (os := os) P (stat p).
Proof. now apply issues_reading. Qed.
#[local] Hint Resolve issues_path_exists issues_path_isdir issues_listdir
  issues_stat : issues_db.

(** Breaks a simulated program down to its calls: the branches taken
    outside simulate mode are gone once [simulate args] is rewritten. *)
Ltac simulated :=
  rewrite ?simulating; cbn [negb];
  repeat first
    [ solve [auto 5 with issues_db nocore]
    | apply issues_bind; [ | intros ? ]
    | match goal with
      | |- issues _ (if ?b then _ else _) => destruct b
      | |- issues _ (match ?x with _ => _ end) => destruct x
      end ].

Lemma issues_for_each {A : Type} (xs : list A) (body : A -> M os (option Z)) :
  (forall x, issues P (body x)) -> issues P (for_each xs body).
Proof.
  intros Hbody. induction xs as [|x xs IH]; cbn [for_each]; simulated.
Qed.
#[local] Hint Resolve issues_for_each : issues_db.

Lemma issues_new_StatHelper p : issues (os := os) P (new_StatHelper p).
Proof. unfold new_StatHelper. simulated. Qed.
#[local] Hint Resolve issues_new_StatHelper : issues_db.

Lemma issues_copy_file src dst : issues P (copy_file args src dst).
Proof. unfold copy_file. simulated. Qed.
#[local] Hint Resolve issues_copy_file : issues_db.

Lemma issues_resolve_conflict ap cdp cap item :
  issues P (resolve_conflict args ap cdp cap item).
Proof.
  unfold resolve_conflict, then_in_body.
  destruct (conflictmode args =? 0) eqn:Hmode; simulated.
  apply issues_writing; [now apply P_chmod | reflexivity].
Qed.
#[local] Hint Resolve issues_resolve_conflict : issues_db.

Lemma issues_process_file cdp item src :
  issues P (process_file args cdp item src).
Proof. unfold process_file. simulated. Qed.
#[local] Hint Resolve issues_process_file : issues_db.

Lemma issues_process_source_item recurse csp cdp cf item :
  (forall sub, issues P (recurse sub)) ->
  issues P (process_source_item args recurse csp cdp cf item).
Proof. intros Hrec. unfold process_source_item. simulated. Qed.
#[local] Hint Resolve issues_process_source_item : issues_db.

Lemma issues_enter_folder ap csp cdp cap :
  issues P (enter_folder args ap csp cdp cap).
Proof.
  unfold enter_folder, ensure_dest_folder, list_children. simulated.
Qed.
#[local] Hint Resolve issues_enter_folder : issues_db.

Lemma issues_copy_folder fuel : forall sp dp ap cf d,
  issues P (copy_folder args fuel sp dp ap cf d).
Proof.
  induction fuel as [|fuel IH]; intros sp dp ap cf d.
  - apply issues_out_of_fuel.
  - rewrite copy_folder_S. unfold unless_returned. simulated.
Qed.
#[local] Hint Resolve issues_copy_folder : issues_db.

Lemma issues_sibackup fuel : issues P (sibackup args fuel).
Proof.
  unfold sibackup, unless_returned, create_root. simulated.
Qed.

End Simulation.

(** In simulate mode the only calls of a run that write are the
    [os.chmod(conflict_item_path, stat.S_IWRITE)] of line 276; under
    conflict mode 0, which never reaches that line, the run does not write
    at all and the file system is left as it was. *)
Theorem simulated_run_only_resets_modes {os : OS} (args : Args) fuel
    (w : world os) :
  simulate args = true ->
  exists issued,
    calls (snd (sibackup args fuel w)) = (issued ++ calls w)%list /\
    Forall reads_or_chmods issued /\
    (conflictmode args = 0 ->
     Forall (fun c => is_mutation c = false) issued /\
     disk (snd (sibackup args fuel w)) = disk w).
Proof.
  intros Hsim.
  destruct (issues_sibackup args reads_or_chmods
              (fun c Hc => or_introl Hc) Hsim
              (fun _ p => or_intror (ex_intro _ p eq_refl)) fuel w)
    as (l & Hcalls & Hall & _).
  exists l. split; [exact Hcalls|]. split; [exact Hall|].
  intros Hmode.
  assert (Hquiet : (conflictmode args =? 0) = false ->
                   forall p, is_mutation (CChmod p Stat.S_IWRITE) = false).
  { rewrite Hmode. discriminate. }
  destruct (issues_sibackup args (fun c => is_mutation c = false)
              (fun c Hc => Hc) Hsim Hquiet fuel w)
    as (l' & Hcalls' & Hall' & Hdisk').
  rewrite Hcalls in Hcalls'. apply app_inv_tail in Hcalls'. subst l'.
  split; [exact Hall' | now apply Hdisk'].
Qed.

(* ===================================================================== *)
(** ** The statuses of a run                                              *)
(* ===================================================================== *)

Section Status.
Context {os : OS}.
Variable args : Args.

Lemma bind_inv {A B : Type} (m : M os A) (k : A -> M os B) w b w' :
  bind m k w = (Done b, w') ->
  exists a w1, m w = (Done a, w1) /\ k a w1 = (Done b, w').
Proof.
  unfold bind. destruct (m w) as [[a| |] w1]; intros H; try discriminate.
  now exists a, w1.
Qed.

Lemma returns_ret {A : Type} (Q : A -> Prop) a :
  Q a -> returns (os := os) Q (ret a).
Proof.
  intros HQ w b w' H. unfold ret in H. inversion H. subst. exact HQ.
Qed.

Lemma returns_raise {A : Type} (Q : A -> Prop) e :
  returns (os := os) Q (raise e).
Proof. intros w b w' H. discriminate H. Qed.

Lemma returns_out_of_fuel {A : Type} (Q : A -> Prop) :
  returns (os := os) Q out_of_fuel.
Proof. intros w b w' H. discriminate H. Qed.

Lemma returns_bind {A B : Type} (Q1 : A -> Prop) (Q : B -> Prop)
    (m : M os A) (k : A -> M os B) :
  returns Q1 m -> (forall a, Q1 a -> returns Q (k a)) -> returns Q (bind m k).
Proof.
  intros Hm Hk w b w' H.
  apply bind_inv in H as (a & w1 & Hma & Hka).
  exact (Hk a (Hm _ _ _ Hma) _ _ _ Hka).
Qed.

Lemma returns_then {A B : Type} (Q : B -> Prop) (m : M os A) (k : A -> M os B) :
  (forall a, returns Q (k a)) -> returns Q (bind m k).
Proof.
  intros Hk. apply (returns_bind (fun _ => True)); [|auto].
  intros w a w' _. exact I.
Qed.

Lemma returns_then_in_body (m k : M os (option Z)) :
  returns is_status_or_none m -> returns is_status_or_none k ->
  returns is_status_or_none (then_in_body m k).
Proof.
  intros Hm Hk. unfold then_in_body.
  apply (returns_bind is_status_or_none); [exact Hm|].
  intros [status|] Hstatus; [|exact Hk].
  apply returns_ret. exact Hstatus.
Qed.

(** Takes a program apart down to its [return]s. *)
Ltac statuses :=
  repeat first
    [ apply returns_raise | apply returns_out_of_fuel
    | apply returns_ret; cbn; solve [auto | now left | now right]
    | assumption
    | match goal with
      | |- returns _ (then_in_body _ _) => apply returns_then_in_body
      | |- returns _ (bind _ _) => apply returns_then; intros ?
      end
    | match goal with
      | |- returns _ (if ?b then _ else _) => destruct b
      | |- returns _ (match ?x with _ => _ end) => destruct x
      end ].

Lemma returns_for_each {A : Type} (xs : list A) (body : A -> M os (option Z)) :
  (forall x, returns is_status_or_none (body x)) ->
  returns is_status_or_none (for_each xs body).
Proof.
  intros Hbody. induction xs as [|x xs IH]; cbn [for_each].
  - now apply returns_ret.
  - apply (returns_bind is_status_or_none); [apply Hbody|].
    intros [status|] Hstatus; [now apply returns_ret | exact IH].
Qed.

Lemma returns_resolve_conflict ap cdp cap item :
  returns is_status_or_none (resolve_conflict args ap cdp cap item).
Proof.
  unfold resolve_conflict. statuses.
Qed.

Lemma returns_enter_folder ap csp cdp cap :
  returns (fun entered => match entered with
                          | inl _ => True
                          | inr status => is_status status
                          end)
    (enter_folder args ap csp cdp cap).
Proof.
  unfold enter_folder.
  apply (returns_bind is_status_or_none).
  { unfold ensure_dest_folder. statuses. }
  intros [status|] Hstatus; [now apply returns_ret|].
  apply (returns_bind (fun listed => match listed with
                                     | inl _ => True
                                     | inr status => is_status status
                                     end)).
  { unfold list_children. statuses. }
  intros [[source_list dest_list]|status] Hlisted; [|now apply returns_ret].
  apply (returns_bind is_status_or_none).
  { apply returns_for_each. intros item. apply returns_resolve_conflict. }
  intros [status|] Hresolved; now apply returns_ret.
Qed.

Lemma returns_process_source_item recurse csp cdp cf item :
  (forall sub, returns is_status (recurse sub)) ->
  returns is_status_or_none
    (process_source_item args recurse csp cdp cf item).
Proof.
  intros Hrec. unfold process_source_item.
  apply returns_then. intros stats.
  apply returns_then. intros readable.
  destruct (negb readable); [apply returns_ret; now left|].
  apply returns_then. intros is_dir.
  destruct is_dir; [|statuses].
  apply (returns_bind is_status); [apply Hrec|].
  intros res Hres. destruct (negb (res =? 0)); now apply returns_ret.
Qed.

Lemma returns_copy_folder fuel : forall sp dp ap cf d,
  returns is_status (copy_folder args fuel sp dp ap cf d).
Proof.
  induction fuel as [|fuel IH]; intros sp dp ap cf d.
  - apply returns_out_of_fuel.
  - rewrite copy_folder_S.
    destruct (too_deep args d); [apply returns_ret; now left|].
    apply (returns_bind _ _ _ _ (returns_enter_folder _ _ _ _)).
    intros [source_list|status] Hentered; [|now apply returns_ret].
    unfold unless_returned.
    apply (returns_bind is_status_or_none).
    + apply returns_for_each. intros item.
      apply returns_process_source_item. intros sub. apply IH.
    + intros [status|] Hstatus; apply returns_ret; [exact Hstatus | now left].
Qed.

(** Whatever the file system and the configuration, a run that returns
    returns 0 or 1, and so does every call of [copy_folder]: no other
    value reaches [exit(application_status)] from [sibackup()]. *)
Theorem status_is_zero_or_one fuel :
  returns is_status (sibackup args fuel) /\
  forall sp dp ap cf d,
    returns is_status (copy_folder args fuel sp dp ap cf d).
Proof.
  split; [|apply returns_copy_folder].
  unfold sibackup, unless_returned, create_root.
  apply returns_then. intros source_present.
  destruct (negb source_present); [apply returns_ret; now right|].
  apply returns_then. intros dest_present.
  apply (returns_bind is_status_or_none); [statuses|].
  intros [status|] Hdest; [now apply returns_ret|].
  destruct (negative_depth args); [apply returns_ret; now right|].
  destruct (negb (valid_copymode args)); [apply returns_ret; now right|].
  destruct (negb (valid_conflictmode args)); [apply returns_ret; now right|].
  apply (returns_bind is_status_or_none); [statuses|].
  intros [status|] Harchive; [now apply returns_ret|].
  apply (returns_bind is_status); [apply returns_copy_folder|].
  intros status Hstatus. apply returns_then. intros _.
  now apply returns_ret.
Qed.

(** A status other than 0 that a nested call returns is returned by the
    calling folder at once: the entries after that sub-folder are not
    processed (lines 346-349). *)
Theorem nested_abort_propagates
    fuel sp dp ap cf d w w1 w2 w3 pre item rest s status :
  too_deep args d = false ->
  enter_folder args ap (Path.join sp cf) (Path.join dp cf) (Path.join ap cf) w
    = (Done (inl (pre ++ item :: rest)%list), w1) ->
  for_each pre
    (process_source_item args
       (fun sub => copy_folder args fuel sp dp ap sub (d + 1))
       (Path.join sp cf) (Path.join dp cf) cf) w1 = (Done None, w2) ->
  os_stat os (disk w2) (Path.join (Path.join sp cf) item) = Ok s ->
  Stat.S_ISDIR (st_mode s) = true ->
  copy_folder args fuel sp dp ap (Path.join cf item) (d + 1)
    (after_call (CStat (Path.join (Path.join sp cf) item)) w2)
    = (Done status, w3) ->
  status <> 0 ->
  copy_folder args (S fuel) sp dp ap cf d w = (Done status, w3).
Proof.
  intros Hdeep Henter Hpre Hstat Hdir Hsub Hstatus.
  rewrite (copy_folder_at_entry _ _ _ _ _ _ _ _ _ _ _ _ _ Hdeep Henter Hpre).
  unfold unless_returned, bind at 1. rewrite for_each_cons.
  rewrite (directory_item_recurses _ _ _ _ _ _ _ _ Hstat Hdir).
  unfold bind at 1. rewrite Hsub.
  apply Z.eqb_neq in Hstatus. rewrite Hstatus. reflexivity.
Qed.

End Status.

(* ===================================================================== *)
(** ** The counters of the summary                                        *)
(* ===================================================================== *)

Section Accounting.
Context {os : OS}.
Variable args : Args.

Lemma accounts_ret {A : Type} (a : A) : accounts (os := os) args (ret a).
Proof.
  intros w b w' H. unfold ret in H. inversion H. subst. split; [lia|auto].
Qed.

Lemma accounts_raise {A : Type} e : accounts (os := os) (A := A) args (raise e).
Proof. intros w b w' H. discriminate H. Qed.

Lemma accounts_out_of_fuel {A : Type} :
  accounts (os := os) (A := A) args out_of_fuel.
Proof. intros w b w' H. discriminate H. Qed.

Lemma accounts_lift {A : Type} (r : result A) : accounts (os := os) args (lift r).
Proof. destruct r; [apply accounts_ret | apply accounts_raise]. Qed.

Lemma accounts_reading {A : Type} c (f : fs os -> A) :
  accounts args (reading c f).
Proof.
  intros w b w' H. unfold reading in H. inversion H. subst. cbn.
  split; [lia|auto].
Qed.

Lemma accounts_writing {A : Type} c (f : fs os -> A * fs os) :
  accounts args (writing c f).
Proof.
  intros w b w' H. unfold writing in H.
  destruct (f (disk w)) as [r d]. inversion H. subst. cbn.
  split; [lia|auto].
Qed.

Lemma accounts_bump f :
  (forall i, unaccounted (f i) = unaccounted i) ->
  accounts (os := os) args (bump f).
Proof.
  intros Hf w b w' H. unfold bump in H. inversion H. subst. cbn.
  rewrite Hf. split; [lia|auto].
Qed.

Lemma accounts_report : accounts (os := os) args report.
Proof.
  intros w b w' H. unfold report in H.
  repeat match type of H with
         | context [if ?b then _ else _] => destruct b
         end; inversion H; subst; split; [lia|auto].
Qed.

Lemma accounts_bind {A B : Type} (m : M os A) (k : A -> M os B) :
  accounts args m -> (forall a, accounts args (k a)) ->
  accounts args (bind m k).
Proof.
  intros Hm Hk w b w' H.
  apply bind_inv in H as (a & w1 & Hma & Hka).
  destruct (Hm _ _ _ Hma) as [Hle1 Heq1].
  destruct (Hk a _ _ _ Hka) as [Hle2 Heq2].
  split; [lia|]. intros Hmode. rewrite (Heq2 Hmode). now apply Heq1.
Qed.

Lemma accounts_rmtree p : accounts (os := os) args (rmtree remove_read_only p).
Proof.
  assert (Hinfo : forall k (w w' : world os) r,
             handling remove_read_only k w = (Done r, w') ->
             info w' = info w).
  { induction k as [r d|name d resume IH]; intros w w' r' H.
    - cbn in H. inversion H. reflexivity.
    - cbn [handling] in H.
      unfold bind, remove_read_only, chmod, writing in H. cbn in H.
      destruct (os_chmod os d name Stat.S_IWRITE) as [[u|e] d'].
      + apply IH in H. exact H.
      + inversion H. reflexivity. }
  intros w r w' H. unfold rmtree in H. apply Hinfo in H. cbn in H.
  rewrite H. split; [lia|auto].
Qed.

Create HintDb accounts_db discriminated.
#[local] Hint Resolve accounts_ret accounts_raise accounts_out_of_fuel
  accounts_lift accounts_reading accounts_writing accounts_rmtree
  accounts_report : accounts_db.

Lemma accounts_created : accounts (os := os) args (bump (add_num_created 1)).
Proof. apply accounts_bump. reflexivity. Qed.

Lemma accounts_resolved :
  accounts (os := os) args (bump (add_conflicts_resolved 1)).
Proof. apply accounts_bump. reflexivity. Qed.
#[local] Hint Resolve accounts_created accounts_resolved : accounts_db.

(** Takes a program apart down to the steps known to keep the account. *)
Ltac accounting :=
  repeat first
    [ solve [auto 5 with accounts_db nocore]
    | match goal with
      | |- accounts _ (bind _ _) => apply accounts_bind; [ | intros ? ]
      | |- accounts _ (if ?b then _ else _) => destruct b
      | |- accounts _ (match ?x with _ => _ end) => destruct x
      end ].

Lemma accounts_for_each {A : Type} (xs : list A) (body : A -> M os (option Z)) :
  (forall x, accounts args (body x)) -> accounts args (for_each xs body).
Proof.
  intros Hbody. induction xs as [|x xs IH]; cbn [for_each]; accounting.
Qed.
#[local] Hint Resolve accounts_for_each : accounts_db.

Lemma accounts_new_StatHelper p : accounts (os := os) args (new_StatHelper p).
Proof. unfold new_StatHelper, stat. accounting. Qed.
#[local] Hint Resolve accounts_new_StatHelper : accounts_db.

(** A file handed to [copy_file] ends in exactly one of [num_copied] and
    [not_copied]. *)
Lemma copy_file_counts_once src dst (w w' : world os) :
  copy_file args src dst w = (Done tt, w') ->
  unaccounted (info w') = unaccounted (info w) - 1.
Proof.
  unfold copy_file, copy2, writing, bind, bump, lift, ret, raise.
  destruct (simulate args); cbn [negb].
  - destruct (SH.getsize src) as [size|e]; intros H; inversion H; subst.
    unfold unaccounted. cbn. lia.
  - destruct (shutil_copy2 os (disk w) (path_name src) (path_name dst))
      as [[u|e] d'].
    + destruct (SH.getsize src) as [size|e]; intros H; inversion H; subst.
      unfold unaccounted. cbn. lia.
    + destruct e; intros H; inversion H; subst; unfold unaccounted; cbn; lia.
Qed.

(** The chain of lines 360-387 reaches its [pass] under copy mode 3
    only. *)
Lemma hash_branch_needs_mode_3 src dst :
  copy_verdict args src dst = Ok HashTodo -> copymode args = 3.
Proof.
  unfold copy_verdict, rbind.
  repeat match goal with
         | |- context [match ?x with _ => _ end] => destruct x eqn:?
         end; try discriminate.
  intros _. now apply Z.eqb_eq.
Qed.

Lemma accounts_process_file cdp item src :
  accounts args (process_file args cdp item src).
Proof.
  unfold process_file. intros w u w' H.
  apply bind_inv in H as (dst & w1 & Hdst & H).
  apply bind_inv in H as (v & w2 & Hv & H).
  apply bind_inv in H as ([] & w3 & Hbranch & H).
  unfold bump in H. inversion H. subst. clear H.
  destruct (accounts_new_StatHelper _ _ _ _ Hdst) as [_ Hinfo1].
  assert (Hsame1 : unaccounted (info w1) = unaccounted (info w)).
  { unfold new_StatHelper, stat, reading, bind, lift, ret, raise in Hdst.
    destruct (SH.init _ _); inversion Hdst; subst; reflexivity. }
  assert (Hverdict : copy_verdict args src dst = Ok v /\ w2 = w1).
  { unfold lift, ret, raise in Hv.
    destruct (copy_verdict args src dst); inversion Hv; subst; auto. }
  destruct Hverdict as [Hverdict ->].
  destruct v.
  - apply copy_file_counts_once in Hbranch.
    unfold unaccounted in *. cbn. split; [lia|intros _; lia].
  - unfold ret in Hbranch. inversion Hbranch. subst.
    unfold unaccounted in *. cbn. split; [lia|].
    intros Hmode. elim Hmode. exact (hash_branch_needs_mode_3 _ _ Hverdict).
  - unfold bind, bump, lift, ret, raise in Hbranch.
    destruct (SH.getsize src); inversion Hbranch; subst.
    unfold unaccounted in *. cbn. split; [lia|intros _; lia].
Qed.
#[local] Hint Resolve accounts_process_file : accounts_db.

Lemma accounts_resolve_conflict ap cdp cap item :
  accounts args (resolve_conflict args ap cdp cap item).
Proof.
  unfold resolve_conflict, then_in_body, path_exists, path_isdir,
    chmod, makedirs, move, remove.
  accounting.
Qed.
#[local] Hint Resolve accounts_resolve_conflict : accounts_db.

Lemma accounts_process_source_item recurse csp cdp cf item :
  (forall sub, accounts args (recurse sub)) ->
  accounts args (process_source_item args recurse csp cdp cf item).
Proof. intros Hrec. unfold process_source_item. accounting. Qed.
#[local] Hint Resolve accounts_process_source_item : accounts_db.

Lemma accounts_enter_folder ap csp cdp cap :
  accounts args (enter_folder args ap csp cdp cap).
Proof.
  unfold enter_folder, ensure_dest_folder, list_children,
    path_exists, mkdir, listdir.
  accounting.
Qed.
#[local] Hint Resolve accounts_enter_folder : accounts_db.

Lemma accounts_copy_folder fuel : forall sp dp ap cf d,
  accounts args (copy_folder args fuel sp dp ap cf d).
Proof.
  induction fuel as [|fuel IH]; intros sp dp ap cf d.
  - apply accounts_out_of_fuel.
  - rewrite copy_folder_S. unfold unless_returned. accounting.
Qed.
#[local] Hint Resolve accounts_copy_folder : accounts_db.

(** In a run that returns, every file counted as processed is counted
    exactly once as copied, skipped or not copied, unless the copy mode
    is 3: there the files left to the hash comparison are processed and
    in no other counter, so the three can only fall short.  For a run
    started with the counters at zero, outside copy mode 3:
    [num_processed = num_copied + num_skipped + not_copied]. *)
Theorem every_processed_file_is_counted fuel w status w' :
  sibackup args fuel w = (Done status, w') ->
  unaccounted (info w) <= unaccounted (info w') /\
  (copymode args <> 3 -> unaccounted (info w') = unaccounted (info w)) /\
  (copymode args <> 3 -> info w = info_zero ->
   num_processed (info w')
   = num_copied (info w') + num_skipped (info w') + not_copied (info w')).
Proof.
  intros Hrun.
  assert (Hacc : accounts args (sibackup args fuel)).
  { unfold sibackup, unless_returned, create_root, path_exists, makedirs.
    accounting. }
  destruct (Hacc _ _ _ Hrun) as [Hle Heq].
  split; [exact Hle|]. split; [exact Heq|].
  intros Hmode Hzero. specialize (Heq Hmode). rewrite Hzero in Heq.
  unfold unaccounted in Heq. cbn in Heq. lia.
Qed.

End Accounting.

(* ===================================================================== *)
(** ** What the conflict loop touches                                     *)
(* ===================================================================== *)

Section Conflicts.
Context {os : OS}.
Variable args : Args.

Lemma issues_weaken {A : Type} (P Q : syscall -> Prop) (m : M os A) :
  (forall c, P c -> Q c) -> issues P m -> issues Q m.
Proof.
  intros HPQ Hm w. destruct (Hm w) as (l & Hcalls & Hall & Hdisk).
  exists l. split; [exact Hcalls|]. split; [|exact Hdisk].
  revert Hall. apply Forall_impl. exact HPQ.
Qed.

Lemma issues_for_each_in {A : Type} (P : syscall -> Prop) (xs : list A)
    (body : A -> M os (option Z)) :
  (forall x, In x xs -> issues P (body x)) -> issues P (for_each xs body).
Proof.
  induction xs as [|x xs IH]; intros Hbody; cbn [for_each].
  - apply issues_ret.
  - apply issues_bind; [apply Hbody; now left|].
    intros [status|]; [apply issues_ret|].
    apply IH. intros y Hy. apply Hbody. now right.
Qed.

(** [set(dest_list) - set(source_list)]: the names of the destination
    that the source does not have, each of them once. *)
Lemma conflicts_spec dest_list source_list name :
  In name (conflicts dest_list source_list)
  <-> In name dest_list /\ ~ In name source_list.
Proof.
  unfold conflicts. rewrite nodup_In, filter_In, negb_true_iff.
  split; intros [Hin Hnot]; split; auto.
  - intros Hsrc.
    assert (Hex : existsb (String.eqb name) source_list = true).
    { apply existsb_exists. exists name. split; [exact Hsrc|].
      apply String.eqb_refl. }
    congruence.
  - destruct (existsb (String.eqb name) source_list) eqn:Hex; [|reflexivity].
    apply existsb_exists in Hex as (other & Hother & Heq).
    apply String.eqb_eq in Heq. subst other. contradiction.
Qed.

Lemma remove_read_only_run name (w : world os) :
  exists r d',
    remove_read_only name w
    = (Done r, mk_world (info w) d' (CChmod name Stat.S_IWRITE :: calls w)).
Proof.
  unfold remove_read_only, chmod, writing.
  destruct (os_chmod os (disk w) name Stat.S_IWRITE) as [r d'].
  now exists r, d'.
Qed.

Lemma issues_rmtree (P : syscall -> Prop) p :
  P (CRmtree p) -> (forall failed, P (CChmod failed Stat.S_IWRITE)) ->
  issues (os := os) P (rmtree remove_read_only p).
Proof.
  intros Hrmtree Hchmod.
  assert (Hhandling : forall k (w : world os), exists issued,
             calls (snd (handling remove_read_only k w))
             = (issued ++ calls w)%list /\ Forall P issued).
  { induction k as [r d|failed d resume IH]; intros w.
    - exists []. split; [reflexivity | constructor].
    - cbn [handling]. unfold bind.
      destruct (remove_read_only_run failed (mk_world (info w) d (calls w)))
        as (r & d' & ->). cbn [info disk calls].
      destruct r as [u|e].
      + destruct (IH d' (mk_world (info w) d'
                           (CChmod failed Stat.S_IWRITE :: calls w)))
          as (issued & Hcalls & Hall).
        exists (issued ++ [CChmod failed Stat.S_IWRITE])%list.
        cbn [disk] in *. rewrite Hcalls. cbn [calls].
        rewrite <- app_assoc. split; [reflexivity|].
        apply Forall_app. split; [exact Hall|]. constructor; auto.
      + exists [CChmod failed Stat.S_IWRITE]. split; [reflexivity|].
        constructor; auto. }
  intros w. unfold rmtree.
  destruct (Hhandling (shutil_rmtree os (disk w) p)
              (mk_world (info w) (disk w) (CRmtree p :: calls w)))
    as (issued & Hcalls & Hall).
  exists (issued ++ [CRmtree p])%list. rewrite Hcalls. cbn.
  rewrite <- app_assoc. split; [reflexivity|]. split.
  - apply Forall_app. split; [exact Hall|]. constructor; auto.
  - intros Hquiet. apply Forall_app in Hquiet as [_ Hquiet].
    inversion Hquiet as [|? ? Hhead]. discriminate Hhead.
Qed.

Lemma resolve_conflict_calls ap cdp cap name :
  issues (conflict_call args cdp cap name)
    (resolve_conflict args ap cdp cap name).
Proof.
  assert (Hreads : forall c, is_mutation c = false ->
                             conflict_call args cdp cap name c).
  { intros c Hc. now left. }
  unfold resolve_conflict, then_in_body, path_exists, path_isdir,
    chmod, makedirs, move, remove.
  destruct (conflictmode args =? 0) eqn:H0.
  { apply issues_bind; [now apply issues_new_StatHelper|]. intros _.
    apply issues_bind; [apply issues_bump | intros _; apply issues_ret]. }
  apply Z.eqb_neq in H0.
  destruct (conflictmode args =? 1) eqn:H1;
    [apply Z.eqb_eq in H1 | apply Z.eqb_neq in H1];
    repeat first
      [ apply issues_ret | apply issues_raise | apply issues_lift
      | apply issues_bump
      | apply issues_new_StatHelper; exact Hreads
      | apply issues_rmtree;
        [ unfold conflict_call; cbn zeta; tauto
        | intros failed; unfold conflict_call; cbn zeta;
          do 3 right; repeat split; auto; do 2 right; now exists failed ]
      | apply issues_bind; [ | intros ? ]
      | match goal with
        | |- issues _ (reading _ _) =>
            apply issues_reading; [exact Hreads | reflexivity]
        | |- issues _ (writing _ _) =>
            apply issues_writing;
            [unfold conflict_call; cbn zeta; intuition | reflexivity]
        | |- issues _ (if ?b then _ else _) => destruct b
        | |- issues _ (match ?x with _ => _ end) => destruct x
        end ].
Qed.


End Conflicts.

(* ===================================================================== *)
(** ** Refusals and failures                                              *)
(* ===================================================================== *)

Section Refusals.
Context {os : OS}.
Variable args : Args.

(** A missing source folder: the run returns 1 after the one existence
    test, whatever the rest of the configuration (lines 398-402). *)
Theorem missing_source_aborts fuel w :
  os_path_exists os (disk w) (os_path_abspath os (source args)) = false ->
  sibackup args fuel w
  = (Done 1, after_call (CExists (os_path_abspath os (source args))) w).
Proof.
  intros Hmissing. unfold sibackup, bind, path_exists, reading.
  rewrite Hmissing. reflexivity.
Qed.

(** A source folder that cannot be listed ([os.listdir] raises
    [PermissionError], lines 234-240): the call returns 0, after the
    destination folder has been ensured, and nothing of the destination
    is listed or resolved. *)
Theorem unreadable_source_folder_is_skipped fuel sp dp ap cf d w w1 :
  too_deep args d = false ->
  ensure_dest_folder args (Path.join dp cf) w = (Done None, w1) ->
  os_listdir os (disk w1) (Path.join sp cf) = Raise PermissionError ->
  copy_folder args (S fuel) sp dp ap cf d w
  = (Done 0, after_call (CListdir (Path.join sp cf)) w1).
Proof.
  intros Hdeep Hensure Hsource.
  assert (Hlist : list_children args (Path.join sp cf) (Path.join dp cf) w1
            = (Done (inr 0), after_call (CListdir (Path.join sp cf)) w1)).
  { unfold list_children, listdir, reading, bind. cbn.
    rewrite Hsource. reflexivity. }
  rewrite copy_folder_S, Hdeep. unfold enter_folder.
  unfold bind at 1. unfold bind at 1. rewrite Hensure.
  unfold bind at 1. rewrite Hlist. reflexivity.
Qed.

(** A destination folder that cannot be listed for lack of permission:
    only [FileNotFoundError] is caught at lines 241-253, so
    [PermissionError] leaves [copy_folder] uncaught. *)
Theorem denied_destination_listing_is_uncaught
    fuel sp dp ap cf d w w1 source_list :
  too_deep args d = false ->
  ensure_dest_folder args (Path.join dp cf) w = (Done None, w1) ->
  os_listdir os (disk w1) (Path.join sp cf) = Ok source_list ->
  os_listdir os (disk w1) (Path.join dp cf) = Raise PermissionError ->
  copy_folder args (S fuel) sp dp ap cf d w
  = (Uncaught PermissionError,
     after_call (CListdir (Path.join dp cf))
       (after_call (CListdir (Path.join sp cf)) w1)).
Proof.
  intros Hdeep Hensure Hsource Hdest.
  assert (Hlist : list_children args (Path.join sp cf) (Path.join dp cf) w1
            = (Uncaught PermissionError,
               after_call (CListdir (Path.join dp cf))
                 (after_call (CListdir (Path.join sp cf)) w1))).
  { unfold list_children, listdir, reading, bind. cbn.
    rewrite Hsource. cbn. rewrite Hdest. reflexivity. }
  rewrite copy_folder_S, Hdeep. unfold enter_folder.
  unfold bind at 1. unfold bind at 1. rewrite Hensure.
  unfold bind at 1. rewrite Hlist. reflexivity.
Qed.

(** A name that the listing of the source folder gave but [os.stat] does
    not find (a dangling link, or an entry removed meanwhile):
    [StatHelper.__init__] sets no [stats], [has_permission()] is true, and
    [isdir()] at line 342 raises [AttributeError], which nothing
    catches. *)
Theorem vanished_source_entry_is_uncaught recurse csp cdp cf item w :
  os_stat os (disk w) (Path.join csp item) = Raise FileNotFoundError ->
  process_source_item args recurse csp cdp cf item w
  = (Uncaught AttributeError, after_call (CStat (Path.join csp item)) w).
Proof.
  intros Hprobe. unfold process_source_item.
  unfold bind at 1. rewrite new_StatHelper_run, Hprobe. reflexivity.
Qed.

(** A file that is new to the destination and whose copy is refused
    ([shutil.copy2] raises [PermissionError] or [FileNotFoundError],
    lines 196-203): the file is counted as not copied and as processed,
    no other counter moves, and the loop goes on. *)
Theorem refused_copy_is_counted cdp item ps s w e d' :
  simulate args = false ->
  os_stat os (disk w) (Path.join cdp item) = Raise FileNotFoundError ->
  shutil_copy2 os (disk w) ps (Path.join cdp item) = (Raise e, d') ->
  e = PermissionError \/ e = FileNotFoundError ->
  process_file args cdp item (probed ps s) w
  = (Done tt,
     mk_world (add_num_processed 1 (add_not_copied 1 (info w))) d'
       (CCopy2 ps (Path.join cdp item)
          :: CStat (Path.join cdp item) :: calls w)).
Proof.
  intros Hsim Hprobe Hcopy He.
  rewrite (process_file_run args cdp item ps s None w Hprobe).
  unfold spec_should_copy, copy_file. rewrite Hsim. cbn [negb].
  unfold bind, copy2, writing. cbn. rewrite Hcopy.
  destruct He as [-> | ->]; reflexivity.
Qed.

(** Any other failure of [shutil.copy2] (an [OSError] such as a full
    disk) is not caught by [copy_file] and ends the run. *)
Theorem failed_copy_is_uncaught src dst w detail d' :
  simulate args = false ->
  shutil_copy2 os (disk w) (path_name src) (path_name dst)
    = (Raise (OSError detail), d') ->
  copy_file args src dst w
  = (Uncaught (OSError detail),
     mk_world (info w) d'
       (CCopy2 (path_name src) (path_name dst) :: calls w)).
Proof.
  intros Hsim Hcopy. unfold copy_file. rewrite Hsim. cbn [negb].
  unfold bind, copy2, writing. rewrite Hcopy. reflexivity.
Qed.

(** Conflict mode 1: when the archive folder of the current folder cannot
    be created for lack of permission (lines 284-293), the conflict loop
    returns 0 from [copy_folder]: the conflict is not moved, the
    conflicts after it are not looked at, and no source entry of the
    folder is processed. *)
Theorem refused_archive_folder_ends_folder
    fuel sp dp ap cf d w w1 w2 source_list dest_list item rest s d' :
  too_deep args d = false ->
  conflictmode args = 1 ->
  simulate args = false ->
  ensure_dest_folder args (Path.join dp cf) w = (Done None, w1) ->
  list_children args (Path.join sp cf) (Path.join dp cf) w1
    = (Done (inl (source_list, dest_list)), w2) ->
  conflicts dest_list source_list = item :: rest ->
  os_stat os (disk w2) (Path.join (Path.join dp cf) item) = Ok s ->
  Z.land (st_mode s) Stat.S_IWRITE <> 0 ->
  Path.join (Path.join dp cf) item <> ap ->
  os_path_exists os (disk w2) (Path.join ap cf) = false ->
  os_makedirs os (disk w2) (Path.join ap cf) = (Raise PermissionError, d') ->
  copy_folder args (S fuel) sp dp ap cf d w
  = (Done 0,
     mk_world (info w2) d'
       (CMakedirs (Path.join ap cf) :: CExists (Path.join ap cf)
          :: CStat (Path.join (Path.join dp cf) item) :: calls w2)).
Proof.
  intros Hdeep Hmode Hsim Hensure Hlist Hconf Hstat Hwrite Hguard
    Hexists Hmake.
  rewrite copy_folder_S, Hdeep. unfold enter_folder.
  unfold bind at 1. unfold bind at 1. rewrite Hensure.
  unfold bind at 1. rewrite Hlist, Hconf.
  unfold bind at 1. rewrite for_each_cons.
  unfold resolve_conflict. unfold bind at 1.
  rewrite new_StatHelper_run, Hstat. cbn [SH.init lift ret].
  rewrite Hmode, Hsim. cbn [Z.eqb Pos.eqb negb].
  apply Z.eqb_neq in Hwrite.
  apply String.eqb_neq in Hguard.
  unfold bind, then_in_body, path_exists, makedirs, reading, writing,
    SH.haswrite, rmap, attr, lift, ret. cbn.
  rewrite Hwrite. cbn. rewrite Hguard. cbn. rewrite Hexists. cbn.
  unfold bind. cbn. rewrite Hmake. reflexivity.
Qed.

(** Conflict modes other than 0: the mode of a conflict without the
    owner's write bit is reset with [os.chmod] outside any [try] (line
    276); when that call is refused the exception leaves the run. *)
Theorem refused_mode_reset_is_uncaught ap cdp cap item s w e d' :
  conflictmode args <> 0 ->
  os_stat os (disk w) (Path.join cdp item) = Ok s ->
  Z.land (st_mode s) Stat.S_IWRITE = 0 ->
  os_chmod os (disk w) (Path.join cdp item) Stat.S_IWRITE = (Raise e, d') ->
  resolve_conflict args ap cdp cap item w
  = (Uncaught e,
     mk_world (info w) d'
       (CChmod (Path.join cdp item) Stat.S_IWRITE
          :: CStat (Path.join cdp item) :: calls w)).
Proof.
  intros Hmode Hstat Hwrite Hchmod.
  apply Z.eqb_neq in Hmode.
  unfold resolve_conflict. unfold bind at 1.
  rewrite new_StatHelper_run, Hstat. cbn [SH.init lift ret].
  rewrite Hmode.
  unfold bind, chmod, writing, SH.haswrite, rmap, attr, lift, ret, raise.
  cbn. rewrite Hwrite. cbn. rewrite Hchmod. reflexivity.
Qed.

End Refusals.

(* ===================================================================== *)
(** ** The summary                                                        *)
(* ===================================================================== *)

Section Summary.
Context {os : OS}.
Variable args : Args.

Lemma report_done (w w' : world os) :
  report w = (Done tt, w') ->
  w' = w /\
  (no_file_counted (info w) \/ size_copied (info w) + size_skipped (info w) <> 0).
Proof.
  unfold report, no_file_counted.
  destruct (num_copied (info w) =? 0) eqn:Hcopied;
    destruct (num_skipped (info w) =? 0) eqn:Hskipped;
    destruct (size_copied (info w) + size_skipped (info w) =? 0) eqn:Htotal;
    cbn; intros H; inversion H; subst; split; try reflexivity;
    try (right; now apply Z.eqb_neq);
    left; split; now apply Z.eqb_eq.
Qed.

Lemma report_divides_by_zero (w : world os) :
  fst (report w) = Uncaught ZeroDivisionError
  <-> ~ no_file_counted (info w)
      /\ size_copied (info w) + size_skipped (info w) = 0.
Proof.
  unfold report, no_file_counted.
  destruct (num_copied (info w) =? 0) eqn:Hcopied;
    destruct (num_skipped (info w) =? 0) eqn:Hskipped;
    destruct (size_copied (info w) + size_skipped (info w) =? 0) eqn:Htotal;
    cbn;
    repeat match goal with
           | H : (_ =? _) = true |- _ => apply Z.eqb_eq in H
           | H : (_ =? _) = false |- _ => apply Z.eqb_neq in H
           end;
    split; try discriminate; try tauto; intros _; tauto.
Qed.

Lemma create_root_counts_no_file p (w w' : world os) r :
  create_root args p w = (Done r, w') ->
  num_copied (info w') = num_copied (info w) /\
  num_skipped (info w') = num_skipped (info w).
Proof.
  unfold create_root, makedirs, writing, bind, bump, ret, raise.
  destruct (simulate args); cbn [negb].
  - intros H. inversion H. subst. cbn. auto.
  - destruct (os_makedirs os (disk w) p) as [[u|e] d'].
    + intros H. inversion H. subst. cbn. auto.
    + destruct e; intros H; inversion H; subst; cbn; auto.
Qed.

Lemma path_exists_run p (w w' : world os) present :
  path_exists p w = (Done present, w') -> info w' = info w.
Proof.
  unfold path_exists, reading. intros H. inversion H. reflexivity.
Qed.

(** A run of [sibackup()] that returns has not counted files without
    bytes: either no file is counted as copied or skipped, or the bytes
    copied and skipped are not zero in total.  In the other case the
    percentages of the summary (lines 468-485) divide by zero, and the
    run ends with [ZeroDivisionError] after all the copying is done. *)
Theorem returned_summary_has_bytes fuel w status w' :
  no_file_counted (info w) ->
  sibackup args fuel w = (Done status, w') ->
  no_file_counted (info w')
  \/ size_copied (info w') + size_skipped (info w') <> 0.
Proof.
  intros [Hcopied Hskipped] H. unfold sibackup, unless_returned in H.
  apply bind_inv in H as (source_present & w1 & Hsource & H).
  apply path_exists_run in Hsource.
  destruct (negb source_present).
  { inversion H. subst. left. unfold no_file_counted.
    rewrite Hsource. auto. }
  apply bind_inv in H as (dest_present & w2 & Hdest & H).
  apply path_exists_run in Hdest.
  apply bind_inv in H as (created & w3 & Hcreated & H).
  assert (Hroot : num_copied (info w3) = 0 /\ num_skipped (info w3) = 0).
  { destruct (negb dest_present).
    - apply create_root_counts_no_file in Hcreated.
      rewrite Hdest, Hsource in Hcreated. lia.
    - inversion Hcreated. subst. rewrite Hdest, Hsource. auto. }
  destruct created as [early|].
  { inversion H. subst. now left. }
  destruct (negative_depth args); [inversion H; subst; now left|].
  destruct (negb (valid_copymode args)); [inversion H; subst; now left|].
  destruct (negb (valid_conflictmode args)); [inversion H; subst; now left|].
  apply bind_inv in H as (archived & w4 & Harchive & H).
  destruct archived as [early|].
  { inversion H. subst. left.
    destruct (conflictmode args =? 1).
    - apply bind_inv in Harchive as (present & w5 & Hpresent & Harchive).
      apply path_exists_run in Hpresent.
      destruct (negb present).
      + apply create_root_counts_no_file in Harchive.
        rewrite Hpresent in Harchive. unfold no_file_counted. lia.
      + inversion Harchive.
    - inversion Harchive. }
  apply bind_inv in H as (folder_status & w5 & Hfolder & H).
  apply bind_inv in H as ([] & w6 & Hreport & H).
  apply report_done in Hreport as [-> Hbytes].
  inversion H. subst. exact Hbytes.
Qed.

End Summary.

(* ===================================================================== *)
(** ** A destination folder that is gone when it is listed                *)
(* ===================================================================== *)

Section Vanishing.
Context {os : OS}.
Variable args : Args.

Lemma report_run (w : world os) :
  report w
  = (if summary_divides_by_zero (info w)
     then Uncaught ZeroDivisionError else Done tt, w).
Proof.
  unfold report, summary_divides_by_zero.
  destruct (num_copied (info w) =? 0);
    destruct (num_skipped (info w) =? 0);
    destruct (size_copied (info w) + size_skipped (info w) =? 0);
    reflexivity.
Qed.

(** [sibackup()] is what comes before the traversal, the traversal and
    the summary. *)
Lemma sibackup_from_traversal fuel (w w0 : world os) :
  before_traversal args w = (Done None, w0) ->
  sibackup args fuel w
  = (status <- copy_folder args fuel
                 (os_path_abspath os (source args))
                 (os_path_abspath os (destination args))
                 (Path.join (os_path_abspath os (destination args))
                            (archivepath args)) "" 0 ;;
     report ;;
     ret status)%prog w0.
Proof.
  unfold before_traversal, sibackup, unless_returned, then_in_body.
  intros H.
  apply bind_inv in H as (source_present & w1 & Hsource & H).
  rewrite (bind_done _ _ _ _ _ Hsource).
  destruct (negb source_present); [discriminate H|].
  apply bind_inv in H as (dest_present & w2 & Hdest & H).
  rewrite (bind_done _ _ _ _ _ Hdest).
  apply bind_inv in H as (created & w3 & Hcreated & H).
  rewrite (bind_done _ _ _ _ _ Hcreated).
  destruct created as [status|]; [discriminate H|].
  destruct (negative_depth args); [discriminate H|].
  destruct (negb (valid_copymode args)); [discriminate H|].
  destruct (negb (valid_conflictmode args)); [discriminate H|].
  rewrite (bind_done _ _ _ _ _ H). reflexivity.
Qed.

Lemma vanished_destination_returns_1 fuel sp dp ap cf d (w w' : world os) :
  simulate args = false ->
  destination_vanishes args sp dp ap fuel cf d w w' ->
  copy_folder args fuel sp dp ap cf d w = (Done 1, w').
Proof.
  intros Hsim Hvanishes.
  induction Hvanishes
    as [fuel cf d w w1 source_list Hdeep Hensure Hsource Hdest
       |fuel cf d w w1 w2 w' pre item rest s Hdeep Henter Hpre Hstat Hdir
          Hbelow IH].
  - destruct (missing_destination_listing args fuel sp dp ap cf d w w1
                source_list Hdeep Hensure Hsource Hdest) as [_ Hrun].
    rewrite Hrun, Hsim. reflexivity.
  - rewrite (copy_folder_at_entry _ _ _ _ _ _ _ _ _ _ _ _ _ Hdeep Henter Hpre).
    unfold unless_returned, bind at 1. rewrite for_each_cons.
    rewrite (directory_item_recurses _ _ _ _ _ _ _ _ Hstat Hdir).
    unfold bind at 1. rewrite IH. reflexivity.
Qed.


End Vanishing.

(* ===================================================================== *)
(** ** The archive root among the conflicts                               *)
(* ===================================================================== *)

Section Trees.

Lemma inodes_Dir st es :
  TreeFS.inodes (TreeFS.Dir st es) = st_ino st :: TreeFS.entries_inodes es.
Proof.
  cbn. f_equal. induction es as [|[name child] es IH]; [reflexivity|].
  cbn. now rewrite IH.
Qed.

Lemma distinct_NoDup l : TreeFS.distinct l = true -> NoDup l.
Proof.
  induction l as [|x l IH]; cbn; [constructor|].
  intros H. apply andb_true_iff in H as [Hx Hl]. constructor; [|auto].
  intros Hin. apply negb_true_iff in Hx.
  assert (existsb (Z.eqb x) l = true).
  { apply existsb_exists. exists x. split; [exact Hin | apply Z.eqb_refl]. }
  congruence.
Qed.

Lemma NoDup_app_disjoint {A} (l1 l2 : list A) x :
  NoDup (l1 ++ l2) -> In x l1 -> In x l2 -> False.
Proof.
  induction l1 as [|a l1 IH]; cbn; [contradiction|].
  intros Hnd [->|Hin] Hin2; inversion Hnd as [|? ? Hnot Hnd']; subst.
  - apply Hnot. apply in_or_app. now right.
  - now apply IH.
Qed.

Lemma NoDup_app_l {A} (l1 l2 : list A) : NoDup (l1 ++ l2) -> NoDup l1.
Proof.
  induction l1 as [|a l1 IH]; cbn; [constructor|].
  intros Hnd. inversion Hnd as [|? ? Hnot Hnd']; subst. constructor.
  - intros Hin. apply Hnot. apply in_or_app. now left.
  - now apply IH.
Qed.

Lemma NoDup_app_r {A} (l1 l2 : list A) : NoDup (l1 ++ l2) -> NoDup l2.
Proof.
  induction l1 as [|a l1 IH]; cbn; [auto|].
  intros Hnd. inversion Hnd. auto.
Qed.

Lemma found_entry_inodes c es child x :
  TreeFS.find_entry c es = Some child ->
  In x (TreeFS.inodes child) -> In x (TreeFS.entries_inodes es).
Proof.
  induction es as [|[k m] es IH]; cbn; [discriminate|].
  destruct (String.eqb k c).
  - intros H Hin. inversion H. subst. apply in_or_app. now left.
  - intros H Hin. apply in_or_app. right. now apply IH.
Qed.

Lemma found_entry_NoDup c es child :
  TreeFS.find_entry c es = Some child ->
  NoDup (TreeFS.entries_inodes es) -> NoDup (TreeFS.inodes child).
Proof.
  induction es as [|[k m] es IH]; cbn; [discriminate|].
  destruct (String.eqb k c).
  - intros H Hnd. inversion H. subst. now apply NoDup_app_l in Hnd.
  - intros H Hnd. apply NoDup_app_r in Hnd. now apply IH.
Qed.

Lemma found_entries_apart c1 c2 es ch1 ch2 x :
  c1 <> c2 ->
  TreeFS.find_entry c1 es = Some ch1 -> TreeFS.find_entry c2 es = Some ch2 ->
  NoDup (TreeFS.entries_inodes es) ->
  In x (TreeFS.inodes ch1) -> In x (TreeFS.inodes ch2) -> False.
Proof.
  intros Hneq. induction es as [|[k m] es IH]; cbn; [discriminate|].
  destruct (String.eqb k c1) eqn:H1; destruct (String.eqb k c2) eqn:H2.
  - apply String.eqb_eq in H1, H2. congruence.
  - intros E1 E2 Hnd Hx1 Hx2. inversion E1. subst.
    apply (NoDup_app_disjoint _ _ x Hnd Hx1).
    now apply (found_entry_inodes c2 es ch2).
  - intros E1 E2 Hnd Hx1 Hx2. inversion E2. subst.
    apply (NoDup_app_disjoint _ _ x Hnd Hx2).
    now apply (found_entry_inodes c1 es ch1).
  - intros E1 E2 Hnd. apply IH; auto. now apply NoDup_app_r in Hnd.
Qed.

Lemma lookup_cons n c cs m :
  TreeFS.lookup n (c :: cs) = Ok m ->
  exists st es child,
    n = TreeFS.Dir st es /\ TreeFS.find_entry c es = Some child /\
    TreeFS.lookup child cs = Ok m.
Proof.
  cbn. destruct n as [st content|st es]; [discriminate|].
  destruct (negb (TreeFS.has_bit st Stat.S_IEXEC)); [discriminate|].
  destruct (TreeFS.find_entry c es) as [child|] eqn:Hfind; [|discriminate].
  intros H. now exists st, es, child.
Qed.

Lemma lookup_inode_in cs : forall n m,
  TreeFS.lookup n cs = Ok m ->
  In (st_ino (TreeFS.node_stat m)) (TreeFS.inodes n).
Proof.
  induction cs as [|c cs IH]; intros n m H.
  - cbn in H. inversion H. subst. destruct m; now left.
  - apply lookup_cons in H as (st & es & child & -> & Hfind & Hchild).
    rewrite inodes_Dir. right.
    apply (found_entry_inodes c es child _ Hfind). now apply IH.
Qed.

(** In a tree whose entries all have an inode number of their own, two
    paths that reach entries with the same number are the same path. *)
Lemma same_inode_same_path cs1 : forall n cs2 m1 m2,
  NoDup (TreeFS.inodes n) ->
  TreeFS.lookup n cs1 = Ok m1 -> TreeFS.lookup n cs2 = Ok m2 ->
  st_ino (TreeFS.node_stat m1) = st_ino (TreeFS.node_stat m2) ->
  cs1 = cs2.
Proof.
  induction cs1 as [|c1 cs1 IH]; intros n cs2 m1 m2 Hnd H1 H2 Hino.
  - destruct cs2 as [|c2 cs2]; [reflexivity|]. exfalso.
    cbn in H1. inversion H1. subst m1.
    apply lookup_cons in H2 as (st & es & child & -> & Hfind & Hchild).
    rewrite inodes_Dir in Hnd. inversion Hnd as [|? ? Hnot _]. subst.
    apply Hnot. cbn in Hino. rewrite Hino.
    apply (found_entry_inodes c2 es child _ Hfind).
    now apply lookup_inode_in with (cs := cs2).
  - apply lookup_cons in H1 as (st & es & ch1 & -> & Hfind1 & Hch1).
    rewrite inodes_Dir in Hnd. inversion Hnd as [|? ? Hnot Hnd']. subst.
    destruct cs2 as [|c2 cs2].
    + exfalso. cbn in H2. inversion H2. subst m2. cbn in Hino.
      apply Hnot. rewrite <- Hino.
      apply (found_entry_inodes c1 es ch1 _ Hfind1).
      now apply lookup_inode_in with (cs := cs1).
    + apply lookup_cons in H2 as (st2 & es2 & ch2 & E & Hfind2 & Hch2).
      inversion E. subst st2 es2.
      destruct (string_dec c1 c2) as [->|Hneq].
      * rewrite Hfind1 in Hfind2. inversion Hfind2. subst ch2. f_equal.
        apply (IH ch1 cs2 m1 m2); auto.
        now apply (found_entry_NoDup c2 es ch1).
      * exfalso.
        apply (found_entries_apart c1 c2 es ch1 ch2
                 (st_ino (TreeFS.node_stat m1))
                 Hneq Hfind1 Hfind2 Hnd').
        -- now apply lookup_inode_in with (cs := cs1).
        -- rewrite Hino. now apply lookup_inode_in with (cs := cs2).
Qed.

(** *** The TreeFS.components of a joined path *)

Lemma split_nonempty p : forall cur, TreeFS.split p cur <> [].
Proof.
  induction p as [|c p IH]; intros cur; cbn; [discriminate|].
  destruct (Ascii.eqb c Path.sep); [discriminate | apply IH].
Qed.

Lemma split_String c p cur :
  TreeFS.split (String c p) cur
  = if Ascii.eqb c Path.sep then cur :: TreeFS.split p ""
    else TreeFS.split p (cur ++ String c "").
Proof. reflexivity. Qed.

Lemma split_append a b : forall cur,
  TreeFS.split (a ++ b) cur
  = (removelast (TreeFS.split a cur)
     ++ TreeFS.split b (last (TreeFS.split a cur) ""))%list.
Proof.
  induction a as [|c a IH]; intros cur; [reflexivity|].
  cbn [append]. rewrite !split_String. destruct (Ascii.eqb c Path.sep).
  - rewrite IH.
    pose proof (split_nonempty a "") as Hne.
    destruct (TreeFS.split a "") as [|x l] eqn:E; [contradiction|].
    reflexivity.
  - apply IH.
Qed.

Lemma split_endswith_sep a : forall cur,
  Path.endswith_sep a = true -> last (TreeFS.split a cur) "" = "".
Proof.
  induction a as [|c a IH]; intros cur H; [discriminate|].
  destruct a as [|c' a'].
  - cbn in H. cbn. rewrite H. reflexivity.
  - assert (Ha : Path.endswith_sep (String c' a') = true) by exact H.
    rewrite split_String. destruct (Ascii.eqb c Path.sep).
    + pose proof (split_nonempty (String c' a') "") as Hne.
      specialize (IH "" Ha).
      destruct (TreeFS.split (String c' a') "") as [|x l] eqn:E;
        [contradiction|].
      exact IH.
    + now apply IH.
Qed.

Lemma components_filter p :
  TreeFS.components p = filter TreeFS.kept (TreeFS.split p "").
Proof. reflexivity. Qed.

Lemma components_join a b :
  Path.startswith_sep b = false ->
  TreeFS.components (Path.join a b)
  = (TreeFS.components a ++ TreeFS.components b)%list.
Proof.
  intros Hb. unfold Path.join. rewrite Hb.
  destruct a as [|ca a]; [reflexivity|].
  cbn [String.eqb orb].
  destruct (Path.endswith_sep (String ca a)) eqn:Hend.
  - rewrite !components_filter, split_append, filter_app.
    rewrite (split_endswith_sep _ "" Hend).
    pose proof (split_nonempty (String ca a) "") as Hne.
    rewrite (app_removelast_last "" Hne) at 2.
    rewrite (split_endswith_sep _ "" Hend), filter_app. cbn.
    now rewrite app_nil_r.
  - rewrite !components_filter, split_append, filter_app.
    pose proof (split_nonempty (String ca a) "") as Hne.
    change (TreeFS.split ("/" ++ b) (last (TreeFS.split (String ca a) "") ""))
      with (last (TreeFS.split (String ca a) "") "" :: TreeFS.split b "").
    rewrite (app_removelast_last "" Hne) at 3.
    rewrite filter_app. cbn [filter]. rewrite <- app_assoc.
    destruct (TreeFS.kept (last (TreeFS.split (String ca a) "") ""));
      reflexivity.
Qed.

Lemma is_prefix_app cs rest : TreeFS.is_prefix cs (cs ++ rest) = true.
Proof.
  induction cs as [|c cs IH]; [reflexivity|].
  cbn. now rewrite String.eqb_refl, IH.
Qed.

Lemma is_prefix_app_r a b rest :
  TreeFS.is_prefix a b = true -> TreeFS.is_prefix a (b ++ rest) = true.
Proof.
  revert b. induction a as [|x a IH]; intros b H; [reflexivity|].
  destruct b as [|y b]; [discriminate|]. cbn in *.
  apply andb_true_iff in H as [Hxy Hab]. now rewrite Hxy, IH.
Qed.

(** [shutil.move] of an entry to a place at or below itself changes
    nothing. *)
Lemma move_into_itself d src dst :
  TreeFS.is_prefix (TreeFS.components src) (TreeFS.components dst) = true ->
  snd (TreeFS.move d src dst) = d.
Proof.
  intros Hprefix. unfold TreeFS.move.
  destruct (TreeFS.isdir d dst
            && TreeFS.same_path (TreeFS.components src)
                 (TreeFS.components dst))%bool.
  { destruct (TreeFS.exists_ d src); reflexivity. }
  match goal with
  | |- context [if (TreeFS.isdir d dst && ?found)%bool then _ else _] =>
      destruct (TreeFS.isdir d dst && found)%bool; [reflexivity|]
  end.
  destruct (TreeFS.lookup (TreeFS.root d) (TreeFS.components src))
    as [moved|e]; [|reflexivity].
  match goal with
  | |- context [TreeFS.is_prefix (TreeFS.components src) ?target] =>
      assert (Htarget : TreeFS.is_prefix (TreeFS.components src) target = true)
  end.
  { destruct (TreeFS.isdir d dst);
      [now apply is_prefix_app_r | exact Hprefix]. }
  rewrite Htarget. reflexivity.
Qed.

End Trees.

Section ArchiveStep.
Context {os : OS}.
Variable args : Args.

(** Conflict mode 1 with a [shutil.move] that changes nothing: the file
    system after the step is the one before it, but for the mode reset
    and the creation of the archive folder. *)
Lemma archive_step_disk ap cdp cap name s (w : world os) :
  conflictmode args = 1 ->
  os_stat os (disk w) (Path.join cdp name) = Ok s ->
  (forall d, snd (shutil_move os d (Path.join cdp name) cap) = d) ->
  exists d1,
    (d1 = disk w
     \/ d1 = snd (os_chmod os (disk w) (Path.join cdp name) Stat.S_IWRITE)) /\
    (disk (snd (resolve_conflict args ap cdp cap name w)) = d1
     \/ disk (snd (resolve_conflict args ap cdp cap name w))
        = snd (os_makedirs os d1 cap)).
Proof.
  intros Hmode Hstat Hmove.
  remember (resolve_conflict args ap cdp cap name w) as run eqn:Hrun.
  unfold resolve_conflict in Hrun. rewrite Hmode in Hrun.
  change (1 =? 0) with false in Hrun. change (1 =? 1) with true in Hrun.
  cbv iota in Hrun.
  unfold bind at 1 in Hrun. rewrite new_StatHelper_run, Hstat in Hrun.
  cbn [SH.init lift ret] in Hrun.
  unfold bind at 1 in Hrun. cbn [SH.haswrite rmap attr stats lift ret] in Hrun.
  (* the archiving after the mode reset, from any world *)
  match type of Hrun with
  | context [bind _ (fun _ => ?tail)] =>
      assert (Htail : forall v : world os,
                 disk (snd (tail v)) = disk v
                 \/ disk (snd (tail v)) = snd (os_makedirs os (disk v) cap))
  end.
  { intros v.
    destruct (negb (Path.join cdp name =? ap)%string); [|now left].
    unfold then_in_body, path_exists, makedirs, move,
      reading, writing, bind, bump, ret, raise.
    cbn [disk info calls].
    destruct (negb (os_path_exists os (disk v) cap));
      destruct (negb (simulate args)); cbn [disk info calls];
      try (now left).
    - destruct (os_makedirs os (disk v) cap) as [r d2] eqn:Emk.
      cbn [snd]. destruct r as [u|e]; [|destruct e]; cbn [disk info calls];
        try (now right).
      pose proof (Hmove d2) as Hd2.
      destruct (shutil_move os d2 (Path.join cdp name) cap) as [r3 d3].
      cbn [snd] in Hd2. subst d3.
      destruct r3 as [u3|e3]; [|destruct e3]; now right.
    - pose proof (Hmove (disk v)) as Hd.
      destruct (shutil_move os (disk v) (Path.join cdp name) cap) as [r3 d3].
      cbn [snd] in Hd. subst d3.
      destruct r3 as [u3|e3]; [|destruct e3]; now left. }
  unfold bind at 1 in Hrun.
  destruct (Z.land (st_mode s) Stat.S_IWRITE =? 0).
  - unfold bind at 1 in Hrun. unfold chmod, writing in Hrun.
    cbn [disk info calls after_call] in Hrun.
    destruct (os_chmod os (disk w) (Path.join cdp name) Stat.S_IWRITE)
      as [r d0] eqn:Echmod.
    exists d0. split; [right; reflexivity|].
    destruct r as [u|e]; cbn [lift ret raise] in Hrun.
    + match type of Hrun with
      | run = _ ?v => destruct (Htail v) as [H|H]
      end; cbn [disk] in H; rewrite <- Hrun in H; [now left | now right].
    + subst run. now left.
  - exists (disk w). split; [now left|]. cbn [ret] in Hrun.
    match type of Hrun with
    | run = _ ?v => destruct (Htail v) as [H|H]
    end; cbn [disk after_call] in H; rewrite <- Hrun in H;
      [now left | now right].
Qed.

End ArchiveStep.


(* ===================================================================== *)
(** ** The paths of a nested call                                         *)
(* ===================================================================== *)

Section Paths.
#[local] Open Scope string_scope.

Lemma append_assoc (a b c : string) : ((a ++ b) ++ c = a ++ (b ++ c))%string.
Proof. induction a as [|ch a IH]; cbn; [reflexivity | now rewrite IH]. Qed.

Lemma append_empty_r (a : string) : (a ++ "" = a)%string.
Proof. induction a as [|ch a IH]; cbn; [reflexivity | now rewrite IH]. Qed.

Lemma endswith_sep_append (a : string) ch (b : string) :
  Path.endswith_sep (a ++ String ch b) = Path.endswith_sep (String ch b).
Proof.
  induction a as [|c a IH]; [reflexivity|].
  cbn [append]. rewrite <- IH.
  cbn [Path.endswith_sep]. destruct (a ++ String ch b)%string eqn:Happ;
    [destruct a; discriminate Happ | reflexivity].
Qed.

Lemma nonempty_append (a : string) ch (b : string) :
  (a ++ String ch b =? "")%string = false.
Proof. destruct a; reflexivity. Qed.

Lemma join_abs a c : Path.startswith_sep c = true -> Path.join a c = c.
Proof. intros H. unfold Path.join. now rewrite H. Qed.

Lemma join_rel a c : Path.startswith_sep c = false ->
  Path.join a c = if ((a =? "") || Path.endswith_sep a)%bool then a ++ c else a ++ "/" ++ c.
Proof. intros H. unfold Path.join. now rewrite H. Qed.

Lemma startswith_join a b : Path.startswith_sep (Path.join a b) =
  (Path.startswith_sep b || (Path.startswith_sep a))%bool.
Proof.
  unfold Path.join. destruct (Path.startswith_sep b) eqn:Hb; [exact Hb|].
  destruct a as [|ca a]; cbn [String.eqb orb append].
  - exact Hb.
  - destruct (Path.endswith_sep (String ca a)); reflexivity.
Qed.

(** [os.path.join(os.path.join(a, b), c) == os.path.join(a,
    os.path.join(b, c))] *)
Lemma join_assoc (a b c : string) :
  Path.join (Path.join a b) c = Path.join a (Path.join b c).
Proof.
  destruct (Path.startswith_sep c) eqn:Hc.
  { now rewrite !(join_abs _ c Hc). }
  destruct (Path.startswith_sep b) eqn:Hb.
  { rewrite (join_abs a b Hb).
    rewrite (join_abs a (Path.join b c)); [reflexivity|].
    rewrite startswith_join, Hb. apply orb_true_r. }
  rewrite (join_rel _ c Hc).
  destruct b as [|cb b].
  { rewrite (join_rel "" c Hc). cbn [String.eqb orb append].
    rewrite (join_rel a c Hc), (join_rel a "" Hb).
    destruct a as [|ca a]; [reflexivity|]. cbn [String.eqb orb].
    destruct (Path.endswith_sep (String ca a)) eqn:Ha.
    - now rewrite append_empty_r, Ha.
    - change ("/" ++ "") with (String "/" "").
      rewrite nonempty_append, endswith_sep_append.
      change (Path.endswith_sep (String "/" "")) with true.
      cbn [orb]. now rewrite append_assoc. }
  rewrite (join_rel (String cb b) c Hc). cbn [String.eqb orb].
  rewrite (join_rel a (String cb b) Hb).
  assert (Hrel : forall rest, Path.join a (String cb b ++ rest)
     = if ((a =? "") || Path.endswith_sep a)%bool then a ++ String cb b ++ rest else a ++ "/" ++ String cb b ++ rest).
  { intros rest. apply join_rel. exact Hb. }
  destruct (Path.endswith_sep (String cb b)) eqn:Hend; rewrite Hrel;
  destruct ((a =? "") || Path.endswith_sep a)%bool.
  all: try change (a ++ "/" ++ String cb b) with (a ++ String "/" (String cb b)).
  all: rewrite ?nonempty_append, ?endswith_sep_append.
  all: try change (Path.endswith_sep (String "/" (String cb b)))
         with (Path.endswith_sep (String cb b)).
  all: rewrite ?Hend; cbn [orb]; rewrite ?append_assoc; reflexivity.
Qed.

Context {os : OS}.
Variable args : Args.

(** The call of [copy_folder] that the loop makes for the sub-folder
    [item] of the folder [cf] (line 346) works on the entry the loop has
    probed: the source folder it lists is [os.path.join(
    current_source_path, item)], the path given to [StatHelper] at line
    330, and its destination and archive folders are the entries of that
    name in the caller's destination and archive folders. *)
Theorem nested_call_enters_probed_entry fuel sp dp ap cf item d w :
  copy_folder args (S fuel) sp dp ap (Path.join cf item) d w
  = if too_deep args d then (Done 0, w)
    else
      (entered <- enter_folder args ap
                    (Path.join (Path.join sp cf) item)
                    (Path.join (Path.join dp cf) item)
                    (Path.join (Path.join ap cf) item) ;;
       match entered with
       | inr status => ret status
       | inl source_list =>
           returning
             for_each source_list
               (process_source_item args
                  (fun sub => copy_folder args fuel sp dp ap sub (d + 1))
                  (Path.join (Path.join sp cf) item)
                  (Path.join (Path.join dp cf) item)
                  (Path.join cf item)) ;;
           ret 0
       end)%prog w.
Proof.
  rewrite copy_folder_S. rewrite !join_assoc.
  destruct (too_deep args d); reflexivity.
Qed.

End Paths.

(* ===================================================================== *)
(** ** The helpers of the report and of the command line                  *)
(* ===================================================================== *)

Section Helpers.

(** *** [StatHelper] *)

(** What a [StatHelper] answers after its probe: [has_permission()]
    always answers, and says no exactly after [PermissionError];
    [exists()] raises [AttributeError] exactly after [PermissionError];
    after a successful probe every accessor answers from the metadata,
    and a directory is no regular file; after a failed one every accessor
    of the metadata raises [AttributeError]. *)
Theorem stat_helper_after_probe p probe h :
  SH.init p probe = Ok h ->
  path_name h = p /\
  (exists allowed,
     SH.has_permission h = Ok allowed /\
     (allowed = false <-> probe = Raise PermissionError)) /\
  (SH.exists_ h = Raise AttributeError <-> probe = Raise PermissionError) /\
  (forall s, probe = Ok s ->
     SH.exists_ h = Ok true /\
     SH.getsize h = Ok (st_size s) /\
     SH.getmtime h = Ok (st_mtime s) /\
     SH.getmode h = Ok (st_mode s) /\
     SH.samestat h h = Ok true /\
     (SH.isdir h = Ok true -> SH.isfile h = Ok false)) /\
  ((forall s, probe <> Ok s) ->
     SH.isfile h = Raise AttributeError /\
     SH.isdir h = Raise AttributeError /\
     SH.getsize h = Raise AttributeError /\
     SH.getmtime h = Raise AttributeError /\
     SH.getmode h = Raise AttributeError /\
     SH.haswrite h = Raise AttributeError /\
     forall other, SH.samestat h other = Raise AttributeError).
Proof.
  intros Hinit. destruct probe as [s|e]; [|destruct e]; cbn in Hinit;
    inversion Hinit; subst; clear Hinit; cbn.
  - split; [reflexivity|]. split.
    { exists true. split; [reflexivity|]. split; discriminate. }
    split; [split; discriminate|]. split.
    + intros s' Hs. inversion Hs. subst s'.
      rewrite !Z.eqb_refl. repeat split.
      unfold Stat.S_ISDIR, Stat.S_ISREG. intros Hdir. inversion Hdir as [Hd].
      apply Z.eqb_eq in Hd. rewrite Hd. reflexivity.
    + intros Hnone. now elim (Hnone s).
  - split; [reflexivity|]. split.
    { exists false. split; [reflexivity|]. split; reflexivity. }
    split; [split; reflexivity|]. split; [discriminate|].
    intros _. repeat split.
  - split; [reflexivity|]. split.
    { exists true. split; [reflexivity|]. split; discriminate. }
    split; [split; discriminate|]. split; [discriminate|].
    intros _. repeat split.
Qed.

(** *** [Timer.format_time] *)

(** The four fields make up the duration again, and all but the hours
    are in the range of their unit, also for a negative duration. *)
Theorem time_fields_recompose temp :
  let f := Timer.split_time temp in
  temp = ((Timer.hours f * 60 + Timer.minutes f) * 60 + Timer.seconds f) * 1000
         + Timer.millis f /\
  0 <= Timer.minutes f < 60 /\
  0 <= Timer.seconds f < 60 /\
  0 <= Timer.millis f < 1000.
Proof.
  cbn.
  pose proof (Z.div_mod temp 1000 ltac:(lia)) as H1.
  pose proof (Z.div_mod (temp / 1000) 60 ltac:(lia)) as H2.
  pose proof (Z.div_mod (temp / 1000 / 60) 60 ltac:(lia)) as H3.
  pose proof (Z.mod_pos_bound temp 1000 ltac:(lia)).
  pose proof (Z.mod_pos_bound (temp / 1000) 60 ltac:(lia)).
  pose proof (Z.mod_pos_bound (temp / 1000 / 60) 60 ltac:(lia)).
  repeat split; lia.
Qed.

Lemma fills_with_zero_spec below check n :
  fills_with_zero below check = true ->
  0 <= n < Z.of_nat below -> check n = true.
Proof.
  intros Hall Hn. unfold fills_with_zero in Hall.
  rewrite forallb_forall in Hall.
  rewrite <- (Z2Nat.id n) by lia. apply Hall. apply in_seq. lia.
Qed.

Lemma two_digits n :
  0 <= n < 60 -> String.length (zero_filled 2 n) = 2%nat.
Proof.
  intros Hn. apply Nat.eqb_eq.
  apply (fills_with_zero_spec 60
           (fun n => Nat.eqb (String.length (zero_filled 2 n)) 2)).
  - vm_compute. reflexivity.
  - lia.
Qed.

Lemma four_digits n :
  0 <= n < 1000 ->
  zero_filled 4 n = String "0" (zero_filled 3 n) /\
  String.length (zero_filled 3 n) = 3%nat.
Proof.
  intros Hn.
  assert (Hcheck :
    ((zero_filled 4 n =? String "0" (zero_filled 3 n))%string
     && Nat.eqb (String.length (zero_filled 3 n)) 3)%bool = true).
  { apply (fills_with_zero_spec 1000
             (fun n => ((zero_filled 4 n =? String "0" (zero_filled 3 n))%string
                        && Nat.eqb (String.length (zero_filled 3 n)) 3)%bool)).
    - vm_compute. reflexivity.
    - lia. }
  apply andb_true_iff in Hcheck as [Heq Hlen].
  split; [now apply String.eqb_eq | now apply Nat.eqb_eq].
Qed.

(** The text of a duration is [H:MM:SS.0mmm]: minutes and seconds take
    two characters each, and the milliseconds, printed with [{:0>4d}],
    take four, the first of which is always ["0"]: 45 milliseconds are
    printed as [.0045]. *)
Theorem time_text_shape temp :
  exists h m s digits,
    Timer.format_time temp = (h ++ ":" ++ m ++ ":" ++ s ++ ".0" ++ digits)%string /\
    h = str_int (temp / 1000 / 60 / 60) /\
    String.length m = 2%nat /\ String.length s = 2%nat /\
    String.length digits = 3%nat.
Proof.
  destruct (time_fields_recompose temp) as (_ & Hm & Hs & Hms).
  cbn zeta in Hm, Hs, Hms.
  destruct (four_digits _ Hms) as [Hfour Hthree].
  exists (str_int (Timer.hours (Timer.split_time temp))),
         (zero_filled 2 (Timer.minutes (Timer.split_time temp))),
         (zero_filled 2 (Timer.seconds (Timer.split_time temp))),
         (zero_filled 3 (Timer.millis (Timer.split_time temp))).
  split; [|split; [reflexivity|]].
  - unfold Timer.format_time. cbn zeta. rewrite Hfour. reflexivity.
  - split; [now apply two_digits|]. split; [now apply two_digits|].
    exact Hthree.
Qed.

(** *** [format_data_size] *)

(** The three ways out of [format_data_size]: ["0B"] for 0; for a size of
    1024 bytes or more, the quotient by the largest unit that is not
    above the size, from [KB] up to [TB]; and nothing at all (Python's
    [None]) for a size from 1 to 1023 bytes, or a negative one, because
    the loop stops before the index 0 of the unit [B]. *)
Theorem data_size_text n :
  match format_data_size n with
  | Some (Literal text) => n = 0 /\ text = "0B"%string
  | Some (Scaled size value name) =>
      size = n /\ 1024 <= value <= n /\
      (n < 1024 * value \/ name = "TB"%string) /\
      In (value, name) (combine data_size_values data_size_names)
  | None => n < 0 \/ 1 <= n < 1024
  end.
Proof.
  unfold format_data_size.
  destruct (n =? 0) eqn:Hzero.
  { apply Z.eqb_eq in Hzero. now split. }
  apply Z.eqb_neq in Hzero.
  cbn -[Z.geb Z.mul].
  repeat match goal with
         | |- context [n >=? ?v] =>
             let H := fresh "Htier" in
             destruct (n >=? v) eqn:H;
             [apply Z.geb_le in H | rewrite Z.geb_leb in H;
                                    apply Z.leb_gt in H]
         end;
    cbn -[Z.mul]; repeat split; try lia; auto 10.
Qed.

(** *** The log level of the command line *)

Lemma upper_char_idempotent c :
  Logging.upper_char (Logging.upper_char c) = Logging.upper_char c.
Proof.
  destruct c as [[] [] [] [] [] [] [] []]; reflexivity.
Qed.

Lemma upper_idempotent l : Logging.upper (Logging.upper l) = Logging.upper l.
Proof.
  induction l as [|c l IH]; cbn; [reflexivity|].
  now rewrite upper_char_idempotent, IH.
Qed.

Lemma getitem_In d key level :
  Logging.getitem d key = Some level ->
  exists name, In (name, level) d /\ name = key.
Proof.
  induction d as [|[k v] d IH]; cbn; [discriminate|].
  destruct (k =? key)%string eqn:Hk.
  - intros H. inversion H. subst. apply String.eqb_eq in Hk.
    exists k. split; [now left | exact Hk].
  - intros H. destruct (IH H) as (name & Hin & Hname).
    exists name. split; [now right | exact Hname].
Qed.

(** The level given to the root logger (lines 589-593) is always one of
    the five of [LOG_LEVELS]: for a [--loglevel] of ASCII characters, the
    one it names, in any mixture of upper and lower case, and [INFO] for
    every other text.  The [KeyError] never leaves the [try]. *)
Theorem log_level_is_total loglevel :
  Logging.is_ascii loglevel = true ->
  exists level,
    Logging.log_level loglevel = Some level /\
    (In (Logging.upper loglevel, level) Logging.LOG_LEVELS
     \/ (level = Logging.INFO /\
         ~ In (Logging.upper loglevel) (map fst Logging.LOG_LEVELS))) /\
    Logging.log_level (Logging.upper loglevel) = Some level.
Proof.
  intros _. unfold Logging.log_level. rewrite upper_idempotent.
  destruct (Logging.getitem Logging.LOG_LEVELS (Logging.upper loglevel))
    as [level|] eqn:Hget.
  - exists level. split; [reflexivity|]. split; [|reflexivity].
    left. destruct (getitem_In _ _ _ Hget) as (name & Hin & ->). exact Hin.
  - exists Logging.INFO. split; [reflexivity|]. split; [|reflexivity].
    right. split; [reflexivity|].
    intros Hin. revert Hget. cbn in Hin. cbn.
    repeat match goal with
           | H : _ \/ _ |- _ => destruct H as [H|H]
           end; try contradiction; rewrite <- Hin; cbn; discriminate.
Qed.

End Helpers.

(* ===================================================================== *)
(** ** The engine on explicit trees                                       *)
(* ===================================================================== *)

Module Runs.
Import Fixtures.

(** The scenario of the specification (section 8): one changed file and
    one file of the destination only, copy mode [by-mtime], conflict mode
    [delete]. *)
Example scenario_copy_and_delete :
  let tree :=
    TreeFS.make
      [ TreeFS.dir "src" 10 rwx_r_x_r_x [ TreeFS.file "a.txt" 11 rw_r__r__ 5 100 ];
        TreeFS.dir "dst" 20 rwx_r_x_r_x
          [ TreeFS.file "a.txt" 21 rw_r__r__ 7 200;
            TreeFS.file "b.txt" 22 rw_r__r__ 1 1 ] ] 100 in
  let r := sibackup (with_copymode 1 defaults) 5 (TreeFS.start tree) in
  fst r = Done 0 /\
  info (snd r) = mk_info 1 1 5 0 0 0 0 1 /\
  mutations r = [CCopy2 "/src/a.txt" "/dst/a.txt"; CRemove "/dst/b.txt"] /\
  TreeFS.listdir (disk (snd r)) "/dst" = Ok ["a.txt"] /\
  rmap st_mtime (TreeFS.stat (disk (snd r)) "/dst/a.txt") = Ok 100.
Proof. vm_compute. repeat split. Qed.

(** C1, the claim as stated fails: [/src/a/x] cannot be probed, and the
    run ends with status 0, not 1; after the folder [a] was left, its
    sibling [b.txt] is still copied. *)
Lemma unreadable_entry_run_succeeds :
  let r := sibackup defaults 5 (TreeFS.start tree_unreadable) in
  TreeFS.stat tree_unreadable "/src/a/x" = Raise PermissionError /\
  TreeFS.stat (disk (snd r)) "/src/a/x" = Raise PermissionError /\
  existsb (fun c => match c with CStat "/src/a/x" => true | _ => false end)
          (calls (snd r)) = true /\
  fst r = Done 0 /\
  fst r <> Done 1 /\
  num_processed (info (snd r)) = 1 /\
  mutations r = [CCopy2 "/src/b.txt" "/dst/b.txt"; CMkdir "/dst/a"].
Proof. vm_compute. repeat split; discriminate. Qed.

(** C1, the amended statement on [tree_unreadable]: the call on the
    folder [a] returns 0 when it meets [x], and the loop of the root goes
    on with [b.txt]. *)
Lemma unreadable_source_entry_witness :
  let wp := at_root_loop defaults (TreeFS.start tree_unreadable) in
  let w := after_call (CStat "/src/a") wp in
  let w1 := snd (enter_folder defaults "/dst/!!archive" "/src/a" "/dst/a"
                   "/dst/!!archive/a" w) in
  let w3 := after_call (CStat "/src/a/x") w1 in
  copy_folder defaults 4 "/src" "/dst" "/dst/!!archive" "a" 1 w = (Done 0, w3)
  /\
  for_each ["a"; "b.txt"]
    (process_source_item defaults
       (fun sub => copy_folder defaults 4 "/src" "/dst" "/dst/!!archive" sub 1)
       "/src/" "/dst/" "") wp
  = for_each ["b.txt"]
      (process_source_item defaults
         (fun sub => copy_folder defaults 4 "/src" "/dst" "/dst/!!archive" sub 1)
         "/src/" "/dst/" "") w3.
Proof.
  intros wp w w1 w3.
  destruct (unreadable_source_entry_returns_zero defaults 3
              "/src" "/dst" "/dst/!!archive" "a" 1 w w1 w1 [] "x" ["y"])
    as [Hrun Hparent].
  - reflexivity.
  - apply run_eq; [vm_compute; reflexivity | reflexivity].
  - reflexivity.
  - vm_compute. reflexivity.
  - split; [exact Hrun|].
    apply (Hparent "" "a" ["b.txt"]
             (mk_stat (Z.lor Stat.S_IFDIR rw_______) 11 1 0 0 0 0) wp).
    + reflexivity.
    + vm_compute. reflexivity.
    + reflexivity.
    + reflexivity.
Defined.

(** C2, the failing run.  In simulate mode, with conflict mode [delete]
    and a read-only file that only the destination has, the run issues
    [os.chmod(path, stat.S_IWRITE)]: the permission bits of the file go
    from [r--r--r--] to [-w-------], so the destination tree is not what
    it was. *)
Theorem simulate_run_changes_permission_bits :
  let a := with_simulate defaults in
  let r := sibackup a 5 (TreeFS.start tree_readonly_conflict) in
  simulate a = true /\
  fst r = Done 0 /\
  mutations r = [CChmod "/dst/b.txt" Stat.S_IWRITE] /\
  rmap st_mode (TreeFS.stat tree_readonly_conflict "/dst/b.txt")
    = Ok (Z.lor Stat.S_IFREG r__r__r__) /\
  rmap st_mode (TreeFS.stat (disk (snd r)) "/dst/b.txt")
    = Ok (Z.lor Stat.S_IFREG Stat.S_IWRITE) /\
  disk (snd r) <> tree_readonly_conflict.
Proof.
  vm_compute. repeat split. intros H. discriminate H.
Qed.

(** C3, the failing run.  A source sub-folder that the destination lacks:
    the real run creates it and counts one created folder, the simulated
    run counts none (lines 221-231 have no [else] branch for the
    simulation, unlike lines 282-294). *)
Theorem simulate_omits_created_folder :
  let real := sibackup defaults 5 (TreeFS.start tree_new_subfolder) in
  let simulated :=
    sibackup (with_simulate defaults) 5 (TreeFS.start tree_new_subfolder) in
  fst real = Done 0 /\ fst simulated = Done 0 /\
  info (snd real) = mk_info 0 0 0 0 0 0 1 0 /\
  info (snd simulated) = mk_info 0 0 0 0 0 0 0 0 /\
  num_created (info (snd real)) <> num_created (info (snd simulated)).
Proof.
  vm_compute. repeat split. discriminate.
Qed.

(** The archive folder given as ["./!!archive"]: the conflict item
    [/dst/!!archive] is the archive root (same inode and device), but its
    path is not spelled like the archive path, so the guard of line 280
    lets it through: [shutil.move] is called on it and a resolved conflict
    is counted, while the folder stays where it is.  Spelled ["!!archive"]
    the same folder is left alone. *)
Example respelled_archive_root_is_not_recognised :
  let a := with_archivepath "./!!archive" (with_conflictmode 1 defaults) in
  let r := sibackup a 5 (TreeFS.start tree_archive) in
  let plain := sibackup (with_conflictmode 1 defaults) 5
                 (TreeFS.start tree_archive) in
  rbind (helper_on tree_archive "/dst/!!archive") (fun item =>
    rbind (helper_on tree_archive (Path.join "/dst" "./!!archive"))
      (fun archive_root => SH.samestat item archive_root)) = Ok true /\
  fst r = Done 0 /\
  mutations r = [CMove "/dst/!!archive" "/dst/./!!archive/"] /\
  conflicts_resolved (info (snd r)) = 1 /\
  disk (snd r) = tree_archive /\
  mutations plain = [] /\
  conflicts_resolved (info (snd plain)) = 0.
Proof.
  vm_compute. repeat split.
Qed.


(** With the archive folder nested and respelled (["sub/./arch"]) the
    guard fails in the same way; [shutil.move] then refuses to move the
    folder into itself and its exception ends the run. *)
Example respelled_nested_archive_root :
  let a := with_archivepath "sub/./arch" (with_conflictmode 1 defaults) in
  let r := sibackup a 5 (TreeFS.start tree_archive_nested) in
  fst r = Uncaught (OSError "shutil.Error: cannot move a directory into itself") /\
  mutations r = [CMove "/dst/sub/arch" "/dst/sub/./arch/sub";
                 CMakedirs "/dst/sub/./arch/sub"].
Proof.
  vm_compute. repeat split.
Qed.

(** C5 on two trees: [a.txt] with a destination modified later is copied
    under mode [by-mtime] (and under mode 3); [a.txt] with equal time and
    size is not copied under mode [by-mtime-then-size]. *)
Lemma copy_decision_witness :
  (process_file (with_copymode 1 defaults) "/dst/" "a.txt"
     (probed "/src/a.txt" a_txt_source) (TreeFS.start tree_newer_dest)
   = (copy_file (with_copymode 1 defaults) (probed "/src/a.txt" a_txt_source)
        (helper_of "/dst/a.txt" (Some a_txt_newer)) ;;
      bump (add_num_processed 1))%prog
       (after_call (CStat "/dst/a.txt") (TreeFS.start tree_newer_dest)))
  /\
  (exists w',
     process_file defaults "/dst/" "a.txt"
       (probed "/src/a.txt" a_txt_source) (TreeFS.start tree_same)
     = (Done tt, w') /\
     disk w' = tree_same /\
     calls w' = [CStat "/dst/a.txt"] /\
     num_copied (info w') = 0 /\ size_copied (info w') = 0 /\
     not_copied (info w') = 0)
  /\
  (st_mtime a_txt_source < st_mtime a_txt_newer /\
   process_file (with_copymode 3 defaults) "/dst/" "a.txt"
     (probed "/src/a.txt" a_txt_source) (TreeFS.start tree_newer_dest)
   = (copy_file (with_copymode 3 defaults) (probed "/src/a.txt" a_txt_source)
        (helper_of "/dst/a.txt" (Some a_txt_newer)) ;;
      bump (add_num_processed 1))%prog
       (after_call (CStat "/dst/a.txt") (TreeFS.start tree_newer_dest))).
Proof.
  split; [|split].
  - apply (copy_decision_follows_chain (with_copymode 1 defaults)
             "/dst/" "a.txt" "/src/a.txt" a_txt_source (Some a_txt_newer)
             (TreeFS.start tree_newer_dest)); reflexivity.
  - apply (copy_decision_follows_chain defaults
             "/dst/" "a.txt" "/src/a.txt" a_txt_source (Some a_txt_same)
             (TreeFS.start tree_same)); reflexivity.
  - split; [cbn; lia|].
    apply (proj2 (proj2
             (copy_decision_follows_chain (with_copymode 3 defaults)
                "/dst/" "a.txt" "/src/a.txt" a_txt_source (Some a_txt_newer)
                (TreeFS.start tree_newer_dest) eq_refl)) a_txt_newer);
      [reflexivity | cbn; lia | cbn; lia].
Defined.

(** C6, the claim as stated fails: under copy mode 3 a file whose
    destination has the same time and size is processed and not copied,
    and the skip counters stay at 0 (copy mode 2 counts it: one file, 5
    bytes). *)
Lemma hash_mode_counts_no_skip :
  let r := sibackup (with_copymode 3 defaults) 5 (TreeFS.start tree_same) in
  let r2 := sibackup defaults 5 (TreeFS.start tree_same) in
  spec_should_copy 3 a_txt_source (Some a_txt_same) = false /\
  fst r = Done 0 /\
  info (snd r) = mk_info 1 0 0 0 0 0 0 0 /\
  mutations r = [] /\
  info (snd r2) = mk_info 1 0 0 1 5 0 0 0.
Proof.
  vm_compute. repeat split.
Qed.

(** C6, the amended statement on three runs: a skipped file under mode 2,
    the same file under mode 3, and a copied file. *)
Lemma processed_and_skipped_witness :
  process_file defaults "/dst/" "a.txt"
    (probed "/src/a.txt" a_txt_source) (TreeFS.start tree_same)
  = (Done tt,
     with_info (fun i => add_num_processed 1
                           (add_size_skipped 5 (add_num_skipped 1 i)))
       (after_call (CStat "/dst/a.txt") (TreeFS.start tree_same)))
  /\
  process_file (with_copymode 3 defaults) "/dst/" "a.txt"
    (probed "/src/a.txt" a_txt_source) (TreeFS.start tree_same)
  = (Done tt,
     with_info (add_num_processed 1)
       (after_call (CStat "/dst/a.txt") (TreeFS.start tree_same)))
  /\
  exists w',
    process_file (with_copymode 1 defaults) "/dst/" "a.txt"
      (probed "/src/a.txt" a_txt_source) (TreeFS.start tree_newer_dest)
    = (Done tt, w') /\
    num_processed (info w') = 0 + 1 /\
    num_skipped (info w') = 0 /\ size_skipped (info w') = 0.
Proof.
  split; [|split].
  - apply (processed_and_skipped_counters defaults
             "/dst/" "a.txt" "/src/a.txt" a_txt_source (Some a_txt_same)
             (TreeFS.start tree_same)); reflexivity.
  - apply (processed_and_skipped_counters (with_copymode 3 defaults)
             "/dst/" "a.txt" "/src/a.txt" a_txt_source (Some a_txt_same)
             (TreeFS.start tree_same)); reflexivity.
  - apply (processed_and_skipped_counters (with_copymode 1 defaults)
             "/dst/" "a.txt" "/src/a.txt" a_txt_source (Some a_txt_newer)
             (TreeFS.start tree_newer_dest)); [reflexivity | reflexivity |].
    right. intros e H. vm_compute in H. discriminate H.
Defined.

(** C7, the claim as stated fails: with the depth limit -1 and no
    destination root, the run returns 1 after it has created the
    destination root. *)
Lemma invalid_depth_creates_destination :
  let a := with_depth (-1) defaults in
  let r := sibackup a 5 (TreeFS.start tree_no_dest) in
  invalid_configuration a = true /\
  TreeFS.exists_ tree_no_dest "/dst" = false /\
  fst r = Done 1 /\
  mutations r = [CMakedirs "/dst"] /\
  TreeFS.exists_ (disk (snd r)) "/dst" = true /\
  TreeFS.listdir (disk (snd r)) "/" = Ok ["src"; "dst"].
Proof.
  vm_compute. repeat split.
Qed.

(** C7, the amended statement on the same run. *)
Lemma invalid_configuration_witness :
  exists w',
    sibackup (with_depth (-1) defaults) 5 (TreeFS.start tree_no_dest)
      = (Done 1, w') /\
    (exists issued,
       calls w' = (issued ++ [])%list /\
       forall c, In c issued ->
         c = CExists "/src" \/ c = CExists "/dst" \/
         (c = CMakedirs "/dst" /\ false = false /\
          TreeFS.exists_ tree_no_dest "/dst" = false)) /\
    (false = true -> disk w' = tree_no_dest) /\
    (TreeFS.exists_ tree_no_dest "/dst" = true -> disk w' = tree_no_dest).
Proof.
  apply (invalid_configuration_aborts (with_depth (-1) defaults) 5
           (TreeFS.start tree_no_dest)).
  - reflexivity.
  - intros e H. vm_compute in H. discriminate H.
Defined.




(** C9 with the depth limit 0 on [tree_depth]: the call on the folder
    [d], at depth 1, returns at once in any world; the call on the root,
    at depth 0, processes [f.txt] and goes on with [d]. *)
Lemma depth_limit_witness :
  let a := with_depth 0 defaults in
  let w := TreeFS.start tree_depth in
  copy_folder a 4 "/src" "/dst" "/dst/!!archive" "d" 1 w = (Done 0, w)
  /\
  copy_folder a 4 "/src" "/dst" "/dst/!!archive" "" 0 w
  = (process_file a "/dst/" "f.txt" (probed "/src/f.txt" f_txt) ;;
     returning
       for_each ["d"]
         (process_source_item a
            (fun sub => copy_folder a 3 "/src" "/dst" "/dst/!!archive" sub 1)
            "/src/" "/dst/" "") ;;
     ret 0)%prog (after_call (CStat "/src/f.txt") (at_root_loop a w)).
Proof.
  intros a w. split.
  - apply (depth_limit a 3 "/src" "/dst" "/dst/!!archive" "d" 1 0 w eq_refl).
    lia.
  - apply (proj2 (depth_limit a 3 "/src" "/dst" "/dst/!!archive" "" 0 0 w
                    eq_refl)
             (Z.le_refl 0) (at_root_loop a w) (at_root_loop a w)
             [] "f.txt" ["d"] f_txt).
    + apply run_eq; [vm_compute; reflexivity | reflexivity].
    + reflexivity.
    + vm_compute. reflexivity.
Defined.

(** The whole run with the depth limit 0: [f.txt] is copied, the folder
    [d] is probed and not entered. *)
Example depth_zero_run :
  let r := sibackup (with_depth 0 defaults) 5 (TreeFS.start tree_depth) in
  fst r = Done 0 /\
  num_processed (info (snd r)) = 1 /\
  mutations r = [CCopy2 "/src/f.txt" "/dst/f.txt"] /\
  TreeFS.listdir (disk (snd r)) "/dst" = Ok ["f.txt"].
Proof.
  vm_compute. repeat split.
Qed.

(** C10 on [tree_denied_dest]: the destination root can be listed but
    its entry [f] cannot be probed; the call on the root ends with an
    uncaught [AttributeError], and so does the whole run. *)
Lemma denied_destination_probe_witness :
  let w := TreeFS.start tree_denied_dest in
  let w2 := at_root_loop defaults w in
  ((exists dest_item_stats,
      SH.init "/dst/f" (Raise PermissionError) = Ok dest_item_stats /\
      _exists dest_item_stats = None /\
      SH.exists_ dest_item_stats = Raise AttributeError) /\
   copy_folder defaults 4 "/src" "/dst" "/dst/!!archive" "" 0 w
     = (Uncaught AttributeError,
        after_call (CStat "/dst/f") (after_call (CStat "/src/f") w2)))
  /\
  fst (sibackup defaults 5 w) = Uncaught AttributeError.
Proof.
  intros w w2. split.
  - apply (denied_destination_probe_is_uncaught defaults 3
             "/src" "/dst" "/dst/!!archive" "" 0 w w2 w2 [] "f" []
             (mk_stat (Z.lor Stat.S_IFREG rw_r__r__) 11 1 5 100 100 100)).
    + reflexivity.
    + apply run_eq; [vm_compute; reflexivity | reflexivity].
    + reflexivity.
    + vm_compute. reflexivity.
    + vm_compute. reflexivity.
    + vm_compute. reflexivity.
  - vm_compute. reflexivity.
Defined.

(** A simulated run under conflict mode [delete] issues one writing
    call, the [chmod]; under conflict mode [ignore] it issues none. *)
Lemma simulated_run_witness :
  (exists issued,
     calls (snd (sibackup (with_simulate defaults) 5
                   (TreeFS.start tree_readonly_conflict)))
       = (issued ++ [])%list /\
     Forall reads_or_chmods issued /\
     (2 = 0 ->
      Forall (fun c => is_mutation c = false) issued /\
      disk (snd (sibackup (with_simulate defaults) 5
                   (TreeFS.start tree_readonly_conflict)))
        = tree_readonly_conflict))
  /\
  (exists issued,
     calls (snd (sibackup (with_simulate (with_conflictmode 0 defaults)) 5
                   (TreeFS.start tree_readonly_conflict)))
       = (issued ++ [])%list /\
     Forall reads_or_chmods issued /\
     (0 = 0 ->
      Forall (fun c => is_mutation c = false) issued /\
      disk (snd (sibackup (with_simulate (with_conflictmode 0 defaults)) 5
                   (TreeFS.start tree_readonly_conflict)))
        = tree_readonly_conflict)).
Proof.
  split.
  - apply (simulated_run_only_resets_modes (with_simulate defaults) 5
             (TreeFS.start tree_readonly_conflict) eq_refl).
  - apply (simulated_run_only_resets_modes
             (with_simulate (with_conflictmode 0 defaults)) 5
             (TreeFS.start tree_readonly_conflict) eq_refl).
Defined.

(** The run on [tree_depth] ends within 5 nested calls, and so it ends
    in the same way within 9. *)
Lemma more_fuel_witness :
  let w := TreeFS.start tree_depth in
  fst (sibackup defaults 5 w) = Done 0 /\
  sibackup defaults 9 w
    = (fst (sibackup defaults 5 w), snd (sibackup defaults 5 w)).
Proof.
  intros w. split; [vm_compute; reflexivity|].
  apply (more_fuel_same_run defaults 5 9 w).
  - lia.
  - apply surjective_pairing.
  - vm_compute. discriminate.
Defined.

(** Copy mode 0 on [tree_same]: the unchanged [a.txt] is copied again. *)
Lemma always_mode_witness :
  process_file (with_copymode 0 defaults) "/dst/" "a.txt"
    (probed "/src/a.txt" a_txt_source) (TreeFS.start tree_same)
  = (copy_file (with_copymode 0 defaults) (probed "/src/a.txt" a_txt_source)
       (helper_of "/dst/a.txt" (Some a_txt_same)) ;;
     bump (add_num_processed 1))%prog
      (after_call (CStat "/dst/a.txt") (TreeFS.start tree_same))
  /\
  mutations (sibackup (with_copymode 0 defaults) 5 (TreeFS.start tree_same))
  = [CCopy2 "/src/a.txt" "/dst/a.txt"].
Proof.
  split.
  - apply (always_mode_copies (with_copymode 0 defaults) "/dst/" "a.txt"
             "/src/a.txt" a_txt_source (Some a_txt_same)
             (TreeFS.start tree_same)); reflexivity.
  - vm_compute. reflexivity.
Defined.

Lemma size_mode_witness :
  copy_verdict defaults (probed "/src/a.txt" a_txt_source)
    (helper_of "/dst/a.txt" (Some a_txt_same)) = Ok SkipIt /\
  copy_verdict defaults (probed "/src/a.txt" a_txt_source)
    (helper_of "/dst/a.txt" (Some a_txt_newer)) = Ok CopyIt.
Proof.
  split.
  - apply (size_mode_decision defaults "/src/a.txt" "/dst/a.txt"
             a_txt_source a_txt_same eq_refl).
  - apply (size_mode_decision defaults "/src/a.txt" "/dst/a.txt"
             a_txt_source a_txt_newer eq_refl).
Defined.

(** The three conflict modes on [b.txt], a file of the destination only,
    and the archive guard on the archive folder itself. *)
Lemma ignored_conflict_witness :
  resolve_conflict (with_conflictmode 0 defaults) "/dst/!!archive" "/dst/"
    "/dst/!!archive/" "b.txt" (TreeFS.start tree_conflict)
  = (Done None,
     with_info (add_conflicts_resolved 1)
       (after_call (CStat "/dst/b.txt") (TreeFS.start tree_conflict))).
Proof.
  apply (ignored_conflict_is_counted (with_conflictmode 0 defaults)
           "/dst/!!archive" "/dst/" "/dst/!!archive/" "b.txt"
           (TreeFS.start tree_conflict)).
  - reflexivity.
  - intros e H. vm_compute in H. discriminate H.
Defined.

Lemma deleted_file_witness :
  let w := TreeFS.start tree_conflict in
  resolve_conflict defaults "/dst/!!archive" "/dst/" "/dst/!!archive/"
    "b.txt" w
  = (Done None,
     @mk_world TreeFS.os (add_conflicts_resolved 1 info_zero)
       (snd (TreeFS.remove tree_conflict "/dst/b.txt"))
       [CRemove "/dst/b.txt"; CIsdir "/dst/b.txt"; CStat "/dst/b.txt"])
  /\
  TreeFS.listdir (snd (TreeFS.remove tree_conflict "/dst/b.txt")) "/dst"
  = Ok [].
Proof.
  intros w. split.
  - apply (deleted_file_is_counted defaults "/dst/!!archive" "/dst/"
             "/dst/!!archive/" "b.txt" b_txt w).
    + reflexivity.
    + reflexivity.
    + vm_compute. reflexivity.
    + vm_compute. discriminate.
    + vm_compute. reflexivity.
    + vm_compute. reflexivity.
  - vm_compute. reflexivity.
Defined.

Lemma archive_path_witness :
  let a := with_conflictmode 1 defaults in
  let w := TreeFS.start tree_archive in
  let v := TreeFS.start tree_archive_read_only in
  resolve_conflict a "/dst/!!archive" "/dst/" "/dst/!!archive/" "!!archive" w
  = (Done None, after_call (CStat "/dst/!!archive") w)
  /\
  resolve_conflict a "/dst/!!archive" "/dst/" "/dst/!!archive/" "!!archive" v
  = (Done None,
     @mk_world TreeFS.os info_zero
       (snd (TreeFS.chmod tree_archive_read_only "/dst/!!archive"
               Stat.S_IWRITE))
       [CChmod "/dst/!!archive" Stat.S_IWRITE; CStat "/dst/!!archive"])
  /\
  TreeFS.listdir (disk (snd (sibackup a 5 v))) "/dst" = Ok ["!!archive"].
Proof.
  intros a w v. split; [|split].
  - apply (archive_path_is_not_archived a "/dst/" "/dst/!!archive/"
             "!!archive" archive_dir w).
    + reflexivity.
    + vm_compute. reflexivity.
  - apply (archive_path_is_not_archived a "/dst/" "/dst/!!archive/"
             "!!archive" archive_dir_read_only v).
    + reflexivity.
    + vm_compute. reflexivity.
  - vm_compute. reflexivity.
Defined.

(** [/dst] cannot be written to: the call on the folder [d] ends with
    status 0, and the run goes on to [f.txt], whose copy is refused and
    counted as not copied. *)
Lemma refused_folder_creation_witness :
  let w := TreeFS.start tree_locked_dest in
  copy_folder defaults 4 "/src" "/dst" "/dst/!!archive" "d" 1 w
  = (Done 0,
     @mk_world TreeFS.os info_zero
       (snd (TreeFS.mkdir tree_locked_dest "/dst/d"))
       [CMkdir "/dst/d"; CExists "/dst/d"])
  /\
  fst (sibackup defaults 5 w) = Done 0 /\
  info (snd (sibackup defaults 5 w)) = mk_info 1 0 0 0 0 1 0 0.
Proof.
  intros w. split; [|split].
  - apply (refused_folder_creation_is_local defaults 3 "/src" "/dst"
             "/dst/!!archive" "d" 1 w).
    + reflexivity.
    + reflexivity.
    + vm_compute. reflexivity.
    + vm_compute. reflexivity.
  - vm_compute. reflexivity.
  - vm_compute. reflexivity.
Defined.

Lemma simulated_copy_witness :
  let w := TreeFS.start tree_newer_dest in
  let src := probed "/src/a.txt" a_txt_source in
  let dst := helper_of "/dst/a.txt" (Some a_txt_newer) in
  fst (copy_file (with_simulate defaults) src dst w)
    = fst (copy_file defaults src dst w) /\
  info (snd (copy_file (with_simulate defaults) src dst w))
    = info (snd (copy_file defaults src dst w)) /\
  calls (snd (copy_file (with_simulate defaults) src dst w)) = [] /\
  disk (snd (copy_file (with_simulate defaults) src dst w)) = tree_newer_dest.
Proof.
  intros w src dst.
  apply (simulated_copy_counts_like_success defaults (with_simulate defaults)
           src dst w).
  - reflexivity.
  - reflexivity.
  - vm_compute. reflexivity.
Defined.

Lemma simulated_delete_witness :
  let w := TreeFS.start tree_conflict in
  resolve_conflict (with_simulate defaults) "/dst/!!archive" "/dst/"
    "/dst/!!archive/" "b.txt" w
  = (Done None,
     with_info (add_conflicts_resolved 1) (after_call (CStat "/dst/b.txt") w)).
Proof.
  intros w.
  apply (simulated_delete_is_counted (with_simulate defaults)
           "/dst/!!archive" "/dst/" "/dst/!!archive/" "b.txt" b_txt w).
  - reflexivity.
  - reflexivity.
  - vm_compute. reflexivity.
  - vm_compute. discriminate.
Defined.

(** A run that copies nothing but an empty file ends in the summary: the
    share of the copied data is a division by zero (line 472). *)
Example empty_file_run_divides_by_zero :
  let tree :=
    TreeFS.make
      [ TreeFS.dir "src" 10 rwx_r_x_r_x [ TreeFS.file "e" 11 rw_r__r__ 0 100 ];
        TreeFS.dir "dst" 20 rwx_r_x_r_x [] ] 100 in
  let r := sibackup defaults 5 (TreeFS.start tree) in
  fst r = Uncaught ZeroDivisionError /\
  info (snd r) = mk_info 1 1 0 0 0 0 0 0 /\
  mutations r = [CCopy2 "/src/e" "/dst/e"].
Proof.
  vm_compute. repeat split.
Qed.

(** On [tree_abort], with the listing of the new folder [/dst/d] failing:
    the run returns the status 1 of the call on [d]. *)
Lemma status_witness :
  let v := RacyFS.start ["/dst/d"] tree_abort in
  fst (sibackup defaults 5 v) = Done 1 /\ is_status 1.
Proof.
  intros v. split; [vm_compute; reflexivity|].
  apply (proj1 (status_is_zero_or_one defaults 5) v 1
           (snd (sibackup defaults 5 v))).
  apply run_eq; [vm_compute; reflexivity | reflexivity].
Defined.

(** The same run, seen from the root folder: the call on [d] returns 1,
    so does the call on the root, and the file [z] after [d] is never
    probed. *)
Lemma nested_abort_witness :
  let v := RacyFS.start ["/dst/d"] tree_abort in
  let v1 :=
    snd (enter_folder defaults "/dst/!!archive" "/src/" "/dst/"
           "/dst/!!archive/" v) in
  let v3 :=
    snd (copy_folder defaults 3 "/src" "/dst" "/dst/!!archive" "d" 1
           (after_call (CStat "/src/d") v1)) in
  copy_folder defaults 4 "/src" "/dst" "/dst/!!archive" "" 0 v = (Done 1, v3)
  /\
  existsb (fun c => match c with CStat "/src/z" => true | _ => false end)
    (calls v3) = false.
Proof.
  intros v v1 v3. split; [|vm_compute; reflexivity].
  apply (nested_abort_propagates defaults 3 "/src" "/dst" "/dst/!!archive"
           "" 0 v v1 v1 v3 [] "d" ["z"] d_dir 1).
  - reflexivity.
  - apply run_eq; [vm_compute; reflexivity | reflexivity].
  - reflexivity.
  - vm_compute. reflexivity.
  - vm_compute. reflexivity.
  - apply run_eq; [vm_compute; reflexivity | reflexivity].
  - discriminate.
Defined.

(** The run on [tree_depth] under the defaults returns with every
    processed file in one of the three counters. *)
Lemma every_processed_file_witness :
  let w := TreeFS.start tree_depth in
  let w' := snd (sibackup defaults 5 w) in
  fst (sibackup defaults 5 w) = Done 0 /\
  0 < num_processed (info w') /\
  num_processed (info w')
  = num_copied (info w') + num_skipped (info w') + not_copied (info w').
Proof.
  intros w w'. split; [vm_compute; reflexivity|].
  split; [vm_compute; reflexivity|].
  apply (proj2 (proj2 (every_processed_file_is_counted defaults 5 w 0 w'
                         (run_eq _ _ _ eq_refl eq_refl)))).
  - discriminate.
  - reflexivity.
Defined.

(** No [/src]: status 1 after one existence test, even before any
    nested call is allowed. *)
Lemma missing_source_witness :
  let w := TreeFS.start tree_no_source in
  sibackup defaults 0 w = (Done 1, after_call (CExists "/src") w).
Proof.
  intros w. apply (missing_source_aborts defaults 0 w).
  vm_compute. reflexivity.
Defined.

(** [/src] cannot be listed: the run on [tree_unlistable_source] returns
    0 and the conflict [b.txt] of the destination is left alone. *)
Lemma unreadable_source_folder_witness :
  let w := TreeFS.start tree_unlistable_source in
  let w1 := snd (ensure_dest_folder defaults "/dst/" w) in
  copy_folder defaults 1 "/src" "/dst" "/dst/!!archive" "" 0 w
  = (Done 0, after_call (CListdir "/src/") w1)
  /\
  mutations (sibackup defaults 5 w) = [].
Proof.
  intros w w1. split; [|vm_compute; reflexivity].
  apply (unreadable_source_folder_is_skipped defaults 0 "/src" "/dst"
           "/dst/!!archive" "" 0 w w1).
  - reflexivity.
  - apply run_eq; [vm_compute; reflexivity | reflexivity].
  - vm_compute. reflexivity.
Defined.

(** [/dst] cannot be listed: the run on [tree_unlistable_dest] ends with
    an uncaught [PermissionError]. *)
Lemma denied_destination_listing_witness :
  let w := TreeFS.start tree_unlistable_dest in
  let w1 := snd (ensure_dest_folder defaults "/dst/" w) in
  copy_folder defaults 1 "/src" "/dst" "/dst/!!archive" "" 0 w
  = (Uncaught PermissionError,
     after_call (CListdir "/dst/") (after_call (CListdir "/src/") w1))
  /\
  fst (sibackup defaults 5 w) = Uncaught PermissionError.
Proof.
  intros w w1. split; [|vm_compute; reflexivity].
  apply (denied_destination_listing_is_uncaught defaults 0 "/src" "/dst"
           "/dst/!!archive" "" 0 w w1 ["a.txt"]).
  - reflexivity.
  - apply run_eq; [vm_compute; reflexivity | reflexivity].
  - vm_compute. reflexivity.
  - vm_compute. reflexivity.
Defined.

(** [/src/link] is listed and not found: the run ends with an uncaught
    [AttributeError] and the file [z] after it is not copied. *)
Lemma vanished_source_entry_witness :
  let w := ForeignFS.start ["/src/link"] [] tree_link in
  process_source_item defaults
    (fun sub => copy_folder defaults 3 "/src" "/dst" "/dst/!!archive" sub 1)
    "/src/" "/dst/" "" "link" w
  = (Uncaught AttributeError, after_call (CStat "/src/link") w)
  /\
  fst (sibackup defaults 5 w) = Uncaught AttributeError /\
  mutations (sibackup defaults 5 w) = [].
Proof.
  intros w. split; [|split; vm_compute; reflexivity].
  apply (vanished_source_entry_is_uncaught defaults
           (fun sub =>
              copy_folder defaults 3 "/src" "/dst" "/dst/!!archive" sub 1)
           "/src/" "/dst/" "" "link" w).
  vm_compute. reflexivity.
Defined.

(** [/src/secret] cannot be read by [shutil.copy2]: it is counted as not
    copied, and the run goes on to copy [z]. *)
Lemma refused_copy_witness :
  let w := TreeFS.start tree_secret in
  process_file defaults "/dst/" "secret" (probed "/src/secret" secret) w
  = (Done tt,
     @mk_world TreeFS.os
       (add_num_processed 1 (add_not_copied 1 info_zero)) tree_secret
       [CCopy2 "/src/secret" "/dst/secret"; CStat "/dst/secret"])
  /\
  fst (sibackup defaults 5 w) = Done 0 /\
  info (snd (sibackup defaults 5 w)) = mk_info 2 1 5 0 0 1 0 0.
Proof.
  intros w. split; [|split; vm_compute; reflexivity].
  apply (refused_copy_is_counted defaults "/dst/" "secret" "/src/secret"
           secret w PermissionError tree_secret).
  - reflexivity.
  - vm_compute. reflexivity.
  - vm_compute. reflexivity.
  - now left.
Defined.

(** The file [/src/a] meets the folder [/dst/a], which holds a folder [a]:
    [shutil.copy2] raises [IsADirectoryError], which ends the run. *)
Lemma failed_copy_witness :
  let w := TreeFS.start tree_folder_in_the_way in
  copy_file defaults (probed "/src/a" a_file)
    (helper_of "/dst/a" (Some a_folder)) w
  = (Uncaught (OSError "IsADirectoryError"),
     @mk_world TreeFS.os info_zero tree_folder_in_the_way
       [CCopy2 "/src/a" "/dst/a"])
  /\
  fst (sibackup defaults 5 w) = Uncaught (OSError "IsADirectoryError").
Proof.
  intros w. split; [|vm_compute; reflexivity].
  apply (failed_copy_is_uncaught defaults (probed "/src/a" a_file)
           (helper_of "/dst/a" (Some a_folder)) w "IsADirectoryError"
           tree_folder_in_the_way).
  - reflexivity.
  - vm_compute. reflexivity.
Defined.

(** Conflict mode 1 on [tree_locked_conflicts]: the archive folder cannot
    be created, the call returns 0, the second conflict [c.txt] is not
    probed and the source file [a.txt] is not processed. *)
Lemma refused_archive_folder_witness :
  let a := with_conflictmode 1 defaults in
  let w := TreeFS.start tree_locked_conflicts in
  let w1 := snd (ensure_dest_folder a "/dst/" w) in
  let w2 := snd (list_children a "/src/" "/dst/" w1) in
  copy_folder a 1 "/src" "/dst" "/dst/!!archive" "" 0 w
  = (Done 0,
     @mk_world TreeFS.os (info w2) tree_locked_conflicts
       (CMakedirs "/dst/!!archive/" :: CExists "/dst/!!archive/"
          :: CStat "/dst/b.txt" :: calls w2))
  /\
  info w2 = info_zero.
Proof.
  intros a w w1 w2. split; [|vm_compute; reflexivity].
  apply (refused_archive_folder_ends_folder a 0 "/src" "/dst"
           "/dst/!!archive" "" 0 w w1 w2 ["a.txt"] ["b.txt"; "c.txt"]
           "b.txt" ["c.txt"] b_txt tree_locked_conflicts).
  - reflexivity.
  - reflexivity.
  - reflexivity.
  - apply run_eq; [vm_compute; reflexivity | reflexivity].
  - apply run_eq; [vm_compute; reflexivity | reflexivity].
  - vm_compute. reflexivity.
  - vm_compute. reflexivity.
  - vm_compute. discriminate.
  - intros H. vm_compute in H. discriminate H.
  - vm_compute. reflexivity.
  - vm_compute. reflexivity.
Defined.

(** Conflict mode 2 on the read-only [b.txt] of another owner: the
    refused [os.chmod] ends the run. *)
Lemma refused_mode_reset_witness :
  let w := ForeignFS.start [] ["/dst/b.txt"] tree_readonly_conflict in
  resolve_conflict defaults "/dst/!!archive" "/dst/" "/dst/!!archive/"
    "b.txt" w
  = (Uncaught PermissionError,
     @mk_world (ForeignFS.os [] ["/dst/b.txt"]) info_zero
       tree_readonly_conflict
       [CChmod "/dst/b.txt" Stat.S_IWRITE; CStat "/dst/b.txt"])
  /\
  fst (sibackup defaults 5 w) = Uncaught PermissionError.
Proof.
  intros w. split; [|vm_compute; reflexivity].
  apply (refused_mode_reset_is_uncaught defaults "/dst/!!archive" "/dst/"
           "/dst/!!archive/" "b.txt" b_txt_read_only w PermissionError
           tree_readonly_conflict).
  - discriminate.
  - vm_compute. reflexivity.
  - vm_compute. reflexivity.
  - vm_compute. reflexivity.
Defined.

(** The run on [tree_depth] returns, having copied 11 bytes. *)
Lemma returned_summary_witness :
  let w := TreeFS.start tree_depth in
  let w' := snd (sibackup defaults 5 w) in
  fst (sibackup defaults 5 w) = Done 0 /\
  size_copied (info w') = 11 /\
  (no_file_counted (info w')
   \/ size_copied (info w') + size_skipped (info w') <> 0).
Proof.
  intros w w'. split; [vm_compute; reflexivity|].
  split; [vm_compute; reflexivity|].
  apply (returned_summary_has_bytes defaults 5 w 0 w').
  - split; reflexivity.
  - apply run_eq; [vm_compute; reflexivity | reflexivity].
Defined.

(** The helper of a path whose probe was refused. *)
Lemma stat_helper_witness :
  let h := mk_helper "/dst/f" None None (Some false) in
  SH.init "/dst/f" (Raise PermissionError) = Ok h /\
  (SH.exists_ h = Raise AttributeError
   <-> @Raise stat_result PermissionError = Raise PermissionError).
Proof.
  intros h. split; [reflexivity|].
  exact (proj1 (proj2 (proj2
           (stat_helper_after_probe "/dst/f" (Raise PermissionError) h
              eq_refl)))).
Defined.

(** [--loglevel debug] and [--loglevel verbose]. *)
Lemma log_level_witness :
  Logging.log_level "debug" = Some Logging.DEBUG /\
  Logging.log_level "verbose" = Some Logging.INFO /\
  exists level,
    Logging.log_level "Warning" = Some level /\
    (In (Logging.upper "Warning", level) Logging.LOG_LEVELS
     \/ (level = Logging.INFO /\
         ~ In (Logging.upper "Warning") (map fst Logging.LOG_LEVELS))) /\
    Logging.log_level (Logging.upper "Warning") = Some level.
Proof.
  split; [reflexivity|]. split; [reflexivity|].
  apply (log_level_is_total "Warning"). reflexivity.
Defined.

(** Conflict mode 2 on a folder that [shutil.rmtree] cannot remove: the
    file [a] goes, the file [b] of the read-only [sub] stays; the handler
    [remove_read_only] resets the modes of [b], of [sub] and of [old],
    on which the removal failed; no exception comes out, and the conflict
    is counted as resolved although [old] is still there. *)
Example read_only_subfolder_run :
  let r := sibackup defaults 5 (TreeFS.start tree_read_only_subfolder) in
  fst r = Done 0 /\
  mutations r
  = [CChmod "/dst/old" Stat.S_IWRITE; CChmod "/dst/old/sub" Stat.S_IWRITE;
     CChmod "/dst/old/sub/b" Stat.S_IWRITE; CRmtree "/dst/old"] /\
  conflicts_resolved (info (snd r)) = 1 /\
  TreeFS.listdir (disk (snd r)) "/dst" = Ok ["old"] /\
  TreeFS.find_node (TreeFS.root (disk (snd r))) ["dst"; "old"; "a"] = None /\
  TreeFS.is_empty (disk (snd r)) "/dst/old/sub" = false.
Proof.
  vm_compute. repeat split.
Qed.

End Runs.
